(** * Dwolla sandbox dashboard backend: a shallow embedding of [server.js]

    The backend is an Express application whose handlers read and write four
    module-level variables ([dwollaConfig], [customersStore],
    [transfersStore], [webhooksStore]) and talk to the payment provider
    through the SDK client [dwollaClient].  The embedding keeps that shape:

    - JSON data (request bodies, provider bodies) is a value of [Json];
      a JavaScript value that may be [undefined] is an [option Json];
    - the module-level variables are the fields of [World], together with
      the list of calls issued to the provider and the number of clock
      readings made so far;
    - an [async] handler is a computation in the monad [M], which threads
      the world and may throw;
    - the provider, the clock and the built-ins of the language that the
      server relies on are variables of the section [Server].

    Requests are handled one at a time: the interleaving of two handlers at
    an [await] is outside this model. *)

From Stdlib Require Import String Ascii List ZArith QArith Bool Lia.
From Stdlib Require Import DecimalString.
Import ListNotations.
Set Warnings "-register-all".
Local Close Scope Q_scope.
Local Open Scope string_scope.
Local Open Scope list_scope.

(* ===================================================================== *)
(** ** JavaScript values *)
(* ===================================================================== *)

Module Js.

(** A parsed JSON document.  Numbers are exact rationals: every comparison
    the server makes on a number ([!x], [x <= 0], [x >= y]) has the same
    outcome on the rational as on the double it was read from.  An object is
    the list of its own properties, each name occurring once. *)
Inductive Json : Type :=
| JNull
| JBool (b : bool)
| JNum (q : Q)
| JStr (s : string)
| JArr (xs : list Json)
| JObj (fields : list (string * Json)).

(** A JavaScript value: [None] is [undefined]. *)
Definition JsVal : Type := option Json.

Definition undefined : JsVal := None.
Definition null : JsVal := Some JNull.
Definition str (s : string) : JsVal := Some (JStr s).

Definition is_empty (s : string) : bool :=
  match s with EmptyString => true | _ => false end.

(** ToBoolean: [undefined], [null], [false], [0] and the empty string are
    falsy, everything else (arrays and objects included) is truthy. *)
Definition truthy (v : JsVal) : bool :=
  match v with
  | None => false
  | Some JNull => false
  | Some (JBool b) => b
  | Some (JNum q) => negb (Qeq_bool q 0)
  | Some (JStr s) => negb (is_empty s)
  | Some (JArr _) => true
  | Some (JObj _) => true
  end.

(** [a || b] *)
Definition or_else (a b : JsVal) : JsVal := if truthy a then a else b.

Fixpoint lookup (k : string) (fields : list (string * Json)) : JsVal :=
  match fields with
  | [] => None
  | (k', v) :: rest => if String.eqb k k' then Some v else lookup k rest
  end.

(** [o.k] for a base [o] that is neither [undefined] nor [null].  Only
    objects carry the property names the server reads. *)
Definition get (o : Json) (k : string) : JsVal :=
  match o with
  | JObj fields => lookup k fields
  | _ => None
  end.

(** [v?.k] *)
Definition opt_get (v : JsVal) (k : string) : JsVal :=
  match v with
  | None | Some JNull => None
  | Some o => get o k
  end.

(** [a === b].  Primitives are compared by value.  Arrays and objects are
    compared by reference, and the two operands of every [===] in the
    server come from different parses, so they are never the same object. *)
Definition strict_eq (a b : JsVal) : bool :=
  match a, b with
  | None, None => true
  | Some JNull, Some JNull => true
  | Some (JBool x), Some (JBool y) => Bool.eqb x y
  | Some (JNum x), Some (JNum y) => Qeq_bool x y
  | Some (JStr x), Some (JStr y) => String.eqb x y
  | _, _ => false
  end.

(** [v === 'literal'] *)
Definition is_str (v : JsVal) (s : string) : bool := strict_eq v (str s).

(** The folding of letter case that the router applies when it compares a
    request path with a route path (a regular expression with the [i]
    flag): the ASCII letters are folded and no other character is ever
    identified with an ASCII one.  The route paths of the server are
    ASCII. *)
Definition lower_ascii (c : ascii) : ascii :=
  let n := nat_of_ascii c in
  if (65 <=? n)%nat && (n <=? 90)%nat then ascii_of_nat (n + 32) else c.

Fixpoint fold_ascii (s : string) : string :=
  match s with
  | EmptyString => EmptyString
  | String c rest => String (lower_ascii c) (fold_ascii rest)
  end.

(** [s.startsWith(p)] *)
Definition startsWith (s p : string) : bool := String.prefix p s.

(** [s.split('/')] *)
Fixpoint split_slash (s : string) : list string :=
  match s with
  | EmptyString => [EmptyString]
  | String c rest =>
      if Ascii.eqb c "/"%char then EmptyString :: split_slash rest
      else match split_slash rest with
           | [] => [String c EmptyString]
           | seg :: segs => String c seg :: segs
           end
  end.

(** [s.split('/').pop()] *)
Definition last_segment (s : string) : string :=
  List.last (split_slash s) EmptyString.

(** The decimal rendering of an integer, as in a template literal. *)
Definition decimal (z : Z) : string :=
  NilZero.string_of_int (Z.to_int z).

(** An object literal: a property whose value is [undefined] is dropped
    when the object is serialised by [res.json]. *)
Fixpoint own_properties (props : list (string * JsVal)) : list (string * Json) :=
  match props with
  | [] => []
  | (k, None) :: rest => own_properties rest
  | (k, Some v) :: rest => (k, v) :: own_properties rest
  end.

Definition obj (props : list (string * JsVal)) : Json :=
  JObj (own_properties props).

End Js.
Import Js.

(* ===================================================================== *)
(** ** Errors, provider calls and the in-memory storage *)
(* ===================================================================== *)

(** One entry of [error.body._embedded.errors] of an SDK error. *)
Record SubError : Type := {
  code : string;
  message : string;
  path : string
}.

(** What a [throw] carries.  A [TypeError] is raised by the engine (reading
    a property of [undefined], calling something that is not a function);
    an [Error] is built by [new Error(msg)]; a [ProviderError] is thrown by
    the SDK and may carry the provider's error list in its body. *)
Inductive JsError : Type :=
| TypeError (msg : string)
| Error (msg : string)
| ProviderError (msg : string) (errors : option (list SubError)).

(** [error.message] *)
Definition error_message (e : JsError) : string :=
  match e with
  | TypeError msg => msg
  | Error msg => msg
  | ProviderError msg _ => msg
  end.

(** [error.body && error.body._embedded && error.body._embedded.errors] *)
Definition embedded_errors (e : JsError) : option (list SubError) :=
  match e with
  | ProviderError _ errors => errors
  | _ => None
  end.

Inductive Method : Type := GET | POST | DELETE.

(** A call made through the SDK client: the client-credentials grant
    [dwollaClient.auth.client()], or [dwollaClient.get(url)],
    [dwollaClient.post(url, body)], [dwollaClient.delete(url)]. *)
Inductive ProviderCall : Type :=
| AuthClient
| Rest (m : Method) (url : Json) (body : JsVal).

(** The SDK's answer to a REST call: a response with its [Location] header
    and body, or a thrown error. *)
Inductive RestReply : Type :=
| Replied (location : option string) (body : JsVal)
| Rejected (e : JsError).

Record TokenResponse : Type := {
  access_token : string;
  expires_in : Z
}.

(** [new Client({key, secret, environment: 'sandbox'})] *)
Record Client : Type := {
  client_key : JsVal;
  client_secret : JsVal
}.

Record DwollaConfig : Type := {
  key : JsVal;
  secret : JsVal;
  accessToken : option string;
  expiresIn : option Z;
  tokenCreatedAt : option Z
}.

Module Customer.
Record t : Type := {
  id : string;
  url : string;
  firstName : JsVal;
  lastName : JsVal;
  email : JsVal;
  phone : JsVal;
  type : JsVal;
  status : JsVal;
  createdAt : JsVal
}.

(** [customer.status = s] *)
Definition set_status (s : JsVal) (c : t) : t :=
  {| id := id c; url := url c; firstName := firstName c;
     lastName := lastName c; email := email c; phone := phone c;
     type := type c; status := s; createdAt := createdAt c |}.

Definition props (c : t) : list (string * JsVal) :=
  [("id", str (id c)); ("url", str (url c)); ("firstName", firstName c);
   ("lastName", lastName c); ("email", email c); ("phone", phone c);
   ("type", type c); ("status", status c); ("createdAt", createdAt c)].
End Customer.

Module Transfer.
Record t : Type := {
  id : string;
  url : string;
  status : JsVal;
  amount : JsVal;
  created : JsVal;
  sourceFundingSourceUrl : JsVal;
  destinationFundingSourceUrl : JsVal;
  sourceDetails : JsVal;
  destinationDetails : JsVal
}.

(** [transfer.status = s] *)
Definition set_status (s : JsVal) (x : t) : t :=
  {| id := id x; url := url x; status := s; amount := amount x;
     created := created x;
     sourceFundingSourceUrl := sourceFundingSourceUrl x;
     destinationFundingSourceUrl := destinationFundingSourceUrl x;
     sourceDetails := sourceDetails x;
     destinationDetails := destinationDetails x |}.

Definition props (x : t) : list (string * JsVal) :=
  [("id", str (id x)); ("url", str (url x)); ("status", status x);
   ("amount", amount x); ("created", created x);
   ("sourceFundingSourceUrl", sourceFundingSourceUrl x);
   ("destinationFundingSourceUrl", destinationFundingSourceUrl x);
   ("sourceDetails", sourceDetails x);
   ("destinationDetails", destinationDetails x)].
End Transfer.

Module Webhook.
Record t : Type := {
  id : JsVal;
  topic : JsVal;
  resourceId : JsVal;
  timestamp : JsVal;
  _links : JsVal;
  created : JsVal
}.

Definition props (r : t) : list (string * JsVal) :=
  [("id", id r); ("topic", topic r); ("resourceId", resourceId r);
   ("timestamp", timestamp r); ("_links", _links r);
   ("created", created r)].
End Webhook.

(** The module-level state of the server, the calls it has issued to the
    provider (most recent first) and the number of clock readings made. *)
Record World : Type := {
  dwollaConfig : DwollaConfig;
  customersStore : list Customer.t;
  transfersStore : list Transfer.t;
  webhooksStore : list Webhook.t;
  dwollaClient : option Client;
  trace : list ProviderCall;
  ticks : nat
}.

Definition with_config (f : DwollaConfig -> DwollaConfig) (w : World) : World :=
  {| dwollaConfig := f (dwollaConfig w); customersStore := customersStore w;
     transfersStore := transfersStore w; webhooksStore := webhooksStore w;
     dwollaClient := dwollaClient w; trace := trace w; ticks := ticks w |}.

Definition with_customers (f : list Customer.t -> list Customer.t) (w : World) : World :=
  {| dwollaConfig := dwollaConfig w; customersStore := f (customersStore w);
     transfersStore := transfersStore w; webhooksStore := webhooksStore w;
     dwollaClient := dwollaClient w; trace := trace w; ticks := ticks w |}.

Definition with_transfers (f : list Transfer.t -> list Transfer.t) (w : World) : World :=
  {| dwollaConfig := dwollaConfig w; customersStore := customersStore w;
     transfersStore := f (transfersStore w); webhooksStore := webhooksStore w;
     dwollaClient := dwollaClient w; trace := trace w; ticks := ticks w |}.

Definition with_webhooks (f : list Webhook.t -> list Webhook.t) (w : World) : World :=
  {| dwollaConfig := dwollaConfig w; customersStore := customersStore w;
     transfersStore := transfersStore w; webhooksStore := f (webhooksStore w);
     dwollaClient := dwollaClient w; trace := trace w; ticks := ticks w |}.

Definition with_client (c : option Client) (w : World) : World :=
  {| dwollaConfig := dwollaConfig w; customersStore := customersStore w;
     transfersStore := transfersStore w; webhooksStore := webhooksStore w;
     dwollaClient := c; trace := trace w; ticks := ticks w |}.

Definition record_call (c : ProviderCall) (w : World) : World :=
  {| dwollaConfig := dwollaConfig w; customersStore := customersStore w;
     transfersStore := transfersStore w; webhooksStore := webhooksStore w;
     dwollaClient := dwollaClient w; trace := c :: trace w; ticks := ticks w |}.

Definition tick (w : World) : World :=
  {| dwollaConfig := dwollaConfig w; customersStore := customersStore w;
     transfersStore := transfersStore w; webhooksStore := webhooksStore w;
     dwollaClient := dwollaClient w; trace := trace w; ticks := S (ticks w) |}.

(** The state when the process starts. *)
Definition initial_world : World :=
  {| dwollaConfig := {| key := null; secret := null; accessToken := None;
                        expiresIn := None; tokenCreatedAt := None |};
     customersStore := []; transfersStore := []; webhooksStore := [];
     dwollaClient := None; trace := []; ticks := 0 |}.

(* ===================================================================== *)
(** ** The handler monad: state and exceptions *)
(* ===================================================================== *)

Inductive Outcome (A : Type) : Type :=
| Ok (a : A)
| Throw (e : JsError).
Arguments Ok {A} a.
Arguments Throw {A} e.

Definition M (A : Type) : Type := World -> Outcome A * World.

Definition ret {A} (a : A) : M A := fun w => (Ok a, w).

Definition throw {A} (e : JsError) : M A := fun w => (Throw e, w).

Definition bind {A B} (m : M A) (k : A -> M B) : M B :=
  fun w =>
    match m w with
    | (Ok a, w') => k a w'
    | (Throw e, w') => (Throw e, w')
    end.

(** [try { m } catch (e) { h(e) }]: the state changes made before the
    throw are kept. *)
Definition try_catch {A} (m : M A) (h : JsError -> M A) : M A :=
  fun w =>
    match m w with
    | (Ok a, w') => (Ok a, w')
    | (Throw e, w') => h e w'
    end.

Definition read {A} (f : World -> A) : M A := fun w => (Ok (f w), w).

Definition update (f : World -> World) : M unit := fun w => (Ok tt, f w).

Declare Scope js_scope.
Delimit Scope js_scope with js.
Notation "'let*' x ':=' m 'in' k" := (bind m (fun x => k))
  (at level 10, x name, m at level 100, k at level 200) : js_scope.
Notation "m ';;' k" := (bind m (fun _ => k))
  (at level 100, k at level 200, right associativity) : js_scope.
Local Open Scope js_scope.

(** [v.k]: a [TypeError] when [v] is [undefined] or [null]. *)
Definition prop (v : JsVal) (k : string) : M JsVal :=
  match v with
  | None | Some JNull =>
      throw (TypeError ("Cannot read properties of undefined (reading '" ++ k ++ "')"))
  | Some o => ret (get o k)
  end.

(** A method of [String.prototype] applied to [v]. *)
Definition as_string (v : JsVal) (method : string) : M string :=
  match v with
  | None | Some JNull =>
      throw (TypeError ("Cannot read properties of undefined (reading '" ++ method ++ "')"))
  | Some (JStr s) => ret s
  | Some _ => throw (TypeError (method ++ " is not a function"))
  end.

(** A method of [Array.prototype] applied to [v]. *)
Definition as_array (v : JsVal) (method : string) : M (list Json) :=
  match v with
  | None | Some JNull =>
      throw (TypeError ("Cannot read properties of undefined (reading '" ++ method ++ "')"))
  | Some (JArr xs) => ret xs
  | Some _ => throw (TypeError (method ++ " is not a function"))
  end.

(** [xs.some(f)]: stops at the first element on which [f] is true. *)
Fixpoint someM {A} (f : A -> M bool) (xs : list A) : M bool :=
  match xs with
  | [] => ret false
  | x :: rest =>
      let* b := f x in
      if b then ret true else someM f rest
  end.

(** [xs.filter(f)] *)
Fixpoint filterM {A} (f : A -> M bool) (xs : list A) : M (list A) :=
  match xs with
  | [] => ret []
  | x :: rest =>
      let* b := f x in
      let* kept := filterM f rest in
      ret (if b then x :: kept else kept)
  end.

(** [xs.map(f)] *)
Fixpoint mapM {A B} (f : A -> M B) (xs : list A) : M (list B) :=
  match xs with
  | [] => ret []
  | x :: rest =>
      let* y := f x in
      let* ys := mapM f rest in
      ret (y :: ys)
  end.

(** An HTTP response sent with [res.status(n).json(body)]. *)
Record Response : Type := {
  http_status : nat;
  json : Json
}.

Definition respond (n : nat) (body : Json) : Response :=
  {| http_status := n; json := body |}.

(** [res.status(n).json({ error: msg })] *)
Definition error_response (n : nat) (msg : string) : Response :=
  respond n (obj [("error", str msg)]).

(* ===================================================================== *)
(** ** The route table *)
(* ===================================================================== *)

Module Router.

(** A segment of a route path: a literal, or a named parameter [:name]. *)
Inductive Segment : Type :=
| Lit (s : string)
| Param (name : string).

(** The handlers, named after the routes they are registered for. *)
Inductive Route : Type :=
| PostConfig | GetConfigStatus
| PostCustomers | GetCustomers | GetCustomer | PostVerify
| PostFundingSource | GetFundingSources | PostIavToken
| GetMe | GetMeFundingSources | GetMeBalance
| PostTransfers | GetTransfers | GetTransfer
| PostWebhooks | GetWebhooks | DeleteWebhooks
| GetEligibleCustomers.

(** The calls [app.get], [app.post] and [app.delete] of the file, in the
    order in which they are made. *)
Definition routes : list (Method * list Segment * Route) :=
  [ (POST, [Lit "api"; Lit "config"], PostConfig);
    (GET, [Lit "api"; Lit "config"; Lit "status"], GetConfigStatus);
    (POST, [Lit "api"; Lit "customers"], PostCustomers);
    (GET, [Lit "api"; Lit "customers"], GetCustomers);
    (GET, [Lit "api"; Lit "customers"; Param "id"], GetCustomer);
    (POST, [Lit "api"; Lit "customers"; Param "id"; Lit "verify"], PostVerify);
    (POST, [Lit "api"; Lit "customers"; Param "id"; Lit "funding-sources"], PostFundingSource);
    (GET, [Lit "api"; Lit "customers"; Param "id"; Lit "funding-sources"], GetFundingSources);
    (POST, [Lit "api"; Lit "customers"; Param "id"; Lit "iav-token"], PostIavToken);
    (GET, [Lit "api"; Lit "me"], GetMe);
    (GET, [Lit "api"; Lit "me"; Lit "funding-sources"], GetMeFundingSources);
    (GET, [Lit "api"; Lit "me"; Lit "balance"], GetMeBalance);
    (POST, [Lit "api"; Lit "transfers"], PostTransfers);
    (GET, [Lit "api"; Lit "transfers"], GetTransfers);
    (GET, [Lit "api"; Lit "transfers"; Param "id"], GetTransfer);
    (POST, [Lit "api"; Lit "webhooks"], PostWebhooks);
    (GET, [Lit "api"; Lit "webhooks"], GetWebhooks);
    (DELETE, [Lit "api"; Lit "webhooks"], DeleteWebhooks);
    (GET, [Lit "api"; Lit "customers"; Lit "eligible"], GetEligibleCustomers) ].

Definition same_method (a b : Method) : bool :=
  match a, b with
  | GET, GET | POST, POST | DELETE, DELETE => true
  | _, _ => false
  end.

(** The segments of a request path: the text between the slashes, without
    the empty segment before the first slash and without an empty last one
    (a trailing slash is accepted). *)
Definition path_segments (path : string) : list string :=
  match split_slash path with
  | [] => []
  | _ :: segs =>
      match rev segs with
      | EmptyString :: front => rev front
      | _ => segs
      end
  end.

(** A route path against the segments of a request path: a literal matches
    the same text whatever the letter case, a parameter matches any
    non-empty segment and binds it. *)
Fixpoint match_path (pattern : list Segment) (segs : list string)
  : option (list (string * string)) :=
  match pattern, segs with
  | [], [] => Some []
  | Lit s :: pattern', seg :: segs' =>
      if String.eqb (fold_ascii s) (fold_ascii seg)
      then match_path pattern' segs' else None
  | Param name :: pattern', seg :: segs' =>
      if is_empty seg then None
      else match match_path pattern' segs' with
           | Some params => Some ((name, seg) :: params)
           | None => None
           end
  | _, _ => None
  end.

(** The router: the first registered route whose method and path match
    the request handles it. *)
Fixpoint first_match (table : list (Method * list Segment * Route))
  (m : Method) (segs : list string) : option (Route * list (string * string)) :=
  match table with
  | [] => None
  | (m', pattern, route) :: rest =>
      if same_method m' m then
        match match_path pattern segs with
        | Some params => Some (route, params)
        | None => first_match rest m segs
        end
      else first_match rest m segs
  end.

Definition dispatch (m : Method) (path : string)
  : option (Route * list (string * string)) :=
  first_match routes m (path_segments path).

(** [req.params.name] *)
Fixpoint param (name : string) (params : list (string * string)) : string :=
  match params with
  | [] => EmptyString
  | (k, v) :: rest => if String.eqb k name then v else param name rest
  end.

End Router.

(* ===================================================================== *)
(** ** Concrete environments and states used in the examples *)
(* ===================================================================== *)

Module Sample.

(** A clock that advances by one second at every reading. *)
Definition clock (n : nat) : Z := (1700000000000 + 1000 * Z.of_nat n)%Z.

Definition toISOString (ms : Z) : string := "2023-11-14T22:13:20.000Z".

(** A rendering of the values that occur in the examples. *)
Definition ToString (j : Json) : string :=
  match j with
  | JStr s => s
  | JNull => "null"
  | JBool true => "true"
  | JBool false => "false"
  | JNum q => decimal (Qnum q / Zpos (Qden q))
  | JArr _ => ""
  | JObj _ => "[object Object]"
  end.

Definition StringToNumber (s : string) : option Q := None.

(** [String.prototype.toLowerCase] on the strings of the examples, which
    are ASCII. *)
Definition toLowerCase (s : string) : string := fold_ascii s.

Definition auth_accepts (history : list ProviderCall) (c : Client) : option TokenResponse :=
  Some {| access_token := "token-1"; expires_in := 3600 |}.

Definition auth_rejects (history : list ProviderCall) (c : Client) : option TokenResponse :=
  None.

(** A provider that knows no resource. *)
Definition provider_empty (history : list ProviderCall) (m : Method) (url : Json)
  (body : JsVal) : RestReply :=
  Rejected (ProviderError "NotFound" None).

Definition alice : Customer.t :=
  {| Customer.id := "c1";
     Customer.url := "https://api-sandbox.dwolla.com/customers/c1";
     Customer.firstName := str "Alice";
     Customer.lastName := str "Archer";
     Customer.email := str "Alice@Example.com";
     Customer.phone := str "5551234567";
     Customer.type := str "personal";
     Customer.status := str "unverified";
     Customer.createdAt := str "2023-11-14T22:13:20.000Z" |}.

(** The state after a successful POST /api/config, with a token obtained
    at the first instant of [clock]. *)
Definition configured : World :=
  {| dwollaConfig := {| key := str "key"; secret := str "secret";
                        accessToken := Some "token-0";
                        expiresIn := Some 3600%Z;
                        tokenCreatedAt := Some 1700000000000%Z |};
     customersStore := []; transfersStore := []; webhooksStore := [];
     dwollaClient := Some {| client_key := str "key"; client_secret := str "secret" |};
     trace := [AuthClient]; ticks := 2 |}.

Definition with_alice : World := with_customers (fun _ => [alice]) configured.

(** The same registry, with a token obtained some 10000 seconds before the
    first instant of [clock]: it has expired. *)
Definition stale_with_alice : World :=
  with_config (fun cfg => {| key := key cfg; secret := secret cfg;
                             accessToken := accessToken cfg;
                             expiresIn := expiresIn cfg;
                             tokenCreatedAt := Some 1699990000000%Z |})
    with_alice.


(** A transfer event as the provider sends it. *)
Definition transfer_completed_event : Json :=
  JObj [("id", JStr "evt-1");
        ("topic", JStr "transfer_completed");
        ("resourceId", JStr "t1");
        ("timestamp", JStr "2023-11-14T22:13:20.000Z");
        ("_links",
         JObj [("resource",
                JObj [("href", JStr "https://api-sandbox.dwolla.com/transfers/t1")])])].

(** A body whose topic is a number. *)
Definition numeric_topic_event : Json :=
  JObj [("topic", JNum 7); ("_links", JObj [])].


Definition old_record (n : nat) : Webhook.t :=
  {| Webhook.id := str ("evt-old-" ++ decimal (Z.of_nat n));
     Webhook.topic := str "customer_created";
     Webhook.resourceId := None;
     Webhook.timestamp := str "2023-11-14T22:13:20.000Z";
     Webhook._links := None;
     Webhook.created := str "2023-11-14T22:13:20.000Z" |}.

(** A state whose webhook store is full: it holds 100 records. *)
Definition full_webhooks : World :=
  with_webhooks (fun _ => map old_record (seq 0 100)) configured.


Definition transfer_record (id : string) (status : string) : Transfer.t :=
  {| Transfer.id := id;
     Transfer.url := "https://api-sandbox.dwolla.com/transfers/" ++ id;
     Transfer.status := str status;
     Transfer.amount := Some (JObj [("currency", JStr "USD"); ("value", JStr "10.00")]);
     Transfer.created := str "2023-11-14T22:13:20.000Z";
     Transfer.sourceFundingSourceUrl := str "https://api-sandbox.dwolla.com/funding-sources/src";
     Transfer.destinationFundingSourceUrl := str "https://api-sandbox.dwolla.com/funding-sources/dst";
     Transfer.sourceDetails := None;
     Transfer.destinationDetails := None |}.

(** A state with two pending transfers, [t0] and [t1]. *)
Definition with_transfers_pending : World :=
  with_transfers (fun _ => [transfer_record "t0" "pending"; transfer_record "t1" "pending"])
    with_alice.


Definition url_source : string := "https://api-sandbox.dwolla.com/funding-sources/src".

(** An unverified funding source that names no customer. *)
Definition url_unowned : string := "https://api-sandbox.dwolla.com/funding-sources/dst".

(** An unverified funding source of the unverified customer [alice]. *)
Definition url_owned : string := "https://api-sandbox.dwolla.com/funding-sources/dst-alice".

Definition url_transfer : string := "https://api-sandbox.dwolla.com/transfers/t9".

Definition funding_source (url status : string) (links : list (string * Json)) : JsVal :=
  Some (JObj [("status", JStr status);
              ("name", JStr "Checking");
              ("type", JStr "bank");
              ("_links", JObj (("self", JObj [("href", JStr url)]) :: links))]).

(** A provider with a verified source, the two unverified destinations
    above, the customer [alice] and one transfer. *)
Definition provider_transfers (history : list ProviderCall) (m : Method) (url : Json)
  (body : JsVal) : RestReply :=
  match m, url with
  | GET, JStr u =>
      if String.eqb u url_source then Replied None (funding_source u "verified" [])
      else if String.eqb u url_unowned then Replied None (funding_source u "unverified" [])
      else if String.eqb u url_owned then
        Replied None
          (funding_source u "unverified"
             [("customer", JObj [("href", JStr (Customer.url alice))])])
      else if String.eqb u (Customer.url alice) then
        Replied None (Some (JObj [("status", JStr "unverified")]))
      else if String.eqb u url_transfer then
        Replied None
          (Some (JObj [("status", JStr "pending");
                       ("amount", JObj [("currency", JStr "USD"); ("value", JStr "10")]);
                       ("created", JStr "2023-11-14T22:13:20.000Z")]))
      else Rejected (ProviderError "NotFound" None)
  | POST, JStr "transfers" => Replied (Some url_transfer) None
  | _, _ => Rejected (ProviderError "NotFound" None)
  end.


Definition url_bob : string := "https://api-sandbox.dwolla.com/customers/c2".

Definition provider_customer (id status : string) : Json :=
  JObj [("firstName", JStr "First"); ("lastName", JStr "Last");
        ("email", JStr (id ++ "@example.com"));
        ("status", JStr status);
        ("_links",
         JObj [("self",
                JObj [("href", JStr ("https://api-sandbox.dwolla.com/customers/" ++ id))])])].

(** A provider with two customers: [c1] is unverified, [c2] is verified
    and has one verified funding source and one removed one. *)
Definition provider_customers (history : list ProviderCall) (m : Method) (url : Json)
  (body : JsVal) : RestReply :=
  match m, url with
  | GET, JStr u =>
      if String.eqb u "customers?limit=200" then
        Replied None
          (Some (JObj [("_embedded",
                        JObj [("customers",
                               JArr [provider_customer "c1" "unverified";
                                     provider_customer "c2" "verified"])])]))
      else if String.eqb u (url_bob ++ "/funding-sources") then
        Replied None
          (Some (JObj [("_embedded",
                        JObj [("funding-sources",
                               JArr [JObj [("status", JStr "verified");
                                           ("name", JStr "Checking");
                                           ("_links",
                                            JObj [("self",
                                                   JObj [("href", JStr (url_bob ++ "/fs/f1"))])])];
                                     JObj [("status", JStr "verified");
                                           ("removed", JBool true);
                                           ("name", JStr "Closed");
                                           ("_links",
                                            JObj [("self",
                                                   JObj [("href", JStr (url_bob ++ "/fs/f2"))])])]])])]))
      else Rejected (ProviderError "NotFound" None)
  | _, _ => Rejected (ProviderError "NotFound" None)
  end.


(** An event of the given topic about the customer [alice]; it carries no
    timestamp. *)
Definition customer_event (topic : string) : Json :=
  JObj [("id", JStr "evt-2");
        ("topic", JStr topic);
        ("_links", JObj [("customer", JObj [("href", JStr (Customer.url alice))])])].

(** A provider that accepts a new customer and names it [c2]. *)
Definition provider_onboarding (history : list ProviderCall) (m : Method) (url : Json)
  (body : JsVal) : RestReply :=
  match m, url with
  | POST, JStr "customers" => Replied (Some url_bob) None
  | GET, JStr u =>
      if String.eqb u url_bob then
        Replied None
          (Some (JObj [("firstName", JStr "Bob"); ("lastName", JStr "Baker");
                       ("email", JStr "bob@example.com");
                       ("type", JStr "personal");
                       ("status", JStr "unverified");
                       ("created", JStr "2023-11-14T22:13:20.000Z")]))
      else Rejected (ProviderError "NotFound" None)
  | _, _ => Rejected (ProviderError "NotFound" None)
  end.


(** A record as GET /api/customers stores it for a customer that the
    provider lists without an email. *)
Definition imported : Customer.t :=
  {| Customer.id := "c0";
     Customer.url := "https://api-sandbox.dwolla.com/customers/c0";
     Customer.firstName := str "Carol";
     Customer.lastName := str "Cook";
     Customer.email := undefined;
     Customer.phone := null;
     Customer.type := str "personal";
     Customer.status := str "unverified";
     Customer.createdAt := str "2023-11-14T22:13:20.000Z" |}.

Definition with_imported : World := with_customers (fun _ => [alice; imported]) configured.

End Sample.

(* ===================================================================== *)
(** ** The server *)
(* ===================================================================== *)

Section Server.

(** The value of the [n]-th reading of the clock ([Date.now()],
    [new Date()]), in milliseconds. *)
Variable clock : nat -> Z.

(** [new Date(ms).toISOString()] *)
Variable toISOString : Z -> string.

(** The provider's answer to the client-credentials grant, given the calls
    made so far: [None] when the SDK throws. *)
Variable auth : list ProviderCall -> Client -> option TokenResponse.

(** The provider's answer to a REST call, given the calls made so far. *)
Variable provider : list ProviderCall -> Method -> Json -> JsVal -> RestReply.

(** The abstract operation ToString of the language (template literals,
    [x.toString()]) and StringToNumber ([None] is NaN). *)
Variable ToString : Json -> string.
Variable StringToNumber : string -> option Q.

(** [String.prototype.toLowerCase]: the lower-casing of the language, on
    every cased letter of Unicode. *)
Variable toLowerCase : string -> string.

(** [Date.now()] *)
Definition Date_now : M Z :=
  fun w => (Ok (clock (ticks w)), tick w).

(** [new Date().toISOString()] *)
Definition Date_toISOString : M string :=
  let* now := Date_now in ret (toISOString now).

(** ToNumber: [None] is NaN. *)
Definition ToNumber (v : JsVal) : option Q :=
  match v with
  | None => None
  | Some JNull => Some 0%Q
  | Some (JBool b) => Some (if b then 1%Q else 0%Q)
  | Some (JNum q) => Some q
  | Some (JStr s) => StringToNumber s
  | Some (JArr xs) => StringToNumber (ToString (JArr xs))
  | Some (JObj fields) => StringToNumber (ToString (JObj fields))
  end.

(** [v <= 0]: false when [v] converts to NaN. *)
Definition le_zero (v : JsVal) : bool :=
  match ToNumber v with
  | Some q => Qle_bool q 0
  | None => false
  end.

(* --------------------------------------------------------------------- *)
(** *** Token management *)
(* --------------------------------------------------------------------- *)

(** [initializeDwollaClient(key, secret)] *)
Definition initializeDwollaClient (k s : JsVal) : M unit :=
  update (with_client (Some {| client_key := k; client_secret := s |})).

(** [!dwollaConfig.accessToken] is false *)
Definition token_held (cfg : DwollaConfig) : bool :=
  match accessToken cfg with
  | Some t => negb (is_empty t)
  | None => false
  end.

(** [null] converts to [0] in arithmetic. *)
Definition num (z : option Z) : Z :=
  match z with Some n => n | None => 0%Z end.

(** [(now - dwollaConfig.tokenCreatedAt) / 1000] *)
Definition tokenAge (now : Z) (cfg : DwollaConfig) : Q :=
  (inject_Z (now - num (tokenCreatedAt cfg)) / inject_Z 1000)%Q.

(** [!dwollaConfig.accessToken || tokenAge >= (dwollaConfig.expiresIn - 60)] *)
Definition isExpired (now : Z) (cfg : DwollaConfig) : bool :=
  negb (token_held cfg)
  || Qle_bool (inject_Z (num (expiresIn cfg) - 60)) (tokenAge now cfg).

(** [await dwollaClient.auth.client()] *)
Definition auth_client : M TokenResponse :=
  fun w =>
    match dwollaClient w with
    | None => (Throw (TypeError "Cannot read properties of null (reading 'auth')"), w)
    | Some c =>
        match auth (trace w) c with
        | Some response => (Ok response, record_call AuthClient w)
        | None => (Throw (ProviderError "invalid_client" None), record_call AuthClient w)
        end
    end.

Definition store_token (response : TokenResponse) (created : Z) (cfg : DwollaConfig)
  : DwollaConfig :=
  {| key := key cfg; secret := secret cfg;
     accessToken := Some (access_token response);
     expiresIn := Some (expires_in response);
     tokenCreatedAt := Some created |}.

Definition getValidAccessToken : M (option string) :=
  let* cfg := read dwollaConfig in
  if negb (truthy (key cfg)) || negb (truthy (secret cfg)) then
    throw (Error "Dwolla credentials not configured. Please set up API key and secret.")
  else
    let* now := Date_now in
    (if isExpired now cfg then
       try_catch
         (let* response := auth_client in
          let* created := Date_now in
          update (with_config (store_token response created)))
         (fun _ =>
            throw (Error "Failed to obtain Dwolla access token. Check your API credentials."))
     else ret tt) ;;
    read (fun w => accessToken (dwollaConfig w)).

(** [dwollaClient.get(url)], [dwollaClient.post(url, body)],
    [dwollaClient.delete(url)] *)
Definition client_call (m : Method) (url : Json) (body : JsVal) : M (option string * JsVal) :=
  fun w =>
    match dwollaClient w with
    | None => (Throw (TypeError "Cannot read properties of null"), w)
    | Some _ =>
        let sent := match m with POST => body | _ => undefined end in
        match provider (trace w) m url sent with
        | Replied location b => (Ok (location, b), record_call (Rest m url sent) w)
        | Rejected e => (Throw e, record_call (Rest m url sent) w)
        end
    end.

(** [dwollaRequest(method, url, body = null)]: the result is the response,
    as its [Location] header and its body. *)
Definition dwollaRequest (m : Method) (url : Json) (body : JsVal)
  : M (option string * JsVal) :=
  getValidAccessToken ;;
  try_catch (client_call m url body) (fun error => throw error).

(* --------------------------------------------------------------------- *)
(** *** Small helpers shared by the handlers *)
(* --------------------------------------------------------------------- *)

(** The [Location] header as passed on to the next call: [null] when the
    header is absent. *)
Definition header_value (location : option string) : JsVal :=
  match location with
  | Some s => str s
  | None => null
  end.

Definition url_arg (v : JsVal) : Json :=
  match v with
  | Some j => j
  | None => JNull
  end.

(** [errors.map(e => e.message).join('. ')] *)
Definition joined_messages (errors : list SubError) : string :=
  String.concat ". " (map message errors).

(** [customersStore.find(c => c.id === id)] *)
Definition find_customer (id : string) (store : list Customer.t) : option Customer.t :=
  find (fun c => String.eqb (Customer.id c) id) store.

(** The effect of assigning to a field of the object that [find] returned:
    the first element satisfying [p] is replaced by its image under [f]. *)
Fixpoint modify_first {A} (p : A -> bool) (f : A -> A) (xs : list A) : list A :=
  match xs with
  | [] => []
  | x :: rest => if p x then f x :: rest else x :: modify_first p f rest
  end.

(** The shape in which a funding source is returned to the dashboard. *)
Definition fundingSourceView (with_created : bool) (fs : Json) : M Json :=
  let* links := prop (Some fs) "_links" in
  let* self := prop links "self" in
  let* href := prop self "href" in
  let* href_string := as_string href "split" in
  ret (obj ([("id", str (last_segment href_string));
             ("url", href);
             ("name", get fs "name");
             ("type", get fs "type");
             ("bankAccountType", get fs "bankAccountType");
             ("status", get fs "status");
             ("bankName", get fs "bankName")]
            ++ if with_created then [("created", get fs "created")] else [])).

(** [fs => !fs.removed] *)
Definition not_removed (fs : Json) : M bool :=
  let* removed := prop (Some fs) "removed" in
  ret (negb (truthy removed)).

(* --------------------------------------------------------------------- *)
(** *** POST /api/config *)
(* --------------------------------------------------------------------- *)

Definition set_credentials (k s : JsVal) (cfg : DwollaConfig) : DwollaConfig :=
  {| key := k; secret := s; accessToken := accessToken cfg;
     expiresIn := expiresIn cfg; tokenCreatedAt := tokenCreatedAt cfg |}.

Definition number_or_null (z : option Z) : JsVal :=
  match z with
  | Some n => Some (JNum (inject_Z n))
  | None => null
  end.

Definition post_config (k s : JsVal) : M Response :=
  try_catch
    (if negb (truthy k) || negb (truthy s) then
       ret (error_response 400 "Both API key and secret are required")
     else
       update (with_config (set_credentials k s)) ;;
       initializeDwollaClient k s ;;
       getValidAccessToken ;;
       update (with_customers (fun _ => [])) ;;
       update (with_transfers (fun _ => [])) ;;
       update (with_webhooks (fun _ => [])) ;;
       let* cfg := read dwollaConfig in
       ret (respond 200
              (obj [("success", Some (JBool true));
                    ("message", str "Dwolla credentials configured successfully");
                    ("tokenExpiresIn", number_or_null (expiresIn cfg))])))
    (fun error =>
       ret (error_response 400
              (if is_empty (error_message error)
               then "Failed to configure Dwolla credentials"
               else error_message error))).

(* --------------------------------------------------------------------- *)
(** *** POST /api/customers *)
(* --------------------------------------------------------------------- *)

(** [c => c.email.toLowerCase() === email.toLowerCase()] *)
Definition same_email (email : JsVal) (c : Customer.t) : M bool :=
  let* stored := as_string (Customer.email c) "toLowerCase" in
  let* given := as_string email "toLowerCase" in
  ret (String.eqb (toLowerCase stored) (toLowerCase given)).

(** [c => c.phone === phone] *)
Definition same_phone (phone : JsVal) (c : Customer.t) : M bool :=
  ret (strict_eq (Customer.phone c) phone).

Definition customerBody (firstName lastName email phone type businessName : JsVal) : Json :=
  obj ([("firstName", firstName); ("lastName", lastName); ("email", email)]
       ++ (if truthy phone then [("phone", phone)] else [])
       ++ (if is_str type "business" then
             [("type", str "business");
              ("businessName",
               or_else businessName
                 (str (ToString (url_arg firstName) ++ " "
                       ++ ToString (url_arg lastName) ++ " Business")));
              ("businessType", str "soleProprietorship")]
           else [])).

Definition post_customers (firstName lastName email phone type businessName : JsVal)
  : M Response :=
  try_catch
    (if negb (truthy firstName) || negb (truthy lastName) || negb (truthy email) then
       ret (error_response 400 "First name, last name, and email are required")
     else
       let* store := read customersStore in
       let* emailExists := someM (same_email email) store in
       if emailExists then
         ret (error_response 400 "A customer with this email already exists")
       else
         let* phoneExists :=
           (if truthy phone then someM (same_phone phone) store else ret false) in
         if phoneExists then
           ret (error_response 400 "A customer with this phone number already exists")
         else
           let* response :=
             dwollaRequest POST (JStr "customers")
               (Some (customerBody firstName lastName email phone type businessName)) in
           let customerUrl := header_value (fst response) in
           let* customerDetails := dwollaRequest GET (url_arg customerUrl) null in
           let customer := snd customerDetails in
           let* customerUrl_string := as_string customerUrl "split" in
           let customerId := last_segment customerUrl_string in
           let* first := prop customer "firstName" in
           let* last := prop customer "lastName" in
           let* mail := prop customer "email" in
           let* kind := prop customer "type" in
           let* st := prop customer "status" in
           let* created := prop customer "created" in
           let customerRecord :=
             {| Customer.id := customerId;
                Customer.url := customerUrl_string;
                Customer.firstName := first;
                Customer.lastName := last;
                Customer.email := mail;
                Customer.phone := or_else phone null;
                Customer.type := or_else kind (str "personal");
                Customer.status := st;
                Customer.createdAt := created |} in
           update (with_customers (fun store => store ++ [customerRecord])) ;;
           ret (respond 201
                  (obj [("success", Some (JBool true));
                        ("customer", Some (obj (Customer.props customerRecord)))])))
    (fun error =>
       let errorMessage :=
         match embedded_errors error with
         | Some errors => joined_messages errors
         | None =>
             if is_empty (error_message error) then "Failed to create customer"
             else error_message error
         end in
       ret (error_response 400 errorMessage)).

(* --------------------------------------------------------------------- *)
(** *** The routes under /api/customers/:id *)
(* --------------------------------------------------------------------- *)

Definition has_id (id : string) (c : Customer.t) : bool :=
  String.eqb (Customer.id c) id.

Definition not_found : Response := error_response 404 "Customer not found".

(** GET /api/customers/:id *)
Definition get_customer (id : string) : M Response :=
  try_catch
    (let* store := read customersStore in
     match find_customer id store with
     | None => ret not_found
     | Some localCustomer =>
         let* response := dwollaRequest GET (JStr (Customer.url localCustomer)) null in
         let customer := snd response in
         let* st := prop customer "status" in
         update (with_customers (modify_first (has_id id) (Customer.set_status st))) ;;
         ret (respond 200
                (obj [("customer",
                       Some (obj (Customer.props (Customer.set_status st localCustomer)
                                  ++ [("dwollaData", customer)])))]))
     end)
    (fun _ => ret (error_response 500 "Failed to get customer details")).

(** POST /api/customers/:id/verify *)
Definition post_verify (id : string) (ssn dateOfBirth address1 city state postalCode : JsVal)
  : M Response :=
  try_catch
    (let* store := read customersStore in
     match find_customer id store with
     | None => ret not_found
     | Some localCustomer =>
         let verificationBody :=
           obj [("firstName", Customer.firstName localCustomer);
                ("lastName", Customer.lastName localCustomer);
                ("email", Customer.email localCustomer);
                ("type", str "personal");
                ("address1", or_else address1 (str "123 Main St"));
                ("city", or_else city (str "San Francisco"));
                ("state", or_else state (str "CA"));
                ("postalCode", or_else postalCode (str "94105"));
                ("dateOfBirth", or_else dateOfBirth (str "1990-01-01"));
                ("ssn", or_else ssn (str "1234"))] in
         dwollaRequest POST (JStr (Customer.url localCustomer)) (Some verificationBody) ;;
         let* updatedResponse := dwollaRequest GET (JStr (Customer.url localCustomer)) null in
         let updatedCustomer := snd updatedResponse in
         let* st := prop updatedCustomer "status" in
         update (with_customers (modify_first (has_id id) (Customer.set_status st))) ;;
         ret (respond 200
                (obj [("success", Some (JBool true));
                      ("message",
                       str ("Verification submitted. Customer status: "
                            ++ match st with
                               | Some j => ToString j
                               | None => "undefined"
                               end));
                      ("customer",
                       Some (obj (Customer.props (Customer.set_status st localCustomer))))]))
     end)
    (fun error =>
       ret (error_response 400
              match embedded_errors error with
              | Some errors => joined_messages errors
              | None => "Failed to verify customer"
              end)).

(** POST /api/customers/:id/funding-sources *)
Definition post_funding_source (id : string) (name routingNumber accountNumber accountType : JsVal)
  : M Response :=
  try_catch
    (let* store := read customersStore in
     match find_customer id store with
     | None => ret not_found
     | Some localCustomer =>
         if negb (truthy name) then
           ret (error_response 400 "Account nickname (name) is required")
         else
           let fundingSourceBody :=
             obj [("routingNumber", or_else routingNumber (str "222222226"));
                  ("accountNumber", or_else accountNumber (str "123456789"));
                  ("bankAccountType", or_else accountType (str "checking"));
                  ("name", name)] in
           let* response :=
             dwollaRequest POST (JStr (Customer.url localCustomer ++ "/funding-sources"))
               (Some fundingSourceBody) in
           let fundingSourceUrl := header_value (fst response) in
           let* fsResponse := dwollaRequest GET (url_arg fundingSourceUrl) null in
           let fundingSource := snd fsResponse in
           let* url_string := as_string fundingSourceUrl "split" in
           let* name' := prop fundingSource "name" in
           let* type' := prop fundingSource "type" in
           let* bankAccountType' := prop fundingSource "bankAccountType" in
           let* status' := prop fundingSource "status" in
           let* bankName' := prop fundingSource "bankName" in
           ret (respond 201
                  (obj [("success", Some (JBool true));
                        ("fundingSource",
                         Some (obj [("id", str (last_segment url_string));
                                    ("url", fundingSourceUrl);
                                    ("name", name');
                                    ("type", type');
                                    ("bankAccountType", bankAccountType');
                                    ("status", status');
                                    ("bankName", bankName')]))]))
     end)
    (fun error =>
       ret (error_response 400
              match embedded_errors error with
              | Some errors => joined_messages errors
              | None => "Failed to add funding source"
              end)).

(** [response.body._embedded['funding-sources'].filter(fs => !fs.removed)] *)
Definition listed_funding_sources (body : JsVal) : M (list Json) :=
  let* embedded := prop body "_embedded" in
  let* sources := prop embedded "funding-sources" in
  let* all := as_array sources "filter" in
  filterM not_removed all.

(** GET /api/customers/:id/funding-sources *)
Definition get_funding_sources (id : string) : M Response :=
  try_catch
    (let* store := read customersStore in
     match find_customer id store with
     | None => ret not_found
     | Some localCustomer =>
         let* response :=
           dwollaRequest GET (JStr (Customer.url localCustomer ++ "/funding-sources")) null in
         let* kept := listed_funding_sources (snd response) in
         let* fundingSources := mapM (fundingSourceView true) kept in
         ret (respond 200 (obj [("fundingSources", Some (JArr fundingSources))]))
     end)
    (fun _ => ret (error_response 500 "Failed to list funding sources")).

(** POST /api/customers/:id/iav-token *)
Definition post_iav_token (id : string) : M Response :=
  try_catch
    (let* store := read customersStore in
     match find_customer id store with
     | None => ret not_found
     | Some localCustomer =>
         let* response :=
           dwollaRequest POST (JStr (Customer.url localCustomer ++ "/iav-token")) null in
         let* token := prop (snd response) "token" in
         ret (respond 200 (obj [("token", token)]))
     end)
    (fun _ => ret (error_response 500 "Failed to create IAV token")).

(* --------------------------------------------------------------------- *)
(** *** POST /api/transfers *)
(* --------------------------------------------------------------------- *)

(** The double-quote character. *)
Definition dquote : string := String (ascii_of_nat 34) EmptyString.

(** The validation of the source funding source: [Some r] when the handler
    returns the response [r] from inside the block, [None] when control
    falls through to the next statement. *)
Definition check_source (source : JsVal) : M (option Response) :=
  try_catch
    (let* sourceFs := dwollaRequest GET (url_arg source) null in
     let* st := prop (snd sourceFs) "status" in
     if negb (is_str st "verified") then
       ret (Some (error_response 400
         "Source funding source is not verified. Only verified funding sources can send transfers."))
     else ret None)
    (fun _ => ret (Some (error_response 400 "Invalid source funding source"))).

(** The check of the customer owning the destination funding source. *)
Definition check_owner (customerUrl : JsVal) : M (option Response) :=
  try_catch
    (let* customerResponse := dwollaRequest GET (url_arg customerUrl) null in
     let* st := prop (snd customerResponse) "status" in
     if negb (is_str st "verified") then
       ret (Some (error_response 400
         "Cannot send to unverified funding source - the customer who owns it is not verified."))
     else ret None)
    (fun _ =>
       ret (Some (error_response 400
         "Could not verify the customer who owns the destination funding source."))).

(** The validation of the destination funding source. *)
Definition check_destination (destination allowUnverified : JsVal) : M (option Response) :=
  try_catch
    (let* destFs := dwollaRequest GET (url_arg destination) null in
     let* destFsStatus := prop (snd destFs) "status" in
     if negb (is_str destFsStatus "verified") then
       if negb (truthy allowUnverified) then
         ret (Some (error_response 400
           ("Destination funding source is not verified. Enable " ++ dquote
            ++ "Allow unverified" ++ dquote
            ++ " to send to unverified funding sources.")))
       else
         let* links := prop (snd destFs) "_links" in
         let customerUrl := opt_get (opt_get links "customer") "href" in
         if truthy customerUrl then check_owner customerUrl else ret None
     else ret None)
    (fun _ => ret (Some (error_response 400 "Invalid destination funding source"))).

Definition transferBody (source destination amount currency : JsVal) : Json :=
  obj [("_links",
        Some (obj [("source", Some (obj [("href", source)]));
                   ("destination", Some (obj [("href", destination)]))]));
       ("amount",
        Some (obj [("currency", or_else currency (str "USD"));
                   ("value", str (ToString (url_arg amount)))]))].

(** The friendly text for one provider error. *)
Definition friendly (e : SubError) : string :=
  if String.eqb (code e) "InsufficientFunds" then
    "Insufficient funds in source account."
  else if String.eqb (code e) "Invalid" && String.eqb (path e) "/_links/source/href" then
    "Source funding source is not verified."
  else if String.eqb (code e) "Invalid" && String.eqb (path e) "/_links/destination/href" then
    "Destination funding source is not verified."
  else message e.

(** The part of the handler after the two validations: submit the
    transfer, follow the [Location] header, store the record. *)
Definition submit_transfer (source destination amount currency : JsVal) : M Response :=
  let* response :=
    dwollaRequest POST (JStr "transfers")
      (Some (transferBody source destination amount currency)) in
  let transferUrl := header_value (fst response) in
  let* transferResponse := dwollaRequest GET (url_arg transferUrl) null in
  let transfer := snd transferResponse in
  let* url_string := as_string transferUrl "split" in
  let* st := prop transfer "status" in
  let* amt := prop transfer "amount" in
  let* created := prop transfer "created" in
  let transferRecord :=
    {| Transfer.id := last_segment url_string;
       Transfer.url := url_string;
       Transfer.status := st;
       Transfer.amount := amt;
       Transfer.created := created;
       Transfer.sourceFundingSourceUrl := source;
       Transfer.destinationFundingSourceUrl := destination;
       Transfer.sourceDetails := undefined;
       Transfer.destinationDetails := undefined |} in
  update (with_transfers (fun store => store ++ [transferRecord])) ;;
  ret (respond 201
         (obj [("success", Some (JBool true));
               ("transfer", Some (obj (Transfer.props transferRecord)))])).

Definition post_transfers
  (sourceFundingSourceUrl destinationFundingSourceUrl amount currency allowUnverified : JsVal)
  : M Response :=
  try_catch
    (if negb (truthy sourceFundingSourceUrl)
        || negb (truthy destinationFundingSourceUrl)
        || negb (truthy amount) then
       ret (error_response 400
         "Source funding source, destination funding source, and amount are required")
     else if le_zero amount then
       ret (error_response 400 "Amount must be greater than 0")
     else
       let* returned := check_source sourceFundingSourceUrl in
       match returned with
       | Some r => ret r
       | None =>
           let* returned := check_destination destinationFundingSourceUrl allowUnverified in
           match returned with
           | Some r => ret r
           | None =>
               submit_transfer sourceFundingSourceUrl destinationFundingSourceUrl
                 amount currency
           end
       end)
    (fun error =>
       ret (error_response 400
              match embedded_errors error with
              | Some errors => String.concat ". " (map friendly errors)
              | None => "Failed to create transfer"
              end)).

(* --------------------------------------------------------------------- *)
(** *** Webhooks *)
(* --------------------------------------------------------------------- *)

(** The four status assignments made for a customer event. *)
Definition customer_status_from (topic : string) (customer : Customer.t) : Customer.t :=
  let c1 := if String.eqb topic "customer_verified"
            then Customer.set_status (str "verified") customer else customer in
  let c2 := if String.eqb topic "customer_suspended"
            then Customer.set_status (str "suspended") c1 else c1 in
  let c3 := if String.eqb topic "customer_verification_document_needed"
            then Customer.set_status (str "document") c2 else c2 in
  if String.eqb topic "customer_reverification_needed"
  then Customer.set_status (str "retry") c3 else c3.

(** The three status assignments made for a transfer event. *)
Definition transfer_status_from (topic : string) (transfer : Transfer.t) : Transfer.t :=
  let t1 := if String.eqb topic "transfer_completed"
            then Transfer.set_status (str "processed") transfer else transfer in
  let t2 := if String.eqb topic "transfer_failed"
            then Transfer.set_status (str "failed") t1 else t1 in
  if String.eqb topic "transfer_cancelled"
  then Transfer.set_status (str "cancelled") t2 else t2.

(** [c => c.url === customerUrl] *)
Definition customer_at (customerUrl : JsVal) (c : Customer.t) : bool :=
  strict_eq (str (Customer.url c)) customerUrl.

(** [t => t.url === transferUrl] *)
Definition transfer_at (transferUrl : JsVal) (x : Transfer.t) : bool :=
  strict_eq (str (Transfer.url x)) transferUrl.

Definition updateLocalStoresFromWebhook (event : Json) : M unit :=
  let* topic := as_string (get event "topic") "startsWith" in
  (if startsWith topic "customer_" then
     let customerUrl := opt_get (opt_get (get event "_links") "customer") "href" in
     if truthy customerUrl then
       update (with_customers
                 (modify_first (customer_at customerUrl) (customer_status_from topic)))
     else ret tt
   else ret tt) ;;
  (if startsWith topic "transfer_" then
     let transferUrl := opt_get (opt_get (get event "_links") "resource") "href" in
     if truthy transferUrl then
       update (with_transfers
                 (modify_first (transfer_at transferUrl) (transfer_status_from topic)))
     else ret tt
   else ret tt).

(** [a || b] where [b] has an effect: it is evaluated only when [a] is
    falsy. *)
Definition or_elseM (a : JsVal) (b : M JsVal) : M JsVal :=
  if truthy a then ret a else b.

(** [webhooksStore.unshift(r)], then the truncation to the first 100. *)
Definition keep_recent (r : Webhook.t) (store : list Webhook.t) : list Webhook.t :=
  let store' := r :: store in
  if (100 <? length store')%nat then firstn 100 store' else store'.

(** The object literal [webhookRecord], after the read of [event.topic]
    made for the log line. *)
Definition webhookRecord (event : Json) : M Webhook.t :=
  let* topic := prop (Some event) "topic" in
  let* id :=
    or_elseM (get event "id")
      (let* now := Date_now in ret (str ("local-" ++ decimal now))) in
  let* timestamp :=
    or_elseM (get event "timestamp")
      (let* iso := Date_toISOString in ret (str iso)) in
  let* created :=
    or_elseM (get event "created")
      (let* iso := Date_toISOString in ret (str iso)) in
  ret {| Webhook.id := id;
         Webhook.topic := topic;
         Webhook.resourceId := get event "resourceId";
         Webhook.timestamp := timestamp;
         Webhook._links := get event "_links";
         Webhook.created := created |}.

(** POST /api/webhooks *)
Definition post_webhooks (event : Json) : M Response :=
  try_catch
    (let* record := webhookRecord event in
     update (with_webhooks (keep_recent record)) ;;
     (if truthy (get event "topic") && truthy (get event "_links")
      then updateLocalStoresFromWebhook event
      else ret tt) ;;
     ret (respond 200 (obj [("received", Some (JBool true))])))
    (fun _ => ret (error_response 500 "Failed to process webhook")).

(** GET /api/webhooks *)
Definition get_webhooks : M Response :=
  let* store := read webhooksStore in
  ret (respond 200
         (obj [("webhooks", Some (JArr (map (fun r => obj (Webhook.props r)) store)))])).

(** DELETE /api/webhooks *)
Definition delete_webhooks : M Response :=
  update (with_webhooks (fun _ => [])) ;;
  ret (respond 200
         (obj [("success", Some (JBool true)); ("message", str "Webhooks cleared")])).

(* --------------------------------------------------------------------- *)
(** *** GET /api/customers/eligible *)
(* --------------------------------------------------------------------- *)

Fixpoint characters (s : string) : list Json :=
  match s with
  | EmptyString => []
  | String c rest => JStr (String c EmptyString) :: characters rest
  end.

(** The values a [for ... of] loop visits. *)
Definition iterate (v : JsVal) : M (list Json) :=
  match v with
  | Some (JArr xs) => ret xs
  | Some (JStr s) => ret (characters s)
  | _ => throw (TypeError "allCustomers is not iterable")
  end.

(** The body of the inner [try]: the entry pushed for one verified
    customer, if any of its funding sources is eligible. *)
Definition eligible_entry (includeUnverified : bool) (dwollaCustomer : Json)
  (customerUrl : string) : M (option Json) :=
  let* fsResponse := dwollaRequest GET (JStr (customerUrl ++ "/funding-sources")) null in
  let* allSources := listed_funding_sources (snd fsResponse) in
  let* eligibleSources :=
    (if includeUnverified then ret allSources
     else filterM (fun fs => let* st := prop (Some fs) "status" in
                             ret (is_str st "verified")) allSources) in
  if (0 <? length eligibleSources)%nat then
    let* fundingSources := mapM (fundingSourceView false) eligibleSources in
    ret (Some (obj [("id", str (last_segment customerUrl));
                    ("url", str customerUrl);
                    ("firstName", get dwollaCustomer "firstName");
                    ("lastName", get dwollaCustomer "lastName");
                    ("email", get dwollaCustomer "email");
                    ("phone", or_else (get dwollaCustomer "phone") null);
                    ("type", or_else (get dwollaCustomer "type") (str "personal"));
                    ("status", get dwollaCustomer "status");
                    ("fundingSources", Some (JArr fundingSources))]))
  else ret None.

(** The [for ... of] loop over the provider's customers. *)
Fixpoint eligible_loop (includeUnverified : bool) (customers : list Json)
  (eligibleCustomers : list Json) : M (list Json) :=
  match customers with
  | [] => ret eligibleCustomers
  | dwollaCustomer :: rest =>
      let* st := prop (Some dwollaCustomer) "status" in
      if negb (is_str st "verified") then
        eligible_loop includeUnverified rest eligibleCustomers
      else
        let* links := prop (Some dwollaCustomer) "_links" in
        let* self := prop links "self" in
        let* href := prop self "href" in
        let* customerUrl := as_string href "split" in
        let* eligibleCustomers' :=
          try_catch
            (let* entry := eligible_entry includeUnverified dwollaCustomer customerUrl in
             match entry with
             | Some e => ret (eligibleCustomers ++ [e])
             | None => ret eligibleCustomers
             end)
            (fun _ => ret eligibleCustomers) in
        eligible_loop includeUnverified rest eligibleCustomers'
  end.

Definition get_eligible_customers (includeUnverified_query : JsVal) : M Response :=
  try_catch
    (let includeUnverified := is_str includeUnverified_query "true" in
     let* customersResponse := dwollaRequest GET (JStr "customers?limit=200") null in
     let* embedded := prop (snd customersResponse) "_embedded" in
     let* allCustomers := iterate (or_else (opt_get embedded "customers") (Some (JArr []))) in
     let* eligibleCustomers := eligible_loop includeUnverified allCustomers [] in
     ret (respond 200 (obj [("customers", Some (JArr eligibleCustomers))])))
    (fun _ => ret (error_response 500 "Failed to get eligible customers")).

(* --------------------------------------------------------------------- *)
(** *** Sequences of operations on the webhook store *)
(* --------------------------------------------------------------------- *)

Inductive WebhookOp : Type :=
| Receive (event : Json)     (* POST /api/webhooks *)
| ListAll                    (* GET /api/webhooks *)
| Clear.                     (* DELETE /api/webhooks *)

Definition webhook_op (op : WebhookOp) : M Response :=
  match op with
  | Receive event => post_webhooks event
  | ListAll => get_webhooks
  | Clear => delete_webhooks
  end.

Fixpoint run_ops (ops : list WebhookOp) (w : World) : World :=
  match ops with
  | [] => w
  | op :: rest => run_ops rest (snd (webhook_op op w))
  end.

(* --------------------------------------------------------------------- *)
(** *** GET /api/config/status *)
(* --------------------------------------------------------------------- *)

(** [Math.max(a, b)] *)
Definition Math_max (a b : Q) : Q := if Qle_bool a b then b else a.

(** [dwollaConfig.expiresIn - tokenAge] *)
Definition remainingTime (now : Z) (cfg : DwollaConfig) : Q :=
  (inject_Z (num (expiresIn cfg)) - tokenAge now cfg)%Q.

Definition get_config_status : M Response :=
  let* cfg := read dwollaConfig in
  let isConfigured := truthy (key cfg) && truthy (secret cfg) in
  let hasToken := token_held cfg in
  let* tokenStatus :=
    (if hasToken then
       let* now := Date_now in
       ret (if Qle_bool (remainingTime now cfg) 0 then "expired" else "valid")
     else ret "none") in
  let* remainingTokenTime :=
    (if hasToken then
       let* now := Date_now in
       ret (Math_max 0 (remainingTime now cfg))
     else ret 0%Q) in
  ret (respond 200
         (obj [("isConfigured", Some (JBool isConfigured));
               ("hasToken", Some (JBool hasToken));
               ("tokenStatus", str tokenStatus);
               ("remainingTokenTime", Some (JNum remainingTokenTime))])).

(* --------------------------------------------------------------------- *)
(** *** GET /api/customers *)
(* --------------------------------------------------------------------- *)

(** The record built for one customer of the provider's list. *)
Definition customerFromProvider (customer : Json) : M Customer.t :=
  let* links := prop (Some customer) "_links" in
  let* self := prop links "self" in
  let* href := prop self "href" in
  let* customerUrl := as_string href "split" in
  ret {| Customer.id := last_segment customerUrl;
         Customer.url := customerUrl;
         Customer.firstName := get customer "firstName";
         Customer.lastName := get customer "lastName";
         Customer.email := get customer "email";
         Customer.phone := or_else (get customer "phone") null;
         Customer.type := or_else (get customer "type") (str "personal");
         Customer.status := get customer "status";
         Customer.createdAt := get customer "created" |}.

Definition get_customers : M Response :=
  try_catch
    (let* response := dwollaRequest GET (JStr "customers?limit=200") null in
     let* embedded := prop (snd response) "_embedded" in
     let dwollaCustomers := or_else (opt_get embedded "customers") (Some (JArr [])) in
     let* listed := as_array dwollaCustomers "map" in
     let* customers := mapM customerFromProvider listed in
     update (with_customers (fun _ => customers)) ;;
     ret (respond 200
            (obj [("customers",
                   Some (JArr (map (fun c => obj (Customer.props c)) customers)))])))
    (fun _ => ret (error_response 500 "Failed to list customers from Dwolla")).

(* --------------------------------------------------------------------- *)
(** *** The master account: GET /api/me, /api/me/funding-sources, /api/me/balance *)
(* --------------------------------------------------------------------- *)

(** A value inside a template literal. *)
Definition template (v : JsVal) : string :=
  match v with
  | None => "undefined"
  | Some (JStr s) => s
  | Some j => ToString j
  end.

(** [xs.find(f)] *)
Fixpoint findM {A} (f : A -> M bool) (xs : list A) : M (option A) :=
  match xs with
  | [] => ret None
  | x :: rest =>
      let* b := f x in
      if b then ret (Some x) else findM f rest
  end.

(** The two statements that open the three handlers: the root resource is
    fetched and [rootResponse.body._links.account.href] is read.  An
    [undefined] url is recorded as [null] in the call that follows. *)
Definition accountUrl : M JsVal :=
  let* rootResponse := dwollaRequest GET (JStr "/") null in
  let* links := prop (snd rootResponse) "_links" in
  let* account := prop links "account" in
  prop account "href".

Definition get_me : M Response :=
  try_catch
    (let* url := accountUrl in
     let* accountResponse := dwollaRequest GET (url_arg url) null in
     let account := snd accountResponse in
     let* url_string := as_string url "split" in
     let* name := prop account "name" in
     let* kind := prop account "type" in
     ret (respond 200
            (obj [("account",
                   Some (obj [("id", str (last_segment url_string));
                              ("url", url);
                              ("name", name);
                              ("type", kind)]))])))
    (fun _ => ret (error_response 500 "Failed to get account details")).

Definition get_me_funding_sources : M Response :=
  try_catch
    (let* url := accountUrl in
     let* response :=
       dwollaRequest GET (JStr (template url ++ "/funding-sources")) null in
     let* kept := listed_funding_sources (snd response) in
     let* fundingSources := mapM (fundingSourceView false) kept in
     ret (respond 200 (obj [("fundingSources", Some (JArr fundingSources))])))
    (fun _ => ret (error_response 500 "Failed to list funding sources")).

(** [fs => fs.type === 'balance'] *)
Definition is_balance (fs : Json) : M bool :=
  let* kind := prop (Some fs) "type" in
  ret (is_str kind "balance").

Definition balance_unavailable : Response :=
  respond 200
    (obj [("balance", null);
          ("message", str "Balance not available for this account type")]).

Definition get_me_balance : M Response :=
  try_catch
    (let* url := accountUrl in
     let* fsResponse :=
       dwollaRequest GET (JStr (template url ++ "/funding-sources")) null in
     let* embedded := prop (snd fsResponse) "_embedded" in
     let* sources := prop embedded "funding-sources" in
     let* all := as_array sources "find" in
     let* balanceSource := findM is_balance all in
     match balanceSource with
     | Some source =>
         let* balance := prop (get source "_links") "balance" in
         let balanceUrl := opt_get balance "href" in
         if truthy balanceUrl then
           let* balanceResponse := dwollaRequest GET (url_arg balanceUrl) null in
           let* amount := prop (snd balanceResponse) "balance" in
           let* total := prop (snd balanceResponse) "total" in
           ret (respond 200 (obj [("balance", amount); ("total", total)]))
         else ret balance_unavailable
     | None => ret balance_unavailable
     end)
    (fun _ => ret (error_response 500 "Failed to get balance")).

(* --------------------------------------------------------------------- *)
(** *** GET /api/transfers/:id *)
(* --------------------------------------------------------------------- *)

Definition has_transfer_id (id : string) (x : Transfer.t) : bool :=
  String.eqb (Transfer.id x) id.

(** [transfersStore.find(t => t.id === id)] *)
Definition find_transfer (id : string) (store : list Transfer.t) : option Transfer.t :=
  find (has_transfer_id id) store.

Definition get_transfer (id : string) : M Response :=
  try_catch
    (let* store := read transfersStore in
     match find_transfer id store with
     | None => ret (error_response 404 "Transfer not found")
     | Some localTransfer =>
         let* response := dwollaRequest GET (JStr (Transfer.url localTransfer)) null in
         let transfer := snd response in
         let* st := prop transfer "status" in
         update (with_transfers (modify_first (has_transfer_id id) (Transfer.set_status st))) ;;
         ret (respond 200
                (obj [("transfer",
                       Some (obj (Transfer.props (Transfer.set_status st localTransfer)
                                  ++ [("dwollaData", transfer)])))]))
     end)
    (fun _ => ret (error_response 500 "Failed to get transfer details")).

(* --------------------------------------------------------------------- *)
(** *** Vocabulary of the statements *)
(* --------------------------------------------------------------------- *)

(** The request's email equals, up to letter case, the email of a record
    of the registry. *)
Definition email_taken (email : JsVal) (store : list Customer.t) : Prop :=
  exists c given stored,
    In c store /\ email = str given /\ Customer.email c = str stored
    /\ toLowerCase stored = toLowerCase given.

(** A phone is supplied and equals the phone of a record of the registry. *)
Definition phone_taken (phone : JsVal) (store : list Customer.t) : Prop :=
  truthy phone = true
  /\ exists c, In c store /\ strict_eq (Customer.phone c) phone = true.

(** The API key and secret have been stored ([dwollaConfig.key] and
    [dwollaConfig.secret] are truthy). *)
Definition credentials_configured (cfg : DwollaConfig) : Prop :=
  truthy (key cfg) = true /\ truthy (secret cfg) = true.

(** No token is held, or the age of the token in seconds is at least
    [expiresIn] minus 60. *)
Definition no_token_or_old (now : Z) (cfg : DwollaConfig) : Prop :=
  token_held cfg = false
  \/ (inject_Z (num (expiresIn cfg) - 60) <= tokenAge now cfg)%Q.

(** The age of the token in seconds is below [expiresIn] minus 60. *)
Definition token_fresh (now : Z) (cfg : DwollaConfig) : Prop :=
  (tokenAge now cfg < inject_Z (num (expiresIn cfg) - 60))%Q.

(** A call of [getValidAccessToken] in state [w] sends a token request to
    the provider. *)
Definition requests_token (w : World) : Prop :=
  trace (snd (getValidAccessToken w)) = AuthClient :: trace w.

(** The three registries of [w'] are those of [w]. *)
Definition same_registries (w w' : World) : Prop :=
  customersStore w' = customersStore w
  /\ transfersStore w' = transfersStore w
  /\ webhooksStore w' = webhooksStore w.

(** The state in which POST /api/config asks for its first token: the
    credentials are stored and the SDK client is built. *)
Definition credentials_stored (k s : JsVal) (w : World) : World :=
  with_client (Some {| client_key := k; client_secret := s |})
    (with_config (set_credentials k s) w).

(** The POST calls among the calls recorded so far. *)
Definition is_post (c : ProviderCall) : bool :=
  match c with
  | Rest POST _ _ => true
  | _ => false
  end.

Definition posts (w : World) : list ProviderCall := filter is_post (trace w).

(** What the JSON body parser hands to a handler as [req.body]: an object
    or an array. *)
Definition parsed_body (event : Json) : bool :=
  match event with
  | JObj _ | JArr _ => true
  | _ => false
  end.

(** The state [w] after [n] further readings of the clock. *)
Definition advance (n : nat) (w : World) : World :=
  {| dwollaConfig := dwollaConfig w; customersStore := customersStore w;
     transfersStore := transfersStore w; webhooksStore := webhooksStore w;
     dwollaClient := dwollaClient w; trace := trace w; ticks := n + ticks w |}.

Definition is_string (v : JsVal) : bool :=
  match v with
  | Some (JStr _) => true
  | _ => false
  end.

(** The events on which [updateLocalStoresFromWebhook] is entered with a
    topic that has no [startsWith] method. *)
Definition processing_raises (event : Json) : bool :=
  truthy (get event "topic") && truthy (get event "_links")
  && negb (is_string (get event "topic")).

(** [event._links?.resource?.href] *)
Definition resource_href (event : Json) : JsVal :=
  opt_get (opt_get (get event "_links") "resource") "href".

(** The calls recorded in [w'] are those of [w], with later ones added. *)
Definition extends (w w' : World) : Prop :=
  exists later, trace w' = later ++ trace w.

(** [body.status === 'verified'], false when there is no body. *)
Definition verified (body : JsVal) : bool :=
  is_str (opt_get body "status") "verified".

(** [body._links?.customer?.href]: the link from a funding source to the
    customer that owns it. *)
Definition customer_link (body : JsVal) : JsVal :=
  opt_get (opt_get (opt_get body "_links") "customer") "href".

(** The argument the SDK receives as body: only [post] passes one. *)
Definition sent_body (m : Method) (body : JsVal) : JsVal :=
  match m with
  | POST => body
  | _ => undefined
  end.

(** The grounds on which a transfer goes on to the submission, in state
    [w']: the destination funding source was answered as verified, or
    [allowUnverified] is set and the funding source either names no
    customer or names one that has been fetched and answered as verified. *)
Definition may_submit (destination allowUnverified : JsVal) (w' : World) : Prop :=
  exists history location b,
    provider history GET (url_arg destination) None = Replied location b
    /\ (verified b = true
        \/ (truthy allowUnverified = true
            /\ (truthy (customer_link b) = false
                \/ (In (Rest GET (url_arg (customer_link b)) None) (trace w')
                    /\ exists history' location' b',
                        provider history' GET (url_arg (customer_link b)) None
                        = Replied location' b'
                        /\ verified b' = true)))).

(** What holds of the result of the destination check when control falls
    through to the submission. *)
Definition destination_passed (destination allowUnverified : JsVal)
  (result : Outcome (option Response) * World) : Prop :=
  fst result = Ok None -> may_submit destination allowUnverified (snd result).

(** A computation that only adds to the recorded calls. *)
Definition grows {A} (m : M A) : Prop :=
  forall w, extends w (snd (m w)).

(** The two errors [getValidAccessToken] throws. *)
Definition not_configured_error : JsError :=
  Error "Dwolla credentials not configured. Please set up API key and secret.".

Definition token_request_error : JsError :=
  Error "Failed to obtain Dwolla access token. Check your API credentials.".

(** A validation block never throws, adds no POST, and returns a response
    only with status 400. *)
Definition validation_frame (w : World) (result : Outcome (option Response) * World) : Prop :=
  exists returned,
    fst result = Ok returned
    /\ same_registries w (snd result)
    /\ extends w (snd result)
    /\ posts (snd result) = posts w
    /\ (forall r, returned = Some r -> http_status r = 400).

(** A computation all of whose runs relate the state before to the state
    after by [R]. *)
Definition along {A} (R : World -> World -> Prop) (m : M A) : Prop :=
  forall w, R w (snd (m w)).

(** The calls that only read from the provider: the token grant and GET. *)
Definition reads_only (c : ProviderCall) : bool :=
  match c with
  | AuthClient => true
  | Rest GET _ _ => true
  | _ => false
  end.

(** From [w] to [w'] the registries are untouched and the only calls added
    are token grants and GETs. *)
Definition observes (w w' : World) : Prop :=
  same_registries w w'
  /\ exists later, trace w' = later ++ trace w /\ forallb reads_only later = true.

(** From [w] to [w'] no call is made and only the clock is read. *)
Definition silent (w w' : World) : Prop :=
  exists n, w' = advance n w.

(** From [w] to [w'] the customers and the transfers of the registries
    keep their ids and urls, in the same order. *)
Definition keeps_identities (w w' : World) : Prop :=
  map Customer.id (customersStore w') = map Customer.id (customersStore w)
  /\ map Customer.url (customersStore w') = map Customer.url (customersStore w)
  /\ map Transfer.id (transfersStore w') = map Transfer.id (transfersStore w)
  /\ map Transfer.url (transfersStore w') = map Transfer.url (transfersStore w).

(** The string contains no slash. *)
Fixpoint no_slash (s : string) : bool :=
  match s with
  | EmptyString => true
  | String c rest => negb (Ascii.eqb c "/"%char) && no_slash rest
  end.

(** [event._links?.customer?.href] *)
Definition customer_href (event : Json) : JsVal :=
  opt_get (opt_get (get event "_links") "customer") "href".

(** The topics that change the status of a customer, and of a transfer,
    with the status each one sets. *)
Definition customer_topics : list (string * string) :=
  [("customer_verified", "verified");
   ("customer_suspended", "suspended");
   ("customer_verification_document_needed", "document");
   ("customer_reverification_needed", "retry")].

Definition transfer_topics : list (string * string) :=
  [("transfer_completed", "processed");
   ("transfer_failed", "failed");
   ("transfer_cancelled", "cancelled")].

(** From [w] to [w'] nothing is sent to the provider and the credentials,
    the token and the SDK client are untouched. *)
Definition offline (w w' : World) : Prop :=
  trace w' = trace w
  /\ dwollaConfig w' = dwollaConfig w
  /\ dwollaClient w' = dwollaClient w.

(** The number of clock readings a record takes: one for each of [id],
    [timestamp] and [created] that the event does not supply. *)
Definition readings_before_timestamp (event : Json) : nat :=
  if truthy (get event "id") then 0 else 1.

Definition readings_before_created (event : Json) : nat :=
  readings_before_timestamp event
  + (if truthy (get event "timestamp") then 0 else 1).

(** The outcome of running [m] in [w]: [Q] holds of a returned value and
    the final state, [E] of a thrown error and the final state. *)
Definition post {A} (m : M A) (w : World)
  (Q : A -> World -> Prop) (E : JsError -> World -> Prop) : Prop :=
  match m w with
  | (Ok a, w') => Q a w'
  | (Throw e, w') => E e w'
  end.

(** [v] is [undefined] or [null]. *)
Definition absent (v : JsVal) : bool :=
  match v with
  | None | Some JNull => true
  | _ => false
  end.

(** From [w] to [w'] the customers and the transfers of the registries are
    the same records, in the same order, but for their status; the received
    events are untouched. *)
Definition restates (w w' : World) : Prop :=
  map (Customer.set_status undefined) (customersStore w')
  = map (Customer.set_status undefined) (customersStore w)
  /\ map (Transfer.set_status undefined) (transfersStore w')
     = map (Transfer.set_status undefined) (transfersStore w)
  /\ webhooksStore w' = webhooksStore w.

(** The record [c] is the one built from the customer [j] of the provider's
    list: its url is [j._links.self.href], its id the last segment of the
    url, and its other fields are those of [j], with the defaults for a
    missing phone and type. *)
Definition record_of (j : Json) (c : Customer.t) : Prop :=
  opt_get (opt_get (get j "_links") "self") "href" = str (Customer.url c)
  /\ Customer.id c = last_segment (Customer.url c)
  /\ Customer.firstName c = get j "firstName"
  /\ Customer.lastName c = get j "lastName"
  /\ Customer.email c = get j "email"
  /\ Customer.phone c = or_else (get j "phone") null
  /\ Customer.type c = or_else (get j "type") (str "personal")
  /\ Customer.status c = get j "status"
  /\ Customer.createdAt c = get j "created".

(** [!fs.removed] *)
Definition kept_source (fs : Json) : bool := negb (truthy (get fs "removed")).

(** [v] is the view of the funding source [fs] that the dashboard receives:
    its url is [fs._links.self.href], a string, its id the last segment of
    the url, and the other fields are those of [fs]. *)
Definition view_of (with_created : bool) (fs v : Json) : Prop :=
  exists href,
    opt_get (opt_get (get fs "_links") "self") "href" = str href
    /\ v = obj ([("id", str (last_segment href));
                 ("url", str href);
                 ("name", get fs "name");
                 ("type", get fs "type");
                 ("bankAccountType", get fs "bankAccountType");
                 ("status", get fs "status");
                 ("bankName", get fs "bankName")]
                ++ if with_created then [("created", get fs "created")] else []).

(** The funding sources of the provider's answer [b]:
    [b._embedded['funding-sources']]. *)
Definition embedded_sources (b : JsVal) : JsVal :=
  opt_get (opt_get b "_embedded") "funding-sources".

(** The funding sources offered for a customer: all of them when
    [includeUnverified] is set, the verified ones otherwise. *)
Definition eligible_source (includeUnverified : bool) (fs : Json) : bool :=
  includeUnverified || is_str (get fs "status") "verified".

(** [e] is the entry of the eligible customers built for the customer [c]
    of the provider's list: [c] is verified, its funding sources have been
    fetched from the provider, and [e] carries the views of those that are
    not removed and are eligible, of which there is at least one. *)
Definition eligible_as (includeUnverified : bool) (c e : Json) : Prop :=
  is_str (get c "status") "verified" = true
  /\ exists url history location b all views,
      opt_get (opt_get (get c "_links") "self") "href" = str url
      /\ provider history GET (JStr (url ++ "/funding-sources")) None = Replied location b
      /\ embedded_sources b = Some (JArr all)
      /\ Forall2 (view_of false)
           (filter (eligible_source includeUnverified) (filter kept_source all)) views
      /\ views <> []
      /\ e = obj [("id", str (last_segment url));
                  ("url", str url);
                  ("firstName", get c "firstName");
                  ("lastName", get c "lastName");
                  ("email", get c "email");
                  ("phone", or_else (get c "phone") null);
                  ("type", or_else (get c "type") (str "personal"));
                  ("status", get c "status");
                  ("fundingSources", Some (JArr views))].

(** [rootResponse.body._links.account.href] *)
Definition account_href (root : JsVal) : JsVal :=
  opt_get (opt_get (opt_get root "_links") "account") "href".

(** [fs.type === 'balance'] *)
Definition balance_source (fs : Json) : bool := is_str (get fs "type") "balance".

(** [balanceSource._links.balance?.href] *)
Definition balance_href (source : Json) : JsVal :=
  opt_get (opt_get (get source "_links") "balance") "href".

(** The body POST /api/customers/:id/funding-sources sends to the provider. *)
Definition fundingSourceBody (name routingNumber accountNumber accountType : JsVal) : Json :=
  obj [("routingNumber", or_else routingNumber (str "222222226"));
       ("accountNumber", or_else accountNumber (str "123456789"));
       ("bankAccountType", or_else accountType (str "checking"));
       ("name", name)].

(** The segment is free of percent-escapes and of the marks that end a
    path: it reaches [req.params] as it is written. *)
Fixpoint unescaped (s : string) : bool :=
  match s with
  | EmptyString => true
  | String c rest =>
      negb (Ascii.eqb c "%"%char) && negb (Ascii.eqb c "?"%char)
      && negb (Ascii.eqb c "#"%char) && unescaped rest
  end.

(** The body POST /api/customers/:id/verify sends to the provider: the
    names and the email of the record, and the request's data with the
    sandbox defaults. *)
Definition verificationBody (c : Customer.t)
  (ssn dateOfBirth address1 city state postalCode : JsVal) : Json :=
  obj [("firstName", Customer.firstName c);
       ("lastName", Customer.lastName c);
       ("email", Customer.email c);
       ("type", str "personal");
       ("address1", or_else address1 (str "123 Main St"));
       ("city", or_else city (str "San Francisco"));
       ("state", or_else state (str "CA"));
       ("postalCode", or_else postalCode (str "94105"));
       ("dateOfBirth", or_else dateOfBirth (str "1990-01-01"));
       ("ssn", or_else ssn (str "1234"))].

(** The two customer records agree on every field but the status. *)
Definition same_customer_but_status (c c' : Customer.t) : Prop :=
  Customer.id c' = Customer.id c
  /\ Customer.url c' = Customer.url c
  /\ Customer.firstName c' = Customer.firstName c
  /\ Customer.lastName c' = Customer.lastName c
  /\ Customer.email c' = Customer.email c
  /\ Customer.phone c' = Customer.phone c
  /\ Customer.type c' = Customer.type c
  /\ Customer.createdAt c' = Customer.createdAt c.

(** The two transfer records agree on every field but the status. *)
Definition same_transfer_but_status (t t' : Transfer.t) : Prop :=
  Transfer.id t' = Transfer.id t
  /\ Transfer.url t' = Transfer.url t
  /\ Transfer.amount t' = Transfer.amount t
  /\ Transfer.created t' = Transfer.created t
  /\ Transfer.sourceFundingSourceUrl t' = Transfer.sourceFundingSourceUrl t
  /\ Transfer.destinationFundingSourceUrl t' = Transfer.destinationFundingSourceUrl t
  /\ Transfer.sourceDetails t' = Transfer.sourceDetails t
  /\ Transfer.destinationDetails t' = Transfer.destinationDetails t.

(** The [catch] of POST /api/transfers. *)
Definition transfer_failure (error : JsError) : M Response :=
  ret (error_response 400
         match embedded_errors error with
         | Some errors => String.concat ". " (map friendly errors)
         | None => "Failed to create transfer"
         end).

(** The handler from the point where both validations have let it
    through: the transfer is submitted, under the handler's [catch]. *)
Definition submission (source destination amount currency : JsVal) : M Response :=
  try_catch (submit_transfer source destination amount currency) transfer_failure.

(** The answer to a destination that is not verified when
    [allowUnverified] is not set. *)
Definition unverified_destination : Response :=
  error_response 400
    ("Destination funding source is not verified. Enable " ++ dquote
     ++ "Allow unverified" ++ dquote
     ++ " to send to unverified funding sources.").

(* ===================================================================== *)
(** ** Properties *)
(* ===================================================================== *)


(* --------------------------------------------------------------------- *)
(** *** The string helpers on examples *)
(* --------------------------------------------------------------------- *)

Example last_segment_example :
  last_segment "https://api-sandbox.dwolla.com/customers/abc-1" = "abc-1".
Proof. reflexivity. Qed.

Example fold_ascii_example : fold_ascii "A@B.Com" = "a@b.com".
Proof. reflexivity. Qed.

Example decimal_example : decimal 1700 = "1700".
Proof. reflexivity. Qed.

(* --------------------------------------------------------------------- *)
(** *** Token management *)
(* --------------------------------------------------------------------- *)

(** What one call of [getValidAccessToken] does, case by case. *)
Lemma getValidAccessToken_cases (w : World) :
  getValidAccessToken w =
  let cfg := dwollaConfig w in
  if negb (truthy (key cfg)) || negb (truthy (secret cfg)) then
    (Throw not_configured_error, w)
  else if isExpired (clock (ticks w)) cfg then
    match dwollaClient w with
    | None => (Throw token_request_error, tick w)
    | Some c =>
        match auth (trace w) c with
        | Some response =>
            (Ok (Some (access_token response)),
             with_config (store_token response (clock (S (ticks w))))
               (tick (record_call AuthClient (tick w))))
        | None => (Throw token_request_error, record_call AuthClient (tick w))
        end
    end
  else (Ok (accessToken cfg), tick w).
Proof.
  destruct w as [cfg customers transfers webhooks client calls n].
  unfold getValidAccessToken, bind, read, try_catch, throw, ret, Date_now, auth_client,
    update, tick, record_call, with_config.
  cbn -[isExpired truthy].
  destruct (negb (truthy (key cfg)) || negb (truthy (secret cfg))); [reflexivity |].
  cbn -[isExpired].
  destruct (isExpired (clock n) cfg); [| reflexivity].
  destruct client as [c |]; cbn; [| reflexivity].
  destruct (auth calls c) as [response |]; reflexivity.
Qed.

Lemma isExpired_iff (now : Z) (cfg : DwollaConfig) :
  isExpired now cfg = true <-> no_token_or_old now cfg.
Proof.
  unfold isExpired, no_token_or_old.
  rewrite orb_true_iff, negb_true_iff, Qle_bool_iff. reflexivity.
Qed.

Lemma not_expired_iff (now : Z) (cfg : DwollaConfig) :
  isExpired now cfg = false <-> token_held cfg = true /\ token_fresh now cfg.
Proof.
  unfold isExpired, token_fresh.
  rewrite orb_false_iff, negb_false_iff.
  split; intros [Hheld Hage]; (split; [exact Hheld |]).
  - apply Qnot_le_lt. intro Hle. apply Qle_bool_iff in Hle. congruence.
  - destruct (Qle_bool _ _) eqn:Hle; [| reflexivity].
    apply Qle_bool_iff in Hle. exfalso. exact (Qlt_not_le _ _ Hage Hle).
Qed.

Lemma cons_neq_self {A} (x : A) (xs : list A) : x :: xs <> xs.
Proof.
  intros Heq. apply (f_equal (@length A)) in Heq. simpl in Heq. lia.
Qed.

(** A held, fresh token is returned as it is; only the clock is read. *)
Lemma getValidAccessToken_fresh (w : World) :
  credentials_configured (dwollaConfig w) ->
  token_held (dwollaConfig w) = true ->
  token_fresh (clock (ticks w)) (dwollaConfig w) ->
  getValidAccessToken w = (Ok (accessToken (dwollaConfig w)), tick w).
Proof.
  intros [Hkey Hsecret] Hheld Hfresh.
  rewrite getValidAccessToken_cases. cbv zeta.
  rewrite Hkey, Hsecret. simpl.
  rewrite (proj2 (not_expired_iff _ _) (conj Hheld Hfresh)). reflexivity.
Qed.

(** C3, amended. Once the credentials are configured and the SDK client
    exists, [getValidAccessToken] sends a token request to the provider
    exactly when no token is held or the age of the token in seconds is at
    least [expiresIn] minus 60, and otherwise records no call at all.
    Consequently, for a held token, two successive calls made while its age
    is below [expiresIn] minus 60 both return that token and record no call
    to the provider. *)
Theorem C3_token_requested_exactly_when_missing_or_old :
  forall w : World,
    credentials_configured (dwollaConfig w) ->
    (dwollaClient w <> None ->
     (requests_token w <-> no_token_or_old (clock (ticks w)) (dwollaConfig w))
     /\ (~ no_token_or_old (clock (ticks w)) (dwollaConfig w) ->
         trace (snd (getValidAccessToken w)) = trace w))
    /\ (token_held (dwollaConfig w) = true ->
        token_fresh (clock (ticks w)) (dwollaConfig w) ->
        token_fresh (clock (S (ticks w))) (dwollaConfig w) ->
        let first := getValidAccessToken w in
        let second := getValidAccessToken (snd first) in
        fst first = Ok (accessToken (dwollaConfig w))
        /\ fst second = Ok (accessToken (dwollaConfig w))
        /\ trace (snd second) = trace w).
Proof.
  intros w Hconf. split.
  - intros Hclient. unfold requests_token.
    rewrite getValidAccessToken_cases. cbv zeta.
    destruct Hconf as [Hkey Hsecret]. rewrite Hkey, Hsecret. simpl.
    destruct (isExpired (clock (ticks w)) (dwollaConfig w)) eqn:Hexp.
    + apply isExpired_iff in Hexp.
      destruct (dwollaClient w) as [c |]; [| congruence].
      split.
      * split; [intros _; exact Hexp |].
        intros _. destruct (auth (trace w) c); reflexivity.
      * intros Hnot. contradiction.
    + simpl. split.
      * split.
        -- intros Heq. symmetry in Heq. exfalso. exact (cons_neq_self _ _ Heq).
        -- intros Hold. apply isExpired_iff in Hold. congruence.
      * intros _. reflexivity.
  - intros Hheld Hfresh1 Hfresh2. cbv zeta.
    rewrite (getValidAccessToken_fresh w Hconf Hheld Hfresh1). simpl.
    rewrite (getValidAccessToken_fresh (tick w) Hconf Hheld Hfresh2). simpl.
    repeat split; reflexivity.
Qed.


(** [getValidAccessToken] touches the token and the clock only. *)
Lemma getValidAccessToken_frame (w : World) :
  let w' := snd (getValidAccessToken w) in
  same_registries w w'
  /\ key (dwollaConfig w') = key (dwollaConfig w)
  /\ secret (dwollaConfig w') = secret (dwollaConfig w)
  /\ dwollaClient w' = dwollaClient w
  /\ posts w' = posts w.
Proof.
  rewrite getValidAccessToken_cases. cbv zeta. unfold same_registries, posts.
  destruct (negb (truthy (key (dwollaConfig w))) || negb (truthy (secret (dwollaConfig w)))).
  - simpl. repeat split; reflexivity.
  - destruct (isExpired (clock (ticks w)) (dwollaConfig w)).
    + destruct (dwollaClient w) as [c |] eqn:Hclient.
      * destruct (auth (trace w) c); simpl; rewrite ?Hclient; repeat split; reflexivity.
      * simpl. rewrite ?Hclient. repeat split; reflexivity.
    + simpl. repeat split; reflexivity.
Qed.

(* --------------------------------------------------------------------- *)
(** *** POST /api/config *)
(* --------------------------------------------------------------------- *)

(** C9. When POST /api/config is given a key and a secret and the token
    acquisition that follows fails, the answer has status 400, the three
    registries keep their contents, and [dwollaConfig.key] and
    [dwollaConfig.secret] hold the values just supplied. *)
Theorem C9_failed_configuration_keeps_registries_overwrites_credentials :
  forall (w : World) (k s : JsVal) (e : JsError),
    truthy k = true ->
    truthy s = true ->
    fst (getValidAccessToken (credentials_stored k s w)) = Throw e ->
    exists r w',
      post_config k s w = (Ok r, w')
      /\ http_status r = 400
      /\ same_registries w w'
      /\ key (dwollaConfig w') = k
      /\ secret (dwollaConfig w') = s.
Proof.
  intros w k s e Hk Hs Hfail.
  pose proof (getValidAccessToken_frame (credentials_stored k s w)) as Hframe.
  cbv zeta in Hframe.
  unfold post_config, try_catch, bind, update, initializeDwollaClient, ret.
  rewrite Hk, Hs.
  cbn -[getValidAccessToken with_client with_config].
  fold (credentials_stored k s w).
  destruct (getValidAccessToken (credentials_stored k s w)) as [[t | e'] w1].
  - simpl in Hfail. discriminate.
  - simpl in Hframe. destruct Hframe as ((Hc & Ht & Hw) & Hkey & Hsecret & _).
    eexists. exists w1. split; [reflexivity |].
    split; [reflexivity |].
    unfold same_registries. rewrite Hc, Ht, Hw, Hkey, Hsecret.
    repeat split; reflexivity.
Qed.


(** The registries are reset once the token has been obtained. *)
Lemma post_config_success_clears_registries :
  forall (w : World) (k s : JsVal) (token : option string),
    truthy k = true ->
    truthy s = true ->
    fst (getValidAccessToken (credentials_stored k s w)) = Ok token ->
    exists r w',
      post_config k s w = (Ok r, w')
      /\ http_status r = 200
      /\ customersStore w' = []
      /\ transfersStore w' = []
      /\ webhooksStore w' = [].
Proof.
  intros w k s token Hk Hs Hok.
  unfold post_config, try_catch, bind, update, initializeDwollaClient, ret, read.
  rewrite Hk, Hs.
  cbn -[getValidAccessToken with_client with_config].
  fold (credentials_stored k s w).
  destruct (getValidAccessToken (credentials_stored k s w)) as [[t | e] w1].
  - eexists. eexists. split; [reflexivity |]. repeat split; reflexivity.
  - simpl in Hok. discriminate.
Qed.


(* --------------------------------------------------------------------- *)
(** *** Requests to the provider *)
(* --------------------------------------------------------------------- *)

Lemma extends_refl (w : World) : extends w w.
Proof. exists []. reflexivity. Qed.

Lemma extends_trans (w1 w2 w3 : World) :
  extends w1 w2 -> extends w2 w3 -> extends w1 w3.
Proof.
  intros [l1 H1] [l2 H2]. exists (l2 ++ l1). rewrite H2, H1. apply app_assoc.
Qed.

Lemma extends_in (c : ProviderCall) (w w' : World) :
  extends w w' -> In c (trace w) -> In c (trace w').
Proof.
  intros [later Hlater] Hin. rewrite Hlater. apply in_or_app. right. exact Hin.
Qed.

Lemma getValidAccessToken_extends (w : World) :
  extends w (snd (getValidAccessToken w)).
Proof.
  rewrite getValidAccessToken_cases. cbv zeta.
  destruct (negb (truthy (key (dwollaConfig w))) || negb (truthy (secret (dwollaConfig w)))).
  - apply extends_refl.
  - destruct (isExpired (clock (ticks w)) (dwollaConfig w)).
    + destruct (dwollaClient w) as [c |].
      * destruct (auth (trace w) c); exists [AuthClient]; reflexivity.
      * exists []. reflexivity.
    + exists []. reflexivity.
Qed.

(** What [dwollaRequest] guarantees: the registries are untouched, calls
    are only added, a call other than a POST adds no POST, and a response
    is the provider's answer to this very call, which is then on record. *)
Lemma dwollaRequest_spec (m : Method) (url : Json) (body : JsVal) (w : World) :
  forall o w',
    dwollaRequest m url body w = (o, w') ->
    same_registries w w'
    /\ extends w w'
    /\ (m <> POST -> posts w' = posts w)
    /\ (forall location b,
           o = Ok (location, b) ->
           In (Rest m url (sent_body m body)) (trace w')
           /\ exists history,
               provider history m url (sent_body m body) = Replied location b).
Proof.
  intros o w' Hrun.
  unfold dwollaRequest, bind, try_catch, throw in Hrun.
  pose proof (getValidAccessToken_frame w) as Hframe.
  pose proof (getValidAccessToken_extends w) as Hext.
  cbv zeta in Hframe.
  destruct (getValidAccessToken w) as [[token | e] w1]; simpl in Hframe, Hext.
  - destruct Hframe as (Hreg & _ & _ & _ & Hposts).
    unfold client_call in Hrun. fold (sent_body m body) in Hrun.
    destruct (dwollaClient w1) as [c |].
    + destruct (provider (trace w1) m url (sent_body m body)) as [location b | e] eqn:Hreply;
        inversion Hrun; subst o w'; clear Hrun.
      * repeat split; try apply Hreg.
        -- eapply extends_trans; [exact Hext |]. exists [Rest m url (sent_body m body)].
           reflexivity.
        -- intros Hm. unfold posts in *. simpl.
           destruct m; try exact Hposts. congruence.
        -- inversion H; subst. left. reflexivity.
        -- inversion H; subst. exists (trace w1). exact Hreply.
      * repeat split; try apply Hreg.
        -- eapply extends_trans; [exact Hext |]. exists [Rest m url (sent_body m body)].
           reflexivity.
        -- intros Hm. unfold posts in *. simpl.
           destruct m; try exact Hposts. congruence.
        -- discriminate.
        -- discriminate.
    + inversion Hrun; subst o w'; clear Hrun.
      repeat split; try apply Hreg; try assumption; try discriminate.
      intros _. exact Hposts.
  - inversion Hrun; subst o w'; clear Hrun.
    destruct Hframe as (Hreg & _ & _ & _ & Hposts).
    repeat split; try apply Hreg; try assumption; try discriminate.
    intros _. exact Hposts.
Qed.

(* --------------------------------------------------------------------- *)
(** *** POST /api/customers: the duplicate checks *)
(* --------------------------------------------------------------------- *)

Lemma same_email_state (email : JsVal) (c : Customer.t) (w : World) :
  snd (same_email email c w) = w.
Proof.
  unfold same_email, bind, as_string, throw, ret.
  destruct (Customer.email c) as [[| | | | |] |]; simpl; try reflexivity.
  destruct email as [[| | | | |] |]; reflexivity.
Qed.

Lemma same_email_found (given stored : string) (c : Customer.t) (w : World) :
  Customer.email c = str stored ->
  toLowerCase stored = toLowerCase given ->
  same_email (str given) c w = (Ok true, w).
Proof.
  intros Hc Hlow. unfold same_email, bind. rewrite Hc. simpl.
  rewrite Hlow, String.eqb_refl. reflexivity.
Qed.

(** The scan for a duplicate email never changes the state, and it ends
    with [false] only if no record matches. *)
Lemma some_same_email (email : JsVal) (store : list Customer.t) (w : World) :
  exists o, someM (same_email email) store w = (o, w)
            /\ (o = Ok false -> ~ email_taken email store).
Proof.
  induction store as [| c store IH]; simpl.
  - exists (Ok false). split; [reflexivity |].
    intros _ (c & given & stored & Hin & _). exact Hin.
  - unfold bind.
    pose proof (same_email_state email c w) as Hstate.
    destruct (same_email email c w) as [[[|] | e] w1] eqn:Hhead;
      simpl in Hstate; subst w1.
    + exists (Ok true). split; [reflexivity | discriminate].
    + destruct IH as (o & Hrun & Hnone). exists o. split; [exact Hrun |].
      intros Ho (c' & given & stored & [<- | Hin] & Hgiven & Hstored & Hlow).
      * subst email.
        rewrite (same_email_found given stored c w Hstored Hlow) in Hhead.
        discriminate.
      * apply (Hnone Ho). exists c', given, stored. auto.
    + exists (Throw e). split; [reflexivity | discriminate].
Qed.

Lemma some_same_phone (phone : JsVal) (store : list Customer.t) (w : World) :
  someM (same_phone phone) store w
  = (Ok (existsb (fun c => strict_eq (Customer.phone c) phone) store), w).
Proof.
  induction store as [| c store IH]; simpl.
  - reflexivity.
  - unfold bind, same_phone, ret.
    destruct (strict_eq (Customer.phone c) phone); simpl.
    + reflexivity.
    + exact IH.
Qed.

(** C4. A request to create a customer whose email equals, up to letter
    case, the email of a record of the registry, or whose supplied phone
    equals the phone of a record, is answered with status 400; the whole
    state is left as it was, so the registry is unchanged and no call to
    the provider is recorded. *)
Theorem C4_duplicate_customer_rejected_locally :
  forall (w : World) (firstName lastName email phone type businessName : JsVal),
    email_taken email (customersStore w) \/ phone_taken phone (customersStore w) ->
    exists r,
      post_customers firstName lastName email phone type businessName w = (Ok r, w)
      /\ http_status r = 400.
Proof.
  intros w firstName lastName email phone type businessName Hdup.
  unfold post_customers, try_catch.
  destruct (negb (truthy firstName) || negb (truthy lastName) || negb (truthy email)).
  - eexists. split; reflexivity.
  - unfold bind at 1. unfold read at 1. unfold bind at 1.
    destruct (some_same_email email (customersStore w) w) as (o & Hrun & Hnone).
    rewrite Hrun. destruct o as [[|] | e].
    + eexists. split; reflexivity.
    + destruct Hdup as [Hemail | (Htruthy & c & Hin & Heq)].
      * exfalso. exact (Hnone eq_refl Hemail).
      * unfold bind at 1. rewrite Htruthy, some_same_phone.
        assert (Hex : existsb (fun c => strict_eq (Customer.phone c) phone)
                        (customersStore w) = true).
        { apply existsb_exists. exists c. split; assumption. }
        rewrite Hex. eexists. split; reflexivity.
    + eexists. split; reflexivity.
Qed.

(* --------------------------------------------------------------------- *)
(** *** Lookups in the customers registry *)
(* --------------------------------------------------------------------- *)

Lemma find_customer_absent (id : string) (store : list Customer.t) :
  (forall c, In c store -> Customer.id c <> id) ->
  find_customer id store = None.
Proof.
  intros Habsent. unfold find_customer.
  induction store as [| c store IH]; simpl.
  - reflexivity.
  - destruct (String.eqb_spec (Customer.id c) id) as [Heq | Hneq].
    + exfalso. apply (Habsent c); [left; reflexivity | exact Heq].
    + apply IH. intros c' Hin. apply Habsent. right. exact Hin.
Qed.

(** C10. For an id that no record of the customers registry carries, the
    five routes under /api/customers/:id (GET, POST verify, POST and GET
    funding-sources, POST iav-token) answer 404 "Customer not found" and
    leave the whole state as it was: no call to the provider is recorded,
    whatever the provider would have answered. *)
Theorem C10_unknown_id_is_404_without_provider :
  forall (w : World) (id : string)
         (ssn dateOfBirth address1 city state postalCode : JsVal)
         (name routingNumber accountNumber accountType : JsVal),
    (forall c, In c (customersStore w) -> Customer.id c <> id) ->
    get_customer id w = (Ok (error_response 404 "Customer not found"), w)
    /\ post_verify id ssn dateOfBirth address1 city state postalCode w
       = (Ok (error_response 404 "Customer not found"), w)
    /\ post_funding_source id name routingNumber accountNumber accountType w
       = (Ok (error_response 404 "Customer not found"), w)
    /\ get_funding_sources id w = (Ok (error_response 404 "Customer not found"), w)
    /\ post_iav_token id w = (Ok (error_response 404 "Customer not found"), w).
Proof.
  intros w id ssn dateOfBirth address1 city state postalCode
         name routingNumber accountNumber accountType Habsent.
  pose proof (find_customer_absent id (customersStore w) Habsent) as Hfind.
  unfold get_customer, post_verify, post_funding_source, get_funding_sources,
    post_iav_token, try_catch, bind, read.
  rewrite Hfind. repeat split; reflexivity.
Qed.

(* --------------------------------------------------------------------- *)
(** *** POST /api/transfers: the local validation *)
(* --------------------------------------------------------------------- *)

(** C5, amended. A request in which source and destination pass the
    presence test of the handler ([!x] is false) and [amount <= 0] holds is
    answered with status 400, and the whole state is left as it was: no
    call to the provider is recorded.  The body is "Amount must be greater
    than 0" when the amount itself passes the presence test; an amount of
    [0] does not, and is answered by the message for a missing field. *)
Theorem C5_nonpositive_amount_rejected_before_provider :
  forall (w : World) (source destination amount currency allowUnverified : JsVal),
    truthy source = true ->
    truthy destination = true ->
    le_zero amount = true ->
    post_transfers source destination amount currency allowUnverified w
    = (Ok (error_response 400
             (if truthy amount
              then "Amount must be greater than 0"
              else "Source funding source, destination funding source, and amount are required")),
       w).
Proof.
  intros w source destination amount currency allowUnverified Hs Hd Hle.
  unfold post_transfers, try_catch.
  rewrite Hs, Hd, Hle. destruct (truthy amount); reflexivity.
Qed.

(* --------------------------------------------------------------------- *)
(** *** POST /api/transfers: the checks against the provider *)
(* --------------------------------------------------------------------- *)

Lemma prop_state (v : JsVal) (k : string) (w : World) : snd (prop v k w) = w.
Proof. destruct v as [[| | | | |] |]; reflexivity. Qed.

Lemma prop_ok (v : JsVal) (k : string) (w : World) (x : JsVal) (w' : World) :
  prop v k w = (Ok x, w') -> x = opt_get v k /\ w' = w.
Proof.
  destruct v as [[| | | | |] |]; simpl; unfold throw, ret; intros H;
    inversion H; split; reflexivity.
Qed.

Lemma check_source_spec (source : JsVal) (w : World) :
  validation_frame w (check_source source w).
Proof.
  unfold validation_frame, check_source, try_catch, bind.
  destruct (dwollaRequest GET (url_arg source) null w) as [[[location b] | e] w1] eqn:Hreq;
    apply dwollaRequest_spec in Hreq;
    destruct Hreq as (Hreg & Hext & Hposts & _);
    specialize (Hposts ltac:(discriminate)).
  - simpl snd.
    destruct (prop b "status" w1) as [[st | e] w2] eqn:Hprop.
    + apply prop_ok in Hprop. destruct Hprop as [-> ->].
      destruct (negb (is_str (opt_get b "status") "verified"));
        eexists; simpl; repeat split; try apply Hreg; try assumption;
        intros r Hr; inversion Hr; reflexivity.
    + pose proof (prop_state b "status" w1) as Hstate. rewrite Hprop in Hstate.
      simpl in Hstate. subst w2.
      eexists; simpl; repeat split; try apply Hreg; try assumption;
        intros r Hr; inversion Hr; reflexivity.
  - eexists; simpl; repeat split; try apply Hreg; try assumption;
      intros r Hr; inversion Hr; reflexivity.
Qed.

(** The check of the owner lets the handler go on only after the customer
    has been fetched and found verified. *)
Lemma check_owner_spec (customerUrl : JsVal) (w : World) :
  validation_frame w (check_owner customerUrl w)
  /\ (fst (check_owner customerUrl w) = Ok None ->
      In (Rest GET (url_arg customerUrl) None) (trace (snd (check_owner customerUrl w)))
      /\ exists history location b,
          provider history GET (url_arg customerUrl) None = Replied location b
          /\ verified b = true).
Proof.
  unfold validation_frame, check_owner, try_catch, bind.
  destruct (dwollaRequest GET (url_arg customerUrl) null w)
    as [[[location b] | e] w1] eqn:Hreq;
    apply dwollaRequest_spec in Hreq;
    destruct Hreq as (Hreg & Hext & Hposts & Hreply);
    specialize (Hposts ltac:(discriminate)).
  - simpl snd.
    destruct (Hreply location b eq_refl) as (Hin & history & Hanswer).
    destruct (prop b "status" w1) as [[st | e] w2] eqn:Hprop.
    + apply prop_ok in Hprop. destruct Hprop as [-> ->].
      destruct (is_str (opt_get b "status") "verified") eqn:Hverified; simpl.
      * split.
        -- eexists; simpl; repeat split; try apply Hreg; try assumption. discriminate.
        -- intros _. split; [exact Hin |]. exists history, location, b. auto.
      * split.
        -- eexists; simpl; repeat split; try apply Hreg; try assumption;
             intros r Hr; inversion Hr; reflexivity.
        -- discriminate.
    + pose proof (prop_state b "status" w1) as Hstate. rewrite Hprop in Hstate.
      simpl in Hstate. subst w2. simpl. split.
      * eexists; simpl; repeat split; try apply Hreg; try assumption;
          intros r Hr; inversion Hr; reflexivity.
      * discriminate.
  - simpl. split.
    + eexists; simpl; repeat split; try apply Hreg; try assumption;
        intros r Hr; inversion Hr; reflexivity.
    + discriminate.
Qed.


Lemma validation_frame_trans (w w1 : World) (result : Outcome (option Response) * World) :
  same_registries w w1 -> extends w w1 -> posts w1 = posts w ->
  validation_frame w1 result ->
  validation_frame w result.
Proof.
  intros Hreg Hext Hposts (returned & Hfst & Hreg' & Hext' & Hposts' & Hstatus).
  exists returned. repeat split.
  - exact Hfst.
  - destruct Hreg as (H1 & H2 & H3), Hreg' as (H1' & H2' & H3'). congruence.
  - destruct Hreg as (H1 & H2 & H3), Hreg' as (H1' & H2' & H3'). congruence.
  - destruct Hreg as (H1 & H2 & H3), Hreg' as (H1' & H2' & H3'). congruence.
  - eapply extends_trans; eassumption.
  - congruence.
  - exact Hstatus.
Qed.

Lemma validation_frame_rejects (w w1 : World) (msg : string) :
  same_registries w w1 -> extends w w1 -> posts w1 = posts w ->
  validation_frame w (Ok (Some (error_response 400 msg)), w1).
Proof.
  intros Hreg Hext Hposts. eexists. simpl. repeat split; try apply Hreg; try assumption.
  intros r Hr. inversion Hr. reflexivity.
Qed.

Lemma validation_frame_passes (w w1 : World) :
  same_registries w w1 -> extends w w1 -> posts w1 = posts w ->
  validation_frame w (Ok None, w1).
Proof.
  intros Hreg Hext Hposts. eexists. simpl. repeat split; try apply Hreg; try assumption.
  discriminate.
Qed.

(** The validation of the destination lets the handler go on only if the
    funding source is verified, or [allowUnverified] is set and the funding
    source either names no customer or names one that has been fetched and
    found verified. *)
Lemma check_destination_spec (destination allowUnverified : JsVal) (w : World) :
  validation_frame w (check_destination destination allowUnverified w)
  /\ destination_passed destination allowUnverified
       (check_destination destination allowUnverified w).
Proof.
  assert (Hgoal : forall result,
             result = check_destination destination allowUnverified w ->
             validation_frame w result
             /\ destination_passed destination allowUnverified result).
  2:{ apply Hgoal. reflexivity. }
  intros result Hresult.
  unfold check_destination, try_catch in Hresult. unfold bind at 1 in Hresult.
  destruct (dwollaRequest GET (url_arg destination) null w)
    as [[[location b] | e] w1] eqn:Hreq;
    apply dwollaRequest_spec in Hreq;
    destruct Hreq as (Hreg & Hext & Hposts & Hreply);
    specialize (Hposts ltac:(discriminate)).
  2:{ subst result. split.
      - apply validation_frame_rejects; assumption.
      - intros Hnone. discriminate. }
  destruct (Hreply location b eq_refl) as (_ & history & Hanswer).
  simpl snd in Hresult. unfold bind at 1 in Hresult.
  destruct (prop b "status" w1) as [[st | e] w2] eqn:Hprop.
  2:{ pose proof (prop_state b "status" w1) as Hstate. rewrite Hprop in Hstate.
      simpl in Hstate. subst w2 result. split.
      - apply validation_frame_rejects; assumption.
      - intros Hnone. discriminate. }
  apply prop_ok in Hprop. destruct Hprop as [-> ->].
  destruct (is_str (opt_get b "status") "verified") eqn:Hverified; cbn -[error_response check_owner prop opt_get truthy is_str] in Hresult.
  { subst result. split.
    - apply validation_frame_passes; assumption.
    - intros _. exists history, location, b. split; [exact Hanswer |]. left. exact Hverified. }
  destruct (truthy allowUnverified) eqn:Hallow; cbn -[error_response check_owner prop opt_get truthy is_str] in Hresult.
  2:{ subst result. split.
      - apply validation_frame_rejects; assumption.
      - intros Hnone. discriminate. }
  unfold bind in Hresult.
  destruct (prop b "_links" w1) as [[links | e] w2] eqn:Hlinks.
  2:{ pose proof (prop_state b "_links" w1) as Hstate. rewrite Hlinks in Hstate.
      simpl in Hstate. cbn -[error_response check_owner prop opt_get truthy is_str] in Hresult. subst w2 result. split.
      - apply validation_frame_rejects; assumption.
      - intros Hnone. discriminate. }
  apply prop_ok in Hlinks. destruct Hlinks as [-> ->].
  cbn -[error_response check_owner prop opt_get truthy is_str] in Hresult.
  fold (customer_link b) in Hresult.
  destruct (truthy (customer_link b)) eqn:Hlink.
  2:{ subst result. split.
      - apply validation_frame_passes; assumption.
      - intros _. exists history, location, b. split; [exact Hanswer |].
        right. split; [exact Hallow |]. left. exact Hlink. }
  destruct (check_owner_spec (customer_link b) w1) as [Hframe Hpass].
  pose proof Hframe as (returned & Hfst & _).
  destruct (check_owner (customer_link b) w1) as [o w2].
  simpl in Hfst. cbn -[error_response check_owner prop opt_get truthy is_str] in Hresult. subst o result. split.
  - eapply validation_frame_trans; eassumption.
  - intros Hnone. simpl in Hnone. inversion Hnone; subst returned.
    destruct (Hpass eq_refl) as (Hin & history' & location' & b' & Hanswer' & Hverified').
    exists history, location, b. split; [exact Hanswer |].
    right. split; [exact Hallow |]. right. split; [exact Hin |].
    exists history', location', b'. auto.
Qed.


Lemma may_submit_extends (destination allowUnverified : JsVal) (w w' : World) :
  extends w w' ->
  may_submit destination allowUnverified w ->
  may_submit destination allowUnverified w'.
Proof.
  intros Hext (history & location & b & Hanswer & Hgrounds).
  exists history, location, b. split; [exact Hanswer |].
  destruct Hgrounds as [Hverified | (Hallow & [Hnolink | (Hin & Howner)])].
  - left. exact Hverified.
  - right. split; [exact Hallow |]. left. exact Hnolink.
  - right. split; [exact Hallow |]. right. split; [| exact Howner].
    eapply extends_in; eassumption.
Qed.

Lemma grows_ret {A} (a : A) : grows (ret a).
Proof. intros w. apply extends_refl. Qed.

Lemma grows_bind {A B} (m : M A) (k : A -> M B) :
  grows m -> (forall a, grows (k a)) -> grows (bind m k).
Proof.
  intros Hm Hk w. unfold bind. specialize (Hm w).
  destruct (m w) as [[a | e] w1]; simpl in *.
  - eapply extends_trans; [exact Hm | apply Hk].
  - exact Hm.
Qed.

Lemma grows_prop (v : JsVal) (k : string) : grows (prop v k).
Proof. intros w. rewrite prop_state. apply extends_refl. Qed.

Lemma grows_as_string (v : JsVal) (method : string) : grows (as_string v method).
Proof. intros w. destruct v as [[| | | | |] |]; apply extends_refl. Qed.

Lemma grows_dwollaRequest (m : Method) (url : Json) (body : JsVal) :
  grows (dwollaRequest m url body).
Proof.
  intros w. destruct (dwollaRequest m url body w) as [o w'] eqn:Hrun.
  apply dwollaRequest_spec in Hrun. apply Hrun.
Qed.

Lemma grows_submit_transfer (source destination amount currency : JsVal) :
  grows (submit_transfer source destination amount currency).
Proof.
  unfold submit_transfer.
  apply grows_bind; [apply grows_dwollaRequest | intros response].
  apply grows_bind; [apply grows_dwollaRequest | intros transferResponse].
  apply grows_bind; [apply grows_as_string | intros url_string].
  apply grows_bind; [apply grows_prop | intros st].
  apply grows_bind; [apply grows_prop | intros amt].
  apply grows_bind; [apply grows_prop | intros created].
  apply grows_bind; [| intros _; apply grows_ret].
  intros w. exists []. reflexivity.
Qed.

(** Every request to POST /api/transfers is answered; either it is
    rejected with status 400 and no POST has been sent to the provider, or
    the transfer went on to the submission on the grounds of [may_submit]. *)
Lemma post_transfers_spec
      (source destination amount currency allowUnverified : JsVal) (w : World) :
  exists r w',
    post_transfers source destination amount currency allowUnverified w = (Ok r, w')
    /\ ((http_status r = 400 /\ posts w' = posts w)
        \/ may_submit destination allowUnverified w').
Proof.
  unfold post_transfers, try_catch.
  destruct (negb (truthy source) || negb (truthy destination) || negb (truthy amount)).
  { eexists. exists w. split; [reflexivity |]. left. split; reflexivity. }
  destruct (le_zero amount).
  { eexists. exists w. split; [reflexivity |]. left. split; reflexivity. }
  unfold bind at 1.
  destruct (check_source_spec source w)
    as (returned & Hfst & _ & Hext & Hposts & Hstatus).
  destruct (check_source source w) as [o w1]. simpl in Hfst, Hext, Hposts. subst o.
  destruct returned as [r |].
  { exists r, w1. split; [reflexivity |]. left. split; [apply Hstatus; reflexivity | exact Hposts]. }
  unfold bind at 1.
  destruct (check_destination_spec destination allowUnverified w1)
    as ((returned & Hfst & _ & Hext' & Hposts' & Hstatus') & Hpassed).
  unfold destination_passed in Hpassed.
  destruct (check_destination destination allowUnverified w1) as [o w2].
  simpl in Hfst, Hext', Hposts', Hpassed. subst o.
  destruct returned as [r |].
  { exists r, w2. split; [reflexivity |]. left.
    split; [apply Hstatus'; reflexivity | congruence]. }
  specialize (Hpassed eq_refl).
  pose proof (grows_submit_transfer source destination amount currency w2) as Hgrows.
  destruct (submit_transfer source destination amount currency w2) as [[r | e] w3];
    simpl in Hgrows; eexists; exists w3; (split; [reflexivity |]); right;
    eapply may_submit_extends; eassumption.
Qed.


Lemma prop_present (v : JsVal) (k : string) (w : World) :
  absent v = false -> prop v k w = (Ok (opt_get v k), w).
Proof. destruct v as [[| | | | |] |]; intros H; try discriminate H; reflexivity. Qed.

(** C1, amended. Take a request to POST /api/transfers that passes the
    local validation and the check of its source, and whose destination
    funding source, fetched next, is answered by the provider with a body
    whose status is not "verified".  Up to that point no POST has been
    sent.  If [allowUnverified] is falsy the request is answered 400 there
    and then.  If [allowUnverified] is truthy and the funding source names
    no customer ([_links.customer.href] is falsy), nothing more is checked:
    the answer is that of the submission made in the state right after the
    fetch of the destination.  If it is truthy and the funding source names
    its customer, that customer is fetched from the provider: when the
    fetch fails, or is answered with a status other than "verified", the
    request is answered 400 and still no POST has been sent; only when it
    is answered "verified" does the handler go on to the submission. *)
Theorem C1_unverified_destination_needs_flag_and_verified_owner :
  forall (w w1 w2 : World) (source destination amount currency allowUnverified : JsVal)
         (location : option string) (b : JsVal),
    truthy source = true ->
    truthy destination = true ->
    truthy amount = true ->
    le_zero amount = false ->
    check_source source w = (Ok None, w1) ->
    dwollaRequest GET (url_arg destination) null w1 = (Ok (location, b), w2) ->
    absent b = false ->
    verified b = false ->
    let result := post_transfers source destination amount currency allowUnverified w in
    posts w2 = posts w
    /\ (truthy allowUnverified = false ->
        result = (Ok unverified_destination, w2))
    /\ (truthy allowUnverified = true ->
        truthy (customer_link b) = false ->
        result = submission source destination amount currency w2)
    /\ (truthy allowUnverified = true ->
        truthy (customer_link b) = true ->
        forall (o : Outcome (option string * JsVal)) (w3 : World),
          dwollaRequest GET (url_arg (customer_link b)) null w2 = (o, w3) ->
          posts w3 = posts w
          /\ match o with
             | Ok (_, b') =>
                 In (Rest GET (url_arg (customer_link b)) None) (trace w3)
                 /\ (verified b' = false ->
                     exists r, result = (Ok r, w3) /\ http_status r = 400)
                 /\ (verified b' = true ->
                     result = submission source destination amount currency w3)
             | Throw _ =>
                 exists r, result = (Ok r, w3) /\ http_status r = 400
             end).
Proof.
  intros w w1 w2 source destination amount currency allowUnverified location b
         Hs Hd Ha Hle Hsource Hdestination Hbody Hunverified.
  cbv zeta.
  assert (Hposts1 : posts w1 = posts w).
  { destruct (check_source_spec source w) as (returned & _ & _ & _ & Hposts & _).
    rewrite Hsource in Hposts. exact Hposts. }
  assert (Hposts2 : posts w2 = posts w).
  { apply dwollaRequest_spec in Hdestination.
    destruct Hdestination as (_ & _ & Hposts & _).
    rewrite Hposts by discriminate. exact Hposts1. }
  assert (Hthrough : forall returned wd,
             check_destination destination allowUnverified w1 = (Ok returned, wd) ->
             post_transfers source destination amount currency allowUnverified w
             = match returned with
               | Some r => (Ok r, wd)
               | None => submission source destination amount currency wd
               end).
  { intros returned wd Hchecked.
    unfold post_transfers, try_catch. rewrite Hs, Hd, Ha, Hle. cbn [negb orb].
    unfold bind at 1. rewrite Hsource. cbv beta iota.
    unfold bind at 1. rewrite Hchecked. destruct returned as [r |]; reflexivity. }
  assert (Hfetched : forall result,
             result = check_destination destination allowUnverified w1 ->
             result
             = if truthy allowUnverified then
                 if truthy (customer_link b)
                 then try_catch (check_owner (customer_link b))
                        (fun _ =>
                           ret (Some (error_response 400
                                        "Invalid destination funding source"))) w2
                 else (Ok None, w2)
               else (Ok (Some unverified_destination), w2)).
  { intros result ->.
    unfold check_destination. unfold try_catch at 1. unfold bind at 1.
    rewrite Hdestination. cbv beta iota. simpl snd.
    unfold bind at 1. rewrite (prop_present b "status" w2 Hbody). cbv beta iota.
    change (is_str (opt_get b "status") "verified") with (verified b).
    rewrite Hunverified. cbn [negb].
    destruct (truthy allowUnverified); cbn [negb]; [| reflexivity].
    unfold bind at 1. rewrite (prop_present b "_links" w2 Hbody). cbv beta iota.
    change (opt_get (opt_get (opt_get b "_links") "customer") "href")
      with (customer_link b).
    destruct (truthy (customer_link b)); reflexivity. }
  specialize (Hfetched _ eq_refl).
  split; [exact Hposts2 |]. split; [| split].
  - intros Hflag. rewrite Hflag in Hfetched.
    rewrite (Hthrough _ _ Hfetched). reflexivity.
  - intros Hflag Hlink. rewrite Hflag, Hlink in Hfetched.
    rewrite (Hthrough _ _ Hfetched). reflexivity.
  - intros Hflag Hlink o w3 Howner. rewrite Hflag, Hlink in Hfetched.
    pose proof Howner as Hspec. apply dwollaRequest_spec in Hspec.
    destruct Hspec as (_ & _ & Hposts3 & Hreply).
    split; [rewrite Hposts3 by discriminate; exact Hposts2 |].
    unfold try_catch, check_owner in Hfetched. unfold try_catch at 1 in Hfetched.
    unfold bind at 1 in Hfetched. rewrite Howner in Hfetched.
    destruct o as [[location' b'] | e].
    + destruct (Hreply location' b' eq_refl) as [Hin _].
      split; [exact Hin |].
      cbv beta iota in Hfetched. simpl snd in Hfetched.
      destruct (absent b') eqn:Hbody'.
      * assert (Hnot : verified b' = false).
        { destruct b' as [[| | | | |] |]; try discriminate Hbody'; reflexivity. }
        split; [| intros Hyes; congruence]. intros _.
        unfold bind, prop in Hfetched.
        destruct b' as [[| | | | |] |]; try discriminate Hbody';
          cbn in Hfetched; rewrite (Hthrough _ _ Hfetched);
          eexists; split; reflexivity.
      * unfold bind at 1 in Hfetched.
        rewrite (prop_present b' "status" w3 Hbody') in Hfetched.
        cbv beta iota in Hfetched.
        change (is_str (opt_get b' "status") "verified") with (verified b') in Hfetched.
        split; intros Hstatus; rewrite Hstatus in Hfetched; cbn in Hfetched;
          rewrite (Hthrough _ _ Hfetched).
        -- eexists. split; reflexivity.
        -- reflexivity.
    + cbn in Hfetched. rewrite (Hthrough _ _ Hfetched). eexists. split; reflexivity.
Qed.

(* --------------------------------------------------------------------- *)
(** *** Webhooks *)
(* --------------------------------------------------------------------- *)

Lemma parsed_body_not_null (event : Json) : parsed_body event = true -> event <> JNull.
Proof. intros Hbody ->. discriminate. Qed.

(** Building the record reads the event and the clock, nothing else. *)
Lemma webhookRecord_runs (event : Json) (w : World) :
  event <> JNull ->
  exists r n,
    webhookRecord event w = (Ok r, advance n w)
    /\ Webhook.topic r = get event "topic"
    /\ Webhook.resourceId r = get event "resourceId"
    /\ Webhook._links r = get event "_links"
    /\ (truthy (get event "id") = true -> Webhook.id r = get event "id")
    /\ (truthy (get event "timestamp") = true -> Webhook.timestamp r = get event "timestamp")
    /\ (truthy (get event "created") = true -> Webhook.created r = get event "created").
Proof.
  intros Hbody.
  assert (Htopic : prop (Some event) "topic" = ret (get event "topic")).
  { destruct event; try reflexivity. congruence. }
  unfold webhookRecord. rewrite Htopic.
  unfold bind, ret, or_elseM, Date_toISOString, Date_now, bind, ret.
  set (n := ((if truthy (get event "id") then 0 else 1)
             + (if truthy (get event "timestamp") then 0 else 1)
             + (if truthy (get event "created") then 0 else 1))%nat).
  destruct w as [cfg customers transfers webhooks client calls k].
  destruct (truthy (get event "id")) eqn:Hid;
    destruct (truthy (get event "timestamp")) eqn:Hts;
    destruct (truthy (get event "created")) eqn:Hcr;
    eexists; exists n; subst n; (split; [reflexivity |]);
    cbn; repeat split; intros; try reflexivity; try discriminate.
Qed.

(** For a topic that is a string the patching of the registries succeeds;
    it touches the customers and transfers registries only. *)
Lemma updateLocalStores_string_topic (event : Json) (topic : string) (w : World) :
  get event "topic" = str topic ->
  exists w',
    updateLocalStoresFromWebhook event w = (Ok tt, w')
    /\ webhooksStore w' = webhooksStore w.
Proof.
  intros Htopic. unfold updateLocalStoresFromWebhook. rewrite Htopic.
  unfold as_string, str, bind, ret, update.
  destruct (startsWith topic "customer_");
    destruct (startsWith topic "transfer_");
    repeat match goal with
           | |- context [if truthy ?v then _ else _] => destruct (truthy v)
           end;
    eexists; split; reflexivity.
Qed.

(** For a truthy topic that is not a string the call of [startsWith]
    raises, before any registry is touched. *)
Lemma updateLocalStores_other_topic (event : Json) (w : World) :
  truthy (get event "topic") = true ->
  is_string (get event "topic") = false ->
  exists e, updateLocalStoresFromWebhook event w = (Throw e, w).
Proof.
  intros Htruthy Hstring. unfold updateLocalStoresFromWebhook, as_string, bind, throw.
  destruct (get event "topic") as [[| b | q | s | xs | fields] |];
    try discriminate; eexists; reflexivity.
Qed.

(** The answer of POST /api/webhooks, and its effect on the webhook
    store, for every body. *)
Lemma post_webhooks_cases (event : Json) (w : World) :
  event <> JNull ->
  exists r w',
    post_webhooks event w
    = (Ok (if processing_raises event
           then error_response 500 "Failed to process webhook"
           else respond 200 (obj [("received", Some (JBool true))])),
       w')
    /\ webhooksStore w' = keep_recent r (webhooksStore w)
    /\ Webhook.topic r = get event "topic"
    /\ Webhook.resourceId r = get event "resourceId"
    /\ Webhook._links r = get event "_links".
Proof.
  intros Hbody.
  destruct (webhookRecord_runs event w Hbody)
    as (r & n & Hrecord & Htopic & Hresource & Hlinks & _).
  exists r. unfold post_webhooks, try_catch, processing_raises.
  unfold bind at 1. rewrite Hrecord.
  unfold bind at 1. unfold update at 1.
  set (w1 := with_webhooks (keep_recent r) (advance n w)).
  assert (Hstore : webhooksStore w1 = keep_recent r (webhooksStore w)) by reflexivity.
  unfold bind.
  destruct (truthy (get event "topic") && truthy (get event "_links")) eqn:Hgate; simpl.
  - destruct (is_string (get event "topic")) eqn:Hstring; simpl.
    + destruct (get event "topic") as [[| | | topic | |] |] eqn:Hget; try discriminate.
      destruct (updateLocalStores_string_topic event topic w1 Hget) as (w' & Hrun & Hsame).
      rewrite Hrun. exists w'. unfold ret. rewrite Hsame. auto.
    + apply andb_true_iff in Hgate. destruct Hgate as [Htruthy _].
      destruct (updateLocalStores_other_topic event w1 Htruthy Hstring) as (e & Hrun).
      rewrite Hrun. exists w1. unfold ret. auto.
  - exists w1. unfold ret. auto.
Qed.

(** C2, amended. POST /api/webhooks always answers, and it answers 200
    with [{received: true}] whenever the processing of the event raises no
    error.  The processing raises exactly when the event has a truthy topic
    that is not a string together with a truthy [_links]; the answer is
    then 500 with [{error: "Failed to process webhook"}]. *)
Theorem C2_webhook_answer :
  forall (event : Json) (w : World),
    parsed_body event = true ->
    fst (post_webhooks event w)
    = Ok (if processing_raises event
          then error_response 500 "Failed to process webhook"
          else respond 200 (obj [("received", Some (JBool true))])).
Proof.
  intros event w Hbody.
  destruct (post_webhooks_cases event w (parsed_body_not_null event Hbody))
    as (r & w' & Hrun & _).
  rewrite Hrun. reflexivity.
Qed.


Lemma keep_recent_length (r : Webhook.t) (store : list Webhook.t) :
  length (keep_recent r store) <= 100.
Proof.
  unfold keep_recent.
  destruct (Nat.ltb_spec 100 (length (r :: store))) as [Hlong | Hshort].
  - rewrite length_firstn. apply Nat.le_min_l.
  - exact Hshort.
Qed.

(** Unshifting onto a full store drops its last record. *)
Lemma keep_recent_full (r : Webhook.t) (store : list Webhook.t) :
  length store = 100 ->
  exists rest oldest, store = rest ++ [oldest] /\ keep_recent r store = r :: rest.
Proof.
  intros Hfull.
  destruct (exists_last (l := store)) as (rest & oldest & Hsplit).
  { intros ->. discriminate. }
  exists rest, oldest. split; [exact Hsplit |].
  assert (Hrest : length rest = 99).
  { rewrite Hsplit, length_app in Hfull. simpl in Hfull. lia. }
  unfold keep_recent.
  destruct (Nat.ltb_spec 100 (length (r :: store))) as [_ | Hshort].
  - change 100 with (S 99). rewrite firstn_cons. f_equal.
    rewrite Hsplit, <- Hrest, firstn_app, firstn_all, Nat.sub_diag.
    simpl. apply app_nil_r.
  - simpl in Hshort. lia.
Qed.

Lemma post_webhooks_bounded (event : Json) (w : World) :
  length (webhooksStore w) <= 100 ->
  length (webhooksStore (snd (post_webhooks event w))) <= 100.
Proof.
  intros Hbound.
  assert (Hnull : event = JNull \/ event <> JNull).
  { destruct event; (left; reflexivity) || (right; discriminate). }
  destruct Hnull as [-> | Hnot].
  - exact Hbound.
  - destruct (post_webhooks_cases event w Hnot) as (r & w' & Hrun & Hstore & _).
    rewrite Hrun. simpl. rewrite Hstore. apply keep_recent_length.
Qed.

Lemma webhook_op_bounded (op : WebhookOp) (w : World) :
  length (webhooksStore w) <= 100 ->
  length (webhooksStore (snd (webhook_op op w))) <= 100.
Proof.
  intros Hbound. destruct op as [event | |]; simpl.
  - apply post_webhooks_bounded. exact Hbound.
  - exact Hbound.
  - apply Nat.le_0_l.
Qed.

(** C6. Starting from the empty store, and more generally from any store
    of at most 100 records, the webhook store holds at most 100 records
    after every sequence of receive, list and clear operations.  Receiving
    an event when the store holds exactly 100 records puts the record of
    that event first and drops the last record of the store, the other 99
    keeping their order. *)
Theorem C6_webhook_store_bounded_oldest_evicted :
  (forall ops : list WebhookOp,
      length (webhooksStore (run_ops ops initial_world)) <= 100)
  /\ (forall (ops : list WebhookOp) (w : World),
         length (webhooksStore w) <= 100 ->
         length (webhooksStore (run_ops ops w)) <= 100)
  /\ (forall (event : Json) (w : World),
         parsed_body event = true ->
         length (webhooksStore w) = 100 ->
         exists r rest oldest,
           webhooksStore w = rest ++ [oldest]
           /\ webhooksStore (snd (post_webhooks event w)) = r :: rest
           /\ Webhook.topic r = get event "topic"
           /\ Webhook.resourceId r = get event "resourceId"
           /\ Webhook._links r = get event "_links").
Proof.
  assert (Hpreserved : forall (ops : list WebhookOp) (w : World),
             length (webhooksStore w) <= 100 ->
             length (webhooksStore (run_ops ops w)) <= 100).
  { induction ops as [| op ops IH]; intros w Hbound; simpl.
    - exact Hbound.
    - apply IH. apply webhook_op_bounded. exact Hbound. }
  split; [| split].
  - intros ops. apply Hpreserved. simpl. apply Nat.le_0_l.
  - exact Hpreserved.
  - intros event w Hbody Hfull.
    destruct (post_webhooks_cases event w (parsed_body_not_null event Hbody))
      as (r & w' & Hrun & Hstore & Htopic & Hresource & Hlinks).
    destruct (keep_recent_full r (webhooksStore w) Hfull) as (rest & oldest & Hsplit & Hkeep).
    exists r, rest, oldest. rewrite Hrun. simpl. rewrite Hstore, Hkeep. auto.
Qed.


Lemma modify_first_at {A} (p : A -> bool) (f : A -> A) (before : list A) (x : A)
      (after : list A) :
  (forall y, In y before -> p y = false) ->
  p x = true ->
  modify_first p f (before ++ x :: after) = before ++ f x :: after.
Proof.
  intros Hbefore Hx. induction before as [| y before IH]; simpl.
  - rewrite Hx. reflexivity.
  - rewrite (Hbefore y (or_introl eq_refl)). f_equal.
    apply IH. intros z Hz. apply Hbefore. right. exact Hz.
Qed.

Lemma modify_first_absent {A} (p : A -> bool) (f : A -> A) (xs : list A) :
  (forall y, In y xs -> p y = false) ->
  modify_first p f xs = xs.
Proof.
  intros Hnone. induction xs as [| y xs IH]; simpl.
  - reflexivity.
  - rewrite (Hnone y (or_introl eq_refl)). f_equal.
    apply IH. intros z Hz. apply Hnone. right. exact Hz.
Qed.

Lemma transfer_at_url (u : string) (x : Transfer.t) :
  transfer_at (str u) x = String.eqb (Transfer.url x) u.
Proof. reflexivity. Qed.

(** The effect of a [transfer_completed] event that names a resource. *)
Lemma updateLocalStores_transfer_completed (event : Json) (u : string) (w : World) :
  get event "topic" = str "transfer_completed" ->
  resource_href event = str u ->
  u <> "" ->
  updateLocalStoresFromWebhook event w
  = (Ok tt,
     with_transfers
       (modify_first (transfer_at (str u)) (Transfer.set_status (str "processed"))) w).
Proof.
  intros Htopic Hhref Hu.
  unfold updateLocalStoresFromWebhook. rewrite Htopic.
  unfold resource_href in Hhref.
  unfold as_string, str, bind, ret. cbn -[truthy opt_get get modify_first].
  fold (str u) in Hhref. rewrite Hhref.
  assert (Htruthy : truthy (str u) = true).
  { destruct u; [congruence | reflexivity]. }
  rewrite Htruthy. reflexivity.
Qed.

(** C7. Ingesting an event with topic "transfer_completed" whose resource
    link is the url of a record of the transfers registry sets the status
    of that record (the one [find] returns: the first with that url) to
    "processed" and changes nothing else in the customers and transfers
    registries: the record that takes its place has the status "processed"
    and every other field as before, and the records around it are
    untouched.  When no record of the transfers registry has that url, both
    registries are left as they were. *)
Theorem C7_transfer_completed_marks_matching_transfer :
  forall (event : Json) (u : string) (w : World),
    get event "topic" = str "transfer_completed" ->
    resource_href event = str u ->
    u <> "" ->
    let w' := snd (post_webhooks event w) in
    (forall (before : list Transfer.t) (t : Transfer.t) (after : list Transfer.t),
        transfersStore w = before ++ t :: after ->
        Transfer.url t = u ->
        (forall x, In x before -> Transfer.url x <> u) ->
        exists t',
          transfersStore w' = before ++ t' :: after
          /\ Transfer.status t' = str "processed"
          /\ same_transfer_but_status t t'
          /\ customersStore w' = customersStore w)
    /\ ((forall x, In x (transfersStore w) -> Transfer.url x <> u) ->
        transfersStore w' = transfersStore w
        /\ customersStore w' = customersStore w).
Proof.
  intros event u w Htopic Hhref Hu.
  assert (Hnot : event <> JNull).
  { intros ->. discriminate. }
  assert (Hlinks : truthy (get event "_links") = true).
  { unfold resource_href in Hhref.
    destruct (get event "_links") as [[| | | | |] |]; try discriminate; reflexivity. }
  destruct (webhookRecord_runs event w Hnot) as (r & n & Hrecord & _).
  assert (Hrun : snd (post_webhooks event w)
                 = with_transfers
                     (modify_first (transfer_at (str u))
                        (Transfer.set_status (str "processed")))
                     (with_webhooks (keep_recent r) (advance n w))).
  { unfold post_webhooks, try_catch.
    unfold bind at 1. rewrite Hrecord.
    unfold bind at 1. unfold update at 1.
    unfold bind. rewrite Htopic, Hlinks. simpl andb. cbv iota.
    rewrite (updateLocalStores_transfer_completed event u _ Htopic Hhref Hu).
    reflexivity. }
  cbv zeta. rewrite Hrun. simpl. split.
  - intros before t after Hsplit Hurl Hfirst.
    exists (Transfer.set_status (str "processed") t).
    split; [| split; [reflexivity | split; [repeat split | reflexivity]]].
    rewrite Hsplit. apply modify_first_at.
    + intros y Hy. rewrite transfer_at_url. apply String.eqb_neq. apply Hfirst. exact Hy.
    + rewrite transfer_at_url. apply String.eqb_eq. exact Hurl.
  - intros Hnone. split; [| reflexivity].
    apply modify_first_absent.
    intros y Hy. rewrite transfer_at_url. apply String.eqb_neq. apply Hnone. exact Hy.
Qed.


(* --------------------------------------------------------------------- *)
(** *** Relations kept along a computation *)
(* --------------------------------------------------------------------- *)

Section Along.

Variable R : World -> World -> Prop.
Hypothesis R_refl : forall w, R w w.
Hypothesis R_trans : forall w1 w2 w3, R w1 w2 -> R w2 w3 -> R w1 w3.

Lemma along_ret {A} (a : A) : along R (ret a).
Proof. intros w. apply R_refl. Qed.

Lemma along_throw {A} (e : JsError) : along R (@throw A e).
Proof. intros w. apply R_refl. Qed.

Lemma along_read {A} (f : World -> A) : along R (read f).
Proof. intros w. apply R_refl. Qed.

Lemma along_bind {A B} (m : M A) (k : A -> M B) :
  along R m -> (forall a, along R (k a)) -> along R (bind m k).
Proof.
  intros Hm Hk w. unfold bind. specialize (Hm w).
  destruct (m w) as [[a | e] w1]; simpl in *.
  - eapply R_trans; [exact Hm | apply Hk].
  - exact Hm.
Qed.

Lemma along_try_catch {A} (m : M A) (h : JsError -> M A) :
  along R m -> (forall e, along R (h e)) -> along R (try_catch m h).
Proof.
  intros Hm Hh w. unfold try_catch. specialize (Hm w).
  destruct (m w) as [[a | e] w1]; simpl in *.
  - exact Hm.
  - eapply R_trans; [exact Hm | apply Hh].
Qed.

Lemma along_prop (v : JsVal) (k : string) : along R (prop v k).
Proof. intros w. destruct v as [[| | | | |] |]; apply R_refl. Qed.

Lemma along_as_string (v : JsVal) (method : string) : along R (as_string v method).
Proof. intros w. destruct v as [[| | | | |] |]; apply R_refl. Qed.

Lemma along_as_array (v : JsVal) (method : string) : along R (as_array v method).
Proof. intros w. destruct v as [[| | | | |] |]; apply R_refl. Qed.

Lemma along_if {A} (b : bool) (m1 m2 : M A) :
  along R m1 -> along R m2 -> along R (if b then m1 else m2).
Proof. destruct b; auto. Qed.

Lemma along_mapM {A B} (f : A -> M B) (xs : list A) :
  (forall x, along R (f x)) -> along R (mapM f xs).
Proof.
  intros Hf. induction xs as [| x xs IH]; simpl.
  - apply along_ret.
  - apply along_bind; [apply Hf | intros y].
    apply along_bind; [exact IH | intros ys]. apply along_ret.
Qed.

Lemma along_filterM {A} (f : A -> M bool) (xs : list A) :
  (forall x, along R (f x)) -> along R (filterM f xs).
Proof.
  intros Hf. induction xs as [| x xs IH]; simpl.
  - apply along_ret.
  - apply along_bind; [apply Hf | intros b].
    apply along_bind; [exact IH | intros kept]. apply along_ret.
Qed.

Lemma along_findM {A} (f : A -> M bool) (xs : list A) :
  (forall x, along R (f x)) -> along R (findM f xs).
Proof.
  intros Hf. induction xs as [| x xs IH]; simpl.
  - apply along_ret.
  - apply along_bind; [apply Hf | intros b].
    destruct b; [apply along_ret | exact IH].
Qed.

Lemma along_someM {A} (f : A -> M bool) (xs : list A) :
  (forall x, along R (f x)) -> along R (someM f xs).
Proof.
  intros Hf. induction xs as [| x xs IH]; simpl.
  - apply along_ret.
  - apply along_bind; [apply Hf | intros b].
    destruct b; [apply along_ret | exact IH].
Qed.

Lemma along_fundingSourceView (with_created : bool) (fs : Json) :
  along R (fundingSourceView with_created fs).
Proof.
  unfold fundingSourceView.
  repeat (apply along_bind; [first [apply along_prop | apply along_as_string] | intros ?]).
  apply along_ret.
Qed.

Lemma along_not_removed (fs : Json) : along R (not_removed fs).
Proof.
  unfold not_removed. apply along_bind; [apply along_prop | intros ?]. apply along_ret.
Qed.

End Along.


(* --------------------------------------------------------------------- *)
(** *** The routes that only read *)
(* --------------------------------------------------------------------- *)

Lemma observes_refl (w : World) : observes w w.
Proof.
  split; [repeat split |]. exists []. split; reflexivity.
Qed.

Lemma observes_trans (w1 w2 w3 : World) :
  observes w1 w2 -> observes w2 w3 -> observes w1 w3.
Proof.
  intros [(Hc1 & Ht1 & Hw1) (l1 & Hl1 & Hr1)] [(Hc2 & Ht2 & Hw2) (l2 & Hl2 & Hr2)].
  split.
  - repeat split; congruence.
  - exists (l2 ++ l1). split.
    + rewrite Hl2, Hl1. apply app_assoc.
    + rewrite forallb_app, Hr1, Hr2. reflexivity.
Qed.

Lemma observes_getValidAccessToken : along observes getValidAccessToken.
Proof.
  intros w. rewrite getValidAccessToken_cases. cbv zeta.
  destruct (negb (truthy (key (dwollaConfig w))) || negb (truthy (secret (dwollaConfig w)))).
  - apply observes_refl.
  - destruct (isExpired (clock (ticks w)) (dwollaConfig w)).
    + destruct (dwollaClient w) as [c |].
      * destruct (auth (trace w) c); (split; [repeat split |]);
          exists [AuthClient]; split; reflexivity.
      * split; [repeat split |]. exists []. split; reflexivity.
    + split; [repeat split |]. exists []. split; reflexivity.
Qed.

Lemma observes_dwollaRequest_get (url : Json) (body : JsVal) :
  along observes (dwollaRequest GET url body).
Proof.
  unfold dwollaRequest.
  apply along_bind; [exact observes_trans | exact observes_getValidAccessToken | intros _].
  apply along_try_catch;
    [exact observes_trans | | intros e; apply along_throw; exact observes_refl].
  intros w. unfold client_call.
  destruct (dwollaClient w) as [c |]; [| apply observes_refl].
  destruct (provider (trace w) GET url undefined) as [location b | e]; simpl;
    (split; [repeat split |]); exists [Rest GET url undefined]; split; reflexivity.
Qed.

Lemma observes_listed_funding_sources (body : JsVal) :
  along observes (listed_funding_sources body).
Proof.
  unfold listed_funding_sources.
  apply along_bind; [exact observes_trans | apply along_prop; exact observes_refl | intros ?].
  apply along_bind; [exact observes_trans | apply along_prop; exact observes_refl | intros ?].
  apply along_bind; [exact observes_trans | apply along_as_array; exact observes_refl | intros ?].
  apply along_filterM; [exact observes_refl | exact observes_trans |].
  intros fs. apply along_not_removed; [exact observes_refl | exact observes_trans].
Qed.

Ltac observe_step :=
  first
    [ apply observes_dwollaRequest_get
    | apply observes_listed_funding_sources
    | apply along_prop; exact observes_refl
    | apply along_as_string; exact observes_refl
    | apply along_as_array; exact observes_refl
    | apply along_read; exact observes_refl
    | apply along_ret; exact observes_refl
    | apply along_throw; exact observes_refl
    | apply along_mapM;
      [exact observes_refl | exact observes_trans
       | intros ?; apply along_fundingSourceView; [exact observes_refl | exact observes_trans]]
    | apply along_bind; [exact observes_trans | | intros ?]
    | apply along_try_catch; [exact observes_trans | | intros ?] ].

Lemma observes_accountUrl : along observes accountUrl.
Proof. unfold accountUrl. repeat observe_step. Qed.

Lemma observes_eligible_entry (includeUnverified : bool) (dwollaCustomer : Json)
      (customerUrl : string) :
  along observes (eligible_entry includeUnverified dwollaCustomer customerUrl).
Proof.
  unfold eligible_entry.
  observe_step; [observe_step | ].
  observe_step; [observe_step | ].
  observe_step.
  - destruct includeUnverified; [observe_step |].
    apply along_filterM; [exact observes_refl | exact observes_trans | intros fs].
    repeat observe_step.
  - destruct (0 <? length _)%nat; repeat observe_step.
Qed.

Lemma observes_eligible_loop (includeUnverified : bool) (customers acc : list Json) :
  along observes (eligible_loop includeUnverified customers acc).
Proof.
  revert acc. induction customers as [| c customers IH]; intros acc; cbn [eligible_loop].
  - observe_step.
  - observe_step; [observe_step |].
    destruct (negb (is_str _ "verified")); [apply IH |].
    apply along_bind; [exact observes_trans | observe_step | intros links].
    apply along_bind; [exact observes_trans | observe_step | intros self].
    apply along_bind; [exact observes_trans | observe_step | intros href].
    apply along_bind; [exact observes_trans | observe_step | intros customerUrl].
    apply along_bind; [exact observes_trans | | intros acc'; apply IH].
    apply along_try_catch; [exact observes_trans | | intros e; observe_step].
    apply along_bind; [exact observes_trans | apply observes_eligible_entry | intros entry].
    destruct entry; observe_step.
Qed.

(** The routes that only read never change a registry, and the only calls
    they send to the provider are token grants and GETs: GET /api/me,
    /api/me/funding-sources, /api/me/balance,
    /api/customers/:id/funding-sources and the handler of the eligible
    customers. *)
Theorem reading_routes_only_read :
  forall (w : World) (id : string) (includeUnverified : JsVal),
    observes w (snd (get_me w))
    /\ observes w (snd (get_me_funding_sources w))
    /\ observes w (snd (get_me_balance w))
    /\ observes w (snd (get_funding_sources id w))
    /\ observes w (snd (get_eligible_customers includeUnverified w)).
Proof.
  intros w id includeUnverified. split; [| split; [| split; [| split]]].
  - revert w. change (along observes get_me).
    unfold get_me. observe_step; [| observe_step].
    observe_step; [apply observes_accountUrl |]. repeat observe_step.
  - revert w. change (along observes get_me_funding_sources).
    unfold get_me_funding_sources. observe_step; [| observe_step].
    observe_step; [apply observes_accountUrl |]. repeat observe_step.
  - revert w. change (along observes get_me_balance).
    unfold get_me_balance. observe_step; [| observe_step].
    observe_step; [apply observes_accountUrl |].
    observe_step; [observe_step |].
    observe_step; [observe_step |].
    observe_step; [observe_step |].
    observe_step; [observe_step |].
    observe_step.
    + apply along_findM; [exact observes_refl | exact observes_trans | intros fs].
      unfold is_balance. repeat observe_step.
    + match goal with |- along _ (match ?x with _ => _ end) => destruct x end;
        [| observe_step].
      observe_step; [observe_step |].
      match goal with |- along _ (if ?b then _ else _) => destruct b end;
        repeat observe_step.
  - revert w. change (along observes (get_funding_sources id)).
    unfold get_funding_sources. observe_step; [| observe_step].
    observe_step; [observe_step |].
    match goal with |- along _ (match ?x with _ => _ end) => destruct x end;
      repeat observe_step.
  - revert w. change (along observes (get_eligible_customers includeUnverified)).
    unfold get_eligible_customers. observe_step; [| observe_step].
    observe_step; [observe_step |].
    observe_step; [observe_step |].
    observe_step.
    + intros w. unfold iterate.
      destruct (or_else _ _) as [[| | | | |] |]; apply observes_refl.
    + observe_step; [apply observes_eligible_loop | observe_step].
Qed.


(* --------------------------------------------------------------------- *)
(** *** Requests to the provider and the token *)
(* --------------------------------------------------------------------- *)

(** Before the credentials are configured every request to the provider
    fails with the configuration error and leaves the state as it was: no
    call is sent.  Seen from the routes: GET /api/me answers 500, and a
    transfer request that passes the local validation answers 400 "Invalid
    source funding source", both without any call to the provider. *)
Theorem unconfigured_requests_fail_locally :
  forall (w : World) (m : Method) (url : Json) (body : JsVal)
         (source destination amount currency allowUnverified : JsVal),
    truthy (key (dwollaConfig w)) && truthy (secret (dwollaConfig w)) = false ->
    dwollaRequest m url body w = (Throw not_configured_error, w)
    /\ get_me w = (Ok (error_response 500 "Failed to get account details"), w)
    /\ (truthy source = true -> truthy destination = true -> truthy amount = true ->
        le_zero amount = false ->
        post_transfers source destination amount currency allowUnverified w
        = (Ok (error_response 400 "Invalid source funding source"), w)).
Proof.
  intros w m url body source destination amount currency allowUnverified Hconf.
  assert (Hguard : negb (truthy (key (dwollaConfig w)))
                   || negb (truthy (secret (dwollaConfig w))) = true).
  { destruct (truthy (key (dwollaConfig w))), (truthy (secret (dwollaConfig w)));
      simpl in *; congruence. }
  assert (Hrequest : forall m url body,
             dwollaRequest m url body w = (Throw not_configured_error, w)).
  { intros m0 url0 body0. unfold dwollaRequest, bind.
    rewrite getValidAccessToken_cases. cbv zeta. rewrite Hguard. reflexivity. }
  split; [apply Hrequest | split].
  - unfold get_me, accountUrl, try_catch, bind. rewrite Hrequest. reflexivity.
  - intros Hs Hd Ha Hle. unfold post_transfers, try_catch.
    rewrite Hs, Hd, Ha, Hle.
    unfold check_source, try_catch, bind. cbn -[dwollaRequest].
    rewrite Hrequest. reflexivity.
Qed.

(** With an expired (or missing) token, a request first obtains a token
    and then sends the call: exactly one token grant, then the call, in
    that order; the token, its lifetime and the instant of the second
    clock reading are stored. *)
Theorem expired_token_is_refreshed_once_before_the_call :
  forall (w : World) (c : Client) (response : TokenResponse)
         (m : Method) (url : Json) (body : JsVal) (location : option string) (b : JsVal),
    credentials_configured (dwollaConfig w) ->
    no_token_or_old (clock (ticks w)) (dwollaConfig w) ->
    dwollaClient w = Some c ->
    auth (trace w) c = Some response ->
    provider (AuthClient :: trace w) m url (sent_body m body) = Replied location b ->
    exists w',
      dwollaRequest m url body w = (Ok (location, b), w')
      /\ trace w' = Rest m url (sent_body m body) :: AuthClient :: trace w
      /\ accessToken (dwollaConfig w') = Some (access_token response)
      /\ expiresIn (dwollaConfig w') = Some (expires_in response)
      /\ tokenCreatedAt (dwollaConfig w') = Some (clock (S (ticks w)))
      /\ same_registries w w'.
Proof.
  intros w c response m url body location b [Hkey Hsecret] Hold Hclient Hauth Hreply.
  apply isExpired_iff in Hold.
  unfold dwollaRequest, bind, try_catch.
  rewrite getValidAccessToken_cases. cbv zeta.
  rewrite Hkey, Hsecret. simpl negb. simpl orb. cbv iota.
  rewrite Hold, Hclient, Hauth.
  unfold client_call. fold (sent_body m body).
  cbn [dwollaClient trace with_config tick record_call].
  rewrite Hclient, Hreply.
  eexists. split; [reflexivity |]. cbn. repeat split; reflexivity.
Qed.

(** When the token grant fails, the request fails with the token error,
    the call itself is not sent, and the configuration keeps the token it
    held. *)
Theorem failed_refresh_sends_no_call_and_keeps_the_token :
  forall (w : World) (c : Client) (m : Method) (url : Json) (body : JsVal),
    credentials_configured (dwollaConfig w) ->
    no_token_or_old (clock (ticks w)) (dwollaConfig w) ->
    dwollaClient w = Some c ->
    auth (trace w) c = None ->
    exists w',
      dwollaRequest m url body w = (Throw token_request_error, w')
      /\ trace w' = AuthClient :: trace w
      /\ dwollaConfig w' = dwollaConfig w
      /\ same_registries w w'.
Proof.
  intros w c m url body [Hkey Hsecret] Hold Hclient Hauth.
  apply isExpired_iff in Hold.
  unfold dwollaRequest, bind.
  rewrite getValidAccessToken_cases. cbv zeta.
  rewrite Hkey, Hsecret. simpl negb. simpl orb. cbv iota.
  rewrite Hold, Hclient, Hauth.
  eexists. split; [reflexivity |]. cbn. repeat split; reflexivity.
Qed.

(** With a held, fresh token a request sends its call and nothing else,
    and the configuration is untouched. *)
Theorem fresh_token_sends_only_the_call :
  forall (w : World) (c : Client) (m : Method) (url : Json) (body : JsVal),
    credentials_configured (dwollaConfig w) ->
    token_held (dwollaConfig w) = true ->
    token_fresh (clock (ticks w)) (dwollaConfig w) ->
    dwollaClient w = Some c ->
    let w' := snd (dwollaRequest m url body w) in
    trace w' = Rest m url (sent_body m body) :: trace w
    /\ dwollaConfig w' = dwollaConfig w
    /\ same_registries w w'
    /\ fst (dwollaRequest m url body w)
       = match provider (trace w) m url (sent_body m body) with
         | Replied location b => Ok (location, b)
         | Rejected e => Throw e
         end.
Proof.
  intros w c m url body Hconf Hheld Hfresh Hclient. cbv zeta.
  unfold dwollaRequest, bind, try_catch, throw.
  rewrite (getValidAccessToken_fresh w Hconf Hheld Hfresh).
  unfold client_call. fold (sent_body m body).
  cbn [dwollaClient trace tick]. rewrite Hclient.
  destruct (provider (trace w) m url (sent_body m body)); cbn; repeat split; reflexivity.
Qed.


(* --------------------------------------------------------------------- *)
(** *** POST /api/config and GET /api/config/status *)
(* --------------------------------------------------------------------- *)

(** POST /api/config always answers.  The answer is 200 only with the
    three registries emptied, the credentials stored and the SDK client
    rebuilt from them; otherwise it is 400 with the registries untouched.
    When the key or the secret is missing the answer is 400 and nothing at
    all is changed. *)
Theorem post_config_outcomes :
  forall (w : World) (k s : JsVal),
    exists r w',
      post_config k s w = (Ok r, w')
      /\ ((http_status r = 200
           /\ customersStore w' = [] /\ transfersStore w' = [] /\ webhooksStore w' = []
           /\ key (dwollaConfig w') = k /\ secret (dwollaConfig w') = s
           /\ dwollaClient w' = Some {| client_key := k; client_secret := s |})
          \/ (http_status r = 400 /\ same_registries w w'))
      /\ (truthy k && truthy s = false -> http_status r = 400 /\ w' = w).
Proof.
  intros w k s.
  pose proof (getValidAccessToken_frame (credentials_stored k s w)) as Hframe.
  cbv zeta in Hframe.
  unfold post_config, try_catch, bind, update, initializeDwollaClient, ret, read.
  destruct (truthy k) eqn:Hk; destruct (truthy s) eqn:Hs;
    cbn -[getValidAccessToken with_client with_config];
    try (eexists; exists w; split; [reflexivity |]; split;
         [right; split; [reflexivity | repeat split] | intros _; split; reflexivity]).
  fold (credentials_stored k s w).
  destruct (getValidAccessToken (credentials_stored k s w)) as [[t | e] w1];
    simpl in Hframe; destruct Hframe as ((Hc & Ht & Hw) & Hkey & Hsecret & Hclient & _).
  - eexists. eexists. split; [reflexivity |]. split; [| discriminate].
    left. cbn. rewrite Hkey, Hsecret, Hclient. repeat split; reflexivity.
  - eexists. exists w1. split; [reflexivity |]. split; [| discriminate].
    right. split; [reflexivity |]. unfold same_registries. rewrite Hc, Ht, Hw.
    repeat split; reflexivity.
Qed.

Lemma tokenAge_value (now : Z) (cfg : DwollaConfig) :
  (tokenAge now cfg == (now - num (tokenCreatedAt cfg)) # 1000)%Q.
Proof.
  unfold tokenAge, Qdiv, Qinv, inject_Z, Qmult, Qeq. simpl. lia.
Qed.

(** A fresh token has more than 60 seconds left. *)
Lemma fresh_has_time_left (now : Z) (cfg : DwollaConfig) :
  token_fresh now cfg -> (60 < remainingTime now cfg)%Q.
Proof.
  unfold token_fresh, remainingTime. intros Hfresh.
  rewrite tokenAge_value in *.
  unfold Qlt, Qminus, Qplus, Qopp, inject_Z in *. simpl in *. lia.
Qed.

Lemma Math_max_zero_nonnegative (x : Q) : (0 <= Math_max 0 x)%Q.
Proof.
  unfold Math_max. destruct (Qle_bool 0 x) eqn:Hle.
  - apply Qle_bool_iff. exact Hle.
  - apply Qle_refl.
Qed.

(** GET /api/config/status sends nothing to the provider and changes
    nothing but the number of clock readings.  Without a token it reports
    "none" and 0 seconds left.  A token that [getValidAccessToken] would
    return as it is, is reported "valid"; the time left that is reported is
    never negative. *)
Theorem config_status_report :
  forall w : World,
    let result := get_config_status w in
    silent w (snd result)
    /\ (exists r,
          fst result = Ok r
          /\ http_status r = 200
          /\ get (json r) "hasToken" = Some (JBool (token_held (dwollaConfig w)))
          /\ (token_held (dwollaConfig w) = false ->
              get (json r) "tokenStatus" = str "none"
              /\ get (json r) "remainingTokenTime" = Some (JNum 0)
              /\ snd result = w)
          /\ (token_held (dwollaConfig w) = true ->
              token_fresh (clock (ticks w)) (dwollaConfig w) ->
              get (json r) "tokenStatus" = str "valid")
          /\ (exists q, get (json r) "remainingTokenTime" = Some (JNum q) /\ (0 <= q)%Q)).
Proof.
  intros w. cbv zeta.
  unfold get_config_status, bind, read, ret, Date_now.
  destruct w as [cfg customers transfers webhooks client calls n].
  cbn [dwollaConfig ticks fst snd].
  destruct (token_held cfg) eqn:Hheld; cbn -[remainingTime Math_max Qle_bool].
  - split; [exists 2; reflexivity |].
    eexists. split; [reflexivity |]. split; [reflexivity |].
    split; [reflexivity |]. split; [discriminate |]. split.
    + intros _ Hfresh. apply fresh_has_time_left in Hfresh.
      destruct (Qle_bool (remainingTime (clock n) cfg) 0) eqn:Hle; [| reflexivity].
      apply Qle_bool_iff in Hle. exfalso.
      apply (Qlt_irrefl 0). eapply Qlt_le_trans; [| exact Hle].
      eapply Qlt_trans; [| exact Hfresh]. reflexivity.
    + eexists. split; [reflexivity |]. apply Math_max_zero_nonnegative.
  - split; [exists 0; reflexivity |].
    eexists. split; [reflexivity |]. split; [reflexivity |].
    split; [reflexivity |]. split; [intros _; repeat split |]. split; [discriminate |].
    eexists. split; [reflexivity |]. apply Qle_refl.
Qed.


(* --------------------------------------------------------------------- *)
(** *** Webhooks: what an event changes *)
(* --------------------------------------------------------------------- *)

Lemma map_modify_first {A B} (g : A -> B) (p : A -> bool) (f : A -> A) (xs : list A) :
  (forall x, g (f x) = g x) ->
  map g (modify_first p f xs) = map g xs.
Proof.
  intros Hg. induction xs as [| x xs IH]; simpl; [reflexivity |].
  destruct (p x); simpl; [rewrite Hg | rewrite IH]; reflexivity.
Qed.

Lemma modify_first_same {A} (p : A -> bool) (f : A -> A) (xs : list A) :
  (forall x, f x = x) -> modify_first p f xs = xs.
Proof.
  intros Hf. induction xs as [| x xs IH]; simpl; [reflexivity |].
  destruct (p x); [rewrite Hf | rewrite IH]; reflexivity.
Qed.

Lemma customer_status_from_identity (topic : string) (c : Customer.t) :
  Customer.id (customer_status_from topic c) = Customer.id c
  /\ Customer.url (customer_status_from topic c) = Customer.url c.
Proof.
  unfold customer_status_from.
  destruct (String.eqb topic "customer_verified");
    destruct (String.eqb topic "customer_suspended");
    destruct (String.eqb topic "customer_verification_document_needed");
    destruct (String.eqb topic "customer_reverification_needed");
    split; reflexivity.
Qed.

Lemma transfer_status_from_identity (topic : string) (x : Transfer.t) :
  Transfer.id (transfer_status_from topic x) = Transfer.id x
  /\ Transfer.url (transfer_status_from topic x) = Transfer.url x.
Proof.
  unfold transfer_status_from.
  destruct (String.eqb topic "transfer_completed");
    destruct (String.eqb topic "transfer_failed");
    destruct (String.eqb topic "transfer_cancelled");
    split; reflexivity.
Qed.

(** The record of an event and the state in which it is stored. *)
Lemma webhookRecord_value (event : Json) (w : World) :
  event <> JNull ->
  webhookRecord event w
  = (Ok {| Webhook.id :=
             if truthy (get event "id") then get event "id"
             else str ("local-" ++ decimal (clock (ticks w)));
           Webhook.topic := get event "topic";
           Webhook.resourceId := get event "resourceId";
           Webhook.timestamp :=
             if truthy (get event "timestamp") then get event "timestamp"
             else str (toISOString
                         (clock (readings_before_timestamp event + ticks w)));
           Webhook._links := get event "_links";
           Webhook.created :=
             if truthy (get event "created") then get event "created"
             else str (toISOString
                         (clock (readings_before_created event + ticks w))) |},
     advance (readings_before_created event
              + (if truthy (get event "created") then 0 else 1)) w).
Proof.
  intros Hnot.
  assert (Htopic : prop (Some event) "topic" = ret (get event "topic")).
  { destruct event; try reflexivity. congruence. }
  unfold webhookRecord. rewrite Htopic.
  unfold readings_before_created, readings_before_timestamp.
  unfold bind, ret, or_elseM, Date_toISOString, Date_now, bind, ret.
  destruct w as [cfg customers transfers webhooks client calls k].
  destruct (truthy (get event "id")) eqn:Hid;
    destruct (truthy (get event "timestamp")) eqn:Hts;
    destruct (truthy (get event "created")) eqn:Hcr;
    reflexivity.
Qed.

(** The registries after an event whose topic is a string. *)
Lemma post_webhooks_string_topic (event : Json) (topic : string) (w : World) :
  get event "topic" = str topic ->
  exists r n,
    webhookRecord event w = (Ok r, advance n w)
    /\ post_webhooks event w
       = (Ok (respond 200 (obj [("received", Some (JBool true))])),
          with_transfers
            (if startsWith topic "transfer_" && truthy (resource_href event)
             then modify_first (transfer_at (resource_href event))
                    (transfer_status_from topic)
             else fun store => store)
            (with_customers
               (if startsWith topic "customer_" && truthy (customer_href event)
                then modify_first (customer_at (customer_href event))
                       (customer_status_from topic)
                else fun store => store)
               (with_webhooks (keep_recent r) (advance n w)))).
Proof.
  intros Htopic.
  assert (Hnot : event <> JNull) by (intros ->; discriminate).
  pose proof (webhookRecord_value event w Hnot) as Hrecord.
  eexists. eexists. split; [exact Hrecord |].
  unfold post_webhooks, try_catch.
  unfold bind at 1. rewrite Hrecord.
  unfold bind at 1. unfold update at 1.
  unfold bind. rewrite Htopic.
  unfold updateLocalStoresFromWebhook. rewrite Htopic.
  unfold as_string, str, bind, ret, update.
  fold (customer_href event). fold (resource_href event).
  assert (Hlinks : truthy (get event "_links") = false ->
                   truthy (customer_href event) = false
                   /\ truthy (resource_href event) = false).
  { unfold customer_href, resource_href.
    destruct (get event "_links") as [[| | | | |] |]; simpl; intros H;
      try discriminate; split; reflexivity. }
  assert (Hempty : truthy (Some (JStr topic)) = false ->
                   startsWith topic "customer_" = false
                   /\ startsWith topic "transfer_" = false).
  { destruct topic; simpl; intros H; [split; reflexivity | discriminate]. }
  destruct (truthy (Some (JStr topic))) eqn:Htruthy;
    destruct (truthy (get event "_links")) eqn:Hl; simpl andb; cbv iota.
  - destruct (startsWith topic "customer_");
      destruct (startsWith topic "transfer_");
      destruct (truthy (customer_href event));
      destruct (truthy (resource_href event));
      destruct w; reflexivity.
  - destruct (Hlinks eq_refl) as [Hc Hr]. rewrite Hc, Hr, !andb_false_r.
    destruct w; reflexivity.
  - destruct (Hempty eq_refl) as [Hc Hr]. rewrite Hc, Hr.
    destruct w; reflexivity.
  - destruct (Hempty eq_refl) as [Hc Hr]. rewrite Hc, Hr.
    destruct w; reflexivity.
Qed.


(** The state after an event whose topic is not a string. *)
Lemma post_webhooks_other_topic (event : Json) (w : World) :
  event <> JNull ->
  is_string (get event "topic") = false ->
  exists r n,
    webhookRecord event w = (Ok r, advance n w)
    /\ snd (post_webhooks event w) = with_webhooks (keep_recent r) (advance n w).
Proof.
  intros Hnot Hstring.
  pose proof (webhookRecord_value event w Hnot) as Hrecord.
  eexists. eexists. split; [exact Hrecord |].
  unfold post_webhooks, try_catch.
  unfold bind at 1. rewrite Hrecord.
  unfold bind at 1. unfold update at 1. unfold bind.
  destruct (truthy (get event "topic")) eqn:Htruthy;
    destruct (truthy (get event "_links")); cbn [andb];
    try reflexivity.
  match goal with
  | |- context [updateLocalStoresFromWebhook event ?w1] =>
      destruct (updateLocalStores_other_topic event w1 Htruthy Hstring) as (e & Hrun)
  end.
  rewrite Hrun. reflexivity.
Qed.

Lemma keep_recent_cons (r : Webhook.t) (store : list Webhook.t) :
  keep_recent r store = r :: firstn 99 store.
Proof.
  unfold keep_recent.
  destruct (Nat.ltb_spec 100 (length (r :: store))) as [Hlong | Hshort].
  - reflexivity.
  - simpl in Hshort. rewrite firstn_all2 by lia. reflexivity.
Qed.

(** Receiving an event sends nothing to the provider and leaves the
    credentials, the token and the SDK client alone; in the customers and
    transfers registries no record is added, dropped, moved or given
    another id or url. *)
Theorem webhook_events_stay_local :
  forall (event : Json) (w : World),
    offline w (snd (post_webhooks event w))
    /\ keeps_identities w (snd (post_webhooks event w)).
Proof.
  intros event w.
  assert (Hnull : event = JNull \/ event <> JNull).
  { destruct event; (left; reflexivity) || (right; discriminate). }
  destruct Hnull as [-> | Hnot].
  { split; repeat split. }
  destruct (is_string (get event "topic")) eqn:Hstring.
  - destruct (get event "topic") as [[| | | topic | |] |] eqn:Htopic; try discriminate.
    destruct (post_webhooks_string_topic event topic w Htopic) as (r & n & _ & Hrun).
    rewrite Hrun. simpl snd. split; [repeat split |].
    unfold keeps_identities.
    destruct (startsWith topic "transfer_" && truthy (resource_href event));
      destruct (startsWith topic "customer_" && truthy (customer_href event));
      cbn [customersStore transfersStore with_transfers with_customers with_webhooks advance];
      repeat split;
      try reflexivity;
      try (apply map_modify_first; intros x; apply customer_status_from_identity);
      try (apply map_modify_first; intros x; apply transfer_status_from_identity).
  - destruct (post_webhooks_other_topic event w Hnot Hstring) as (r & n & _ & Hrun).
    rewrite Hrun. split; repeat split.
Qed.

Lemma customer_at_url (u : string) (c : Customer.t) :
  customer_at (str u) c = String.eqb (Customer.url c) u.
Proof. reflexivity. Qed.

Lemma truthy_str (u : string) : u <> "" -> truthy (str u) = true.
Proof. destruct u; [congruence | reflexivity]. Qed.

(** The topic-to-status table.  An event whose topic is one of the four
    customer topics and whose customer link is the url of a record of the
    customers registry sets the status of the first such record to the
    status of the table, and changes nothing else in the two registries:
    the record that takes its place has that status and every other field
    as before.  Likewise for the three transfer topics, the resource link
    and the transfers registry. *)
Theorem webhook_topic_sets_status :
  forall (event : Json) (topic status u : string) (w : World),
    get event "topic" = str topic ->
    u <> "" ->
    let w' := snd (post_webhooks event w) in
    (In (topic, status) customer_topics ->
     customer_href event = str u ->
     forall (before : list Customer.t) (c : Customer.t) (after : list Customer.t),
       customersStore w = before ++ c :: after ->
       Customer.url c = u ->
       (forall x, In x before -> Customer.url x <> u) ->
       exists c',
         customersStore w' = before ++ c' :: after
         /\ Customer.status c' = str status
         /\ same_customer_but_status c c'
         /\ transfersStore w' = transfersStore w)
    /\ (In (topic, status) transfer_topics ->
        resource_href event = str u ->
        forall (before : list Transfer.t) (t : Transfer.t) (after : list Transfer.t),
          transfersStore w = before ++ t :: after ->
          Transfer.url t = u ->
          (forall x, In x before -> Transfer.url x <> u) ->
          exists t',
            transfersStore w' = before ++ t' :: after
            /\ Transfer.status t' = str status
            /\ same_transfer_but_status t t'
            /\ customersStore w' = customersStore w).
Proof.
  intros event topic status u w Htopic Hu. cbv zeta.
  destruct (post_webhooks_string_topic event topic w Htopic) as (r & n & _ & Hrun).
  rewrite Hrun. simpl snd. clear Hrun. split.
  - intros Hin Hhref before c after Hsplit Hurl Hfirst.
    rewrite Hhref, (truthy_str u Hu).
    cbn [customersStore transfersStore with_transfers with_customers with_webhooks advance].
    simpl in Hin.
    destruct Hin as [Hin | [Hin | [Hin | [Hin | []]]]]; inversion Hin; subst topic status;
      (eexists; split; [| split; [| split; [| reflexivity]]];
       [ rewrite Hsplit; cbn [startsWith String.prefix andb];
         change (startsWith _ "customer_" && true) with true; cbv iota;
         apply modify_first_at;
         [ intros y Hy; rewrite customer_at_url; apply String.eqb_neq, Hfirst, Hy
         | rewrite customer_at_url; apply String.eqb_eq, Hurl ]
       | reflexivity
       | repeat split ]).
  - intros Hin Hhref before t after Hsplit Hurl Hfirst.
    rewrite Hhref, (truthy_str u Hu).
    cbn [customersStore transfersStore with_transfers with_customers with_webhooks advance].
    simpl in Hin.
    destruct Hin as [Hin | [Hin | [Hin | []]]]; inversion Hin; subst topic status;
      (eexists; split; [| split; [| split; [| reflexivity]]];
       [ rewrite Hsplit;
         change (startsWith _ "transfer_" && true) with true; cbv iota;
         apply modify_first_at;
         [ intros y Hy; rewrite transfer_at_url; apply String.eqb_neq, Hfirst, Hy
         | rewrite transfer_at_url; apply String.eqb_eq, Hurl ]
       | reflexivity
       | repeat split ]).
Qed.


Lemma customer_status_from_other (topic : string) (c : Customer.t) :
  ~ In topic (map fst customer_topics) -> customer_status_from topic c = c.
Proof.
  intros Hout. unfold customer_status_from.
  destruct (String.eqb_spec topic "customer_verified") as [-> | _];
    [exfalso; apply Hout; simpl; auto |].
  destruct (String.eqb_spec topic "customer_suspended") as [-> | _];
    [exfalso; apply Hout; simpl; auto |].
  destruct (String.eqb_spec topic "customer_verification_document_needed") as [-> | _];
    [exfalso; apply Hout; simpl; auto |].
  destruct (String.eqb_spec topic "customer_reverification_needed") as [-> | _];
    [exfalso; apply Hout; simpl; auto 6 |].
  reflexivity.
Qed.

Lemma transfer_status_from_other (topic : string) (x : Transfer.t) :
  ~ In topic (map fst transfer_topics) -> transfer_status_from topic x = x.
Proof.
  intros Hout. unfold transfer_status_from.
  destruct (String.eqb_spec topic "transfer_completed") as [-> | _];
    [exfalso; apply Hout; simpl; auto |].
  destruct (String.eqb_spec topic "transfer_failed") as [-> | _];
    [exfalso; apply Hout; simpl; auto |].
  destruct (String.eqb_spec topic "transfer_cancelled") as [-> | _];
    [exfalso; apply Hout; simpl; auto |].
  reflexivity.
Qed.

(** An event whose topic is not one of the seven topics of the table,
    whatever else it carries, leaves every record of the customers and
    transfers registries as it was. *)
Theorem webhook_other_topics_change_no_record :
  forall (event : Json) (w : World),
    (forall topic, get event "topic" = str topic ->
                   ~ In topic (map fst (customer_topics ++ transfer_topics))) ->
    customersStore (snd (post_webhooks event w)) = customersStore w
    /\ transfersStore (snd (post_webhooks event w)) = transfersStore w.
Proof.
  intros event w Hout.
  assert (Hnull : event = JNull \/ event <> JNull).
  { destruct event; (left; reflexivity) || (right; discriminate). }
  destruct Hnull as [-> | Hnot].
  { split; reflexivity. }
  destruct (is_string (get event "topic")) eqn:Hstring.
  - destruct (get event "topic") as [[| | | topic | |] |] eqn:Htopic; try discriminate.
    specialize (Hout topic eq_refl). rewrite map_app, in_app_iff in Hout.
    destruct (post_webhooks_string_topic event topic w Htopic) as (r & n & _ & Hrun).
    rewrite Hrun. simpl snd.
    cbn [customersStore transfersStore with_transfers with_customers with_webhooks advance].
    split.
    + destruct (startsWith topic "customer_" && truthy (customer_href event));
        [| reflexivity].
      apply modify_first_same. intros c. apply customer_status_from_other.
      intros Hin. apply Hout. left. exact Hin.
    + destruct (startsWith topic "transfer_" && truthy (resource_href event));
        [| reflexivity].
      apply modify_first_same. intros x. apply transfer_status_from_other.
      intros Hin. apply Hout. right. exact Hin.
  - destruct (post_webhooks_other_topic event w Hnot Hstring) as (r & n & _ & Hrun).
    rewrite Hrun. split; reflexivity.
Qed.

(** The record of a received event goes first in the store, followed by
    the 99 most recent records already there.  It carries the topic, the
    resource id and the links of the event; its id is the id of the event
    or, failing that, "local-" followed by the reading of the clock; its
    timestamp and creation time are those of the event or, failing that,
    the reading of the clock in ISO form.  A listing made next shows it
    first. *)
Theorem received_event_is_listed_first :
  forall (event : Json) (w : World),
    parsed_body event = true ->
    let w' := snd (post_webhooks event w) in
    exists r,
      webhooksStore w' = r :: firstn 99 (webhooksStore w)
      /\ Webhook.topic r = get event "topic"
      /\ Webhook.resourceId r = get event "resourceId"
      /\ Webhook._links r = get event "_links"
      /\ Webhook.id r
         = (if truthy (get event "id") then get event "id"
            else str ("local-" ++ decimal (clock (ticks w))))
      /\ Webhook.timestamp r
         = (if truthy (get event "timestamp") then get event "timestamp"
            else str (toISOString (clock (readings_before_timestamp event + ticks w))))
      /\ Webhook.created r
         = (if truthy (get event "created") then get event "created"
            else str (toISOString (clock (readings_before_created event + ticks w))))
      /\ fst (get_webhooks w')
         = Ok (respond 200
                 (obj [("webhooks",
                        Some (JArr (obj (Webhook.props r)
                                    :: map (fun x => obj (Webhook.props x))
                                         (firstn 99 (webhooksStore w)))))])).
Proof.
  intros event w Hbody. cbv zeta.
  pose proof (parsed_body_not_null event Hbody) as Hnot.
  pose proof (webhookRecord_value event w Hnot) as Hrecord.
  assert (Hstore : exists r n,
             webhookRecord event w = (Ok r, advance n w)
             /\ webhooksStore (snd (post_webhooks event w))
                = keep_recent r (webhooksStore w)).
  { destruct (is_string (get event "topic")) eqn:Hstring.
    - destruct (get event "topic") as [[| | | topic | |] |] eqn:Htopic; try discriminate.
      destruct (post_webhooks_string_topic event topic w Htopic) as (r & n & Hrec & Hrun).
      exists r, n. split; [exact Hrec |]. rewrite Hrun. reflexivity.
    - destruct (post_webhooks_other_topic event w Hnot Hstring) as (r & n & Hrec & Hrun).
      exists r, n. split; [exact Hrec |]. rewrite Hrun. reflexivity. }
  destruct Hstore as (r & n & Hrec & Hstore).
  rewrite Hrecord in Hrec. inversion Hrec as [[Hr Hn]]. clear Hrec Hn.
  exists r. rewrite <- Hr.
  split; [rewrite Hstore, keep_recent_cons, <- Hr; reflexivity |].
  repeat split; try reflexivity.
  unfold get_webhooks, bind, read, ret. simpl fst.
  rewrite Hstore, keep_recent_cons, <- Hr. reflexivity.
Qed.


(* --------------------------------------------------------------------- *)
(** *** Outcomes of computations, step by step *)
(* --------------------------------------------------------------------- *)

Lemma post_ret {A} (a : A) (w : World) Q E : Q a w -> post (ret a) w Q E.
Proof. intros H. exact H. Qed.

Lemma post_throw {A} (e : JsError) (w : World) (Q : A -> World -> Prop) E :
  E e w -> post (throw e) w Q E.
Proof. intros H. exact H. Qed.

Lemma post_read {A} (f : World -> A) (w : World) Q E : Q (f w) w -> post (read f) w Q E.
Proof. intros H. exact H. Qed.

Lemma post_update (f : World -> World) (w : World) Q E :
  Q tt (f w) -> post (update f) w Q E.
Proof. intros H. exact H. Qed.

Lemma post_bind {A B} (m : M A) (k : A -> M B) (w : World) Q E :
  post m w (fun a w1 => post (k a) w1 Q E) E -> post (bind m k) w Q E.
Proof.
  unfold post, bind. destruct (m w) as [[a | e] w1]; intros H; exact H.
Qed.

Lemma post_try_catch {A} (m : M A) (h : JsError -> M A) (w : World) Q E :
  post m w Q (fun e w1 => post (h e) w1 Q E) -> post (try_catch m h) w Q E.
Proof.
  unfold post, try_catch. destruct (m w) as [[a | e] w1]; intros H; exact H.
Qed.

Lemma post_weaken {A} (m : M A) (w : World) (Q Q' : A -> World -> Prop)
      (E E' : JsError -> World -> Prop) :
  post m w Q E ->
  (forall a w', Q a w' -> Q' a w') ->
  (forall e w', E e w' -> E' e w') ->
  post m w Q' E'.
Proof.
  unfold post. destruct (m w) as [[a | e] w1]; intros H HQ HE; auto.
Qed.

Lemma post_prop (v : JsVal) (k : string) (w : World) Q E :
  (absent v = false -> Q (opt_get v k) w) ->
  (absent v = true -> forall e, E e w) ->
  post (prop v k) w Q E.
Proof.
  intros HQ HE. unfold post.
  destruct v as [[| | | | |] |]; simpl;
    first [apply HE; reflexivity | apply HQ; reflexivity].
Qed.

Lemma post_as_string (v : JsVal) (method : string) (w : World) Q E :
  (forall s, v = Some (JStr s) -> Q s w) ->
  (is_string v = false -> forall e, E e w) ->
  post (as_string v method) w Q E.
Proof.
  intros HQ HE. unfold post.
  destruct v as [[| | | | |] |]; simpl;
    first [apply HE; reflexivity | apply HQ; reflexivity].
Qed.

Lemma post_as_array (v : JsVal) (method : string) (w : World) Q E :
  (forall xs, v = Some (JArr xs) -> Q xs w) ->
  (forall e, E e w) ->
  post (as_array v method) w Q E.
Proof.
  intros HQ HE. unfold post.
  destruct v as [[| | | | |] |]; simpl;
    first [apply HE | apply HQ; reflexivity].
Qed.

Lemma post_dwollaRequest (m : Method) (url : Json) (body : JsVal) (w : World) Q E :
  (forall location b w',
      same_registries w w' -> extends w w' ->
      (m <> POST -> posts w' = posts w) ->
      In (Rest m url (sent_body m body)) (trace w') ->
      (exists history, provider history m url (sent_body m body) = Replied location b) ->
      Q (location, b) w') ->
  (forall e w', same_registries w w' -> extends w w' ->
                (m <> POST -> posts w' = posts w) -> E e w') ->
  post (dwollaRequest m url body) w Q E.
Proof.
  intros HQ HE. unfold post.
  destruct (dwollaRequest m url body w) as [[[location b] | e] w'] eqn:Hrun;
    apply dwollaRequest_spec in Hrun;
    destruct Hrun as (Hreg & Hext & Hposts & Hreply).
  - destruct (Hreply location b eq_refl) as [Hin Hanswer]. apply HQ; assumption.
  - apply HE; assumption.
Qed.

(** From an outcome to the run. *)
Lemma post_run {A} (m : M A) (w : World) (Q : A -> World -> Prop) :
  post m w Q (fun _ _ => False) ->
  exists a w', m w = (Ok a, w') /\ Q a w'.
Proof.
  unfold post. destruct (m w) as [[a | e] w']; intros H; [| contradiction].
  exists a, w'. auto.
Qed.


(* --------------------------------------------------------------------- *)
(** *** POST /api/customers: the outcomes *)
(* --------------------------------------------------------------------- *)

Lemma same_registries_chain (w1 w2 w3 : World) :
  same_registries w1 w2 -> same_registries w2 w3 -> same_registries w1 w3.
Proof.
  intros (Hc1 & Ht1 & Hw1) (Hc2 & Ht2 & Hw2). repeat split; congruence.
Qed.

(** POST /api/customers always answers, with 400 or with 201.  With 400
    the registries are as they were.  With 201 the provider has accepted
    the POST of the customer and named the new resource in its [Location]
    header; the customers registry has gained exactly one record, at its
    end, whose url is that location, whose id is the last segment of it and
    whose phone is the phone of the request ([null] when none was given);
    the record is the one returned in the answer. *)
Theorem post_customers_outcomes :
  forall (w : World) (firstName lastName email phone type businessName : JsVal),
    exists r w',
      post_customers firstName lastName email phone type businessName w = (Ok r, w')
      /\ ((http_status r = 400 /\ same_registries w w')
          \/ (http_status r = 201
              /\ exists record u,
                  customersStore w' = customersStore w ++ [record]
                  /\ transfersStore w' = transfersStore w
                  /\ webhooksStore w' = webhooksStore w
                  /\ Customer.url record = u
                  /\ Customer.id record = last_segment u
                  /\ Customer.phone record = or_else phone null
                  /\ In (Rest POST (JStr "customers")
                           (Some (customerBody firstName lastName email phone type
                                    businessName)))
                        (trace w')
                  /\ (exists history b,
                         provider history POST (JStr "customers")
                           (Some (customerBody firstName lastName email phone type
                                    businessName))
                         = Replied (Some u) b)
                  /\ json r = obj [("success", Some (JBool true));
                                   ("customer", Some (obj (Customer.props record)))])).
Proof.
  intros w firstName lastName email phone type businessName.
  apply post_run.
  match goal with |- post _ _ ?Q _ => set (Outcome := Q) end.
  assert (Hrejected : forall (w1 : World) (msg : string),
             same_registries w w1 -> Outcome (error_response 400 msg) w1).
  { intros w1 msg Hreg. left. split; [reflexivity | exact Hreg]. }
  unfold post_customers. apply post_try_catch.
  destruct (negb (truthy firstName) || negb (truthy lastName) || negb (truthy email)).
  { apply post_ret. apply Hrejected. repeat split. }
  apply post_bind, post_read. apply post_bind.
  destruct (some_same_email email (customersStore w) w) as (o & Hscan & _).
  unfold post at 1. rewrite Hscan.
  destruct o as [[|] | e].
  { apply post_ret. apply Hrejected. repeat split. }
  2:{ apply post_ret. apply Hrejected. repeat split. }
  apply post_bind.
  assert (Hphone : exists b,
             (if truthy phone then someM (same_phone phone) (customersStore w)
              else ret false) w = (Ok b, w)).
  { destruct (truthy phone); [rewrite some_same_phone |]; eexists; reflexivity. }
  destruct Hphone as (b & Hphone). unfold post at 1. rewrite Hphone.
  destruct b.
  { apply post_ret. apply Hrejected. repeat split. }
  apply post_bind, post_dwollaRequest.
  2:{ intros e w1 Hreg _ _. apply post_ret. apply Hrejected. exact Hreg. }
  intros location b w1 Hreg1 Hext1 _ Hin1 (history & Hanswer).
  apply post_bind, post_dwollaRequest.
  2:{ intros e w2 Hreg2 _ _. apply post_ret. apply Hrejected.
      eapply same_registries_chain; eassumption. }
  intros location2 customer w2 Hreg2 Hext2 _ _ _. simpl fst. simpl snd.
  assert (Hreg : same_registries w w2) by (eapply same_registries_chain; eassumption).
  apply post_bind, post_as_string;
    [| intros _ e; apply post_ret; apply Hrejected; exact Hreg].
  intros u Hu.
  do 6 (apply post_bind, post_prop;
        [intros _ | intros _ e; apply post_ret; apply Hrejected; exact Hreg]).
  apply post_bind, post_update. apply post_ret.
  right. split; [reflexivity |].
  destruct Hreg as (Hc & Ht & Hw).
  eexists. exists u.
  cbn [customersStore transfersStore webhooksStore trace with_customers].
  rewrite Hc, Ht, Hw.
  split; [reflexivity |]. split; [reflexivity |]. split; [reflexivity |].
  split; [reflexivity |]. split; [reflexivity |]. split; [reflexivity |].
  split; [eapply extends_in; eassumption |].
  split; [| reflexivity].
  exists history, b.
  destruct location as [l |]; simpl in Hu; inversion Hu; subst. exact Hanswer.
Qed.


(* --------------------------------------------------------------------- *)
(** *** POST /api/transfers: the outcomes *)
(* --------------------------------------------------------------------- *)

(** The validation of the source lets the handler go on only after the
    provider has answered the funding source as verified. *)
Lemma check_source_passed (source : JsVal) (w : World) :
  fst (check_source source w) = Ok None ->
  exists history location b,
    provider history GET (url_arg source) None = Replied location b
    /\ verified b = true.
Proof.
  assert (Hpost : post (check_source source) w
                    (fun returned _ =>
                       returned = None ->
                       exists history location b,
                         provider history GET (url_arg source) None = Replied location b
                         /\ verified b = true)
                    (fun _ _ => True)).
  { unfold check_source. apply post_try_catch. apply post_bind, post_dwollaRequest.
    - intros location b w1 _ _ _ _ (history & Hanswer). simpl snd.
      apply post_bind, post_prop.
      + intros _. destruct (is_str (opt_get b "status") "verified") eqn:Hverified;
          cbn [negb]; apply post_ret; [intros _ | discriminate].
        exists history, location, b. split; assumption.
      + intros _ e. apply post_ret. discriminate.
    - intros e w1 _ _ _. apply post_ret. discriminate. }
  unfold post in Hpost. destruct (check_source source w) as [[returned | e] w1]; simpl.
  - intros Hreturned. inversion Hreturned. apply Hpost. assumption.
  - discriminate.
Qed.

(** POST /api/transfers always answers, with 400 or with 201, and never
    touches the customers or the received events.  With 400 the transfers
    registry is as it was.  With 201 the amount was supplied and is not
    [<= 0], the provider has answered the source funding source as
    verified, it has accepted the POST of the transfer and named the new
    resource in its [Location] header; the transfers registry has gained
    exactly one record, at its end, whose url is that location, whose id is
    the last segment of it and whose source and destination are those of
    the request; the record is the one returned in the answer. *)
Theorem post_transfers_outcomes :
  forall (w : World) (source destination amount currency allowUnverified : JsVal),
    exists r w',
      post_transfers source destination amount currency allowUnverified w = (Ok r, w')
      /\ customersStore w' = customersStore w
      /\ webhooksStore w' = webhooksStore w
      /\ ((http_status r = 400 /\ transfersStore w' = transfersStore w)
          \/ (http_status r = 201
              /\ truthy amount = true
              /\ le_zero amount = false
              /\ (exists history location b,
                     provider history GET (url_arg source) None = Replied location b
                     /\ verified b = true)
              /\ exists record u,
                  transfersStore w' = transfersStore w ++ [record]
                  /\ Transfer.url record = u
                  /\ Transfer.id record = last_segment u
                  /\ Transfer.sourceFundingSourceUrl record = source
                  /\ Transfer.destinationFundingSourceUrl record = destination
                  /\ In (Rest POST (JStr "transfers")
                           (Some (transferBody source destination amount currency)))
                        (trace w')
                  /\ (exists history b,
                         provider history POST (JStr "transfers")
                           (Some (transferBody source destination amount currency))
                         = Replied (Some u) b)
                  /\ json r = obj [("success", Some (JBool true));
                                   ("transfer", Some (obj (Transfer.props record)))])).
Proof.
  intros w source destination amount currency allowUnverified.
  apply post_run.
  match goal with |- post _ _ ?Q _ => set (Outcome := Q) end.
  assert (Hrejected : forall (w1 : World) (msg : string),
             same_registries w w1 -> Outcome (error_response 400 msg) w1).
  { intros w1 msg (Hc & Ht & Hw). unfold Outcome.
    split; [exact Hc |]. split; [exact Hw |]. left. split; [reflexivity | exact Ht]. }
  unfold post_transfers. apply post_try_catch.
  destruct (truthy amount) eqn:Hamount.
  2:{ rewrite !orb_true_r. apply post_ret. apply Hrejected. repeat split. }
  destruct (negb (truthy source) || negb (truthy destination) || negb true).
  { apply post_ret. apply Hrejected. repeat split. }
  destruct (le_zero amount) eqn:Hpositive.
  { apply post_ret. apply Hrejected. repeat split. }
  apply post_bind. unfold post at 1.
  destruct (check_source_spec source w) as (returned & Hfst & Hreg1 & _ & _ & Hstatus).
  pose proof (check_source_passed source w) as Hsource.
  destruct (check_source source w) as [o w1]. simpl in Hfst, Hreg1, Hsource. subst o.
  destruct returned as [r |].
  { apply post_ret. specialize (Hstatus r eq_refl).
    destruct r as [status body]. simpl in Hstatus. subst status.
    destruct Hreg1 as (Hc & Ht & Hw). unfold Outcome.
    split; [exact Hc |]. split; [exact Hw |]. left. split; [reflexivity | exact Ht]. }
  specialize (Hsource eq_refl). clear Hstatus.
  apply post_bind. unfold post at 1.
  destruct (check_destination_spec destination allowUnverified w1)
    as ((returned & Hfst & Hreg2 & _ & _ & Hstatus) & _).
  destruct (check_destination destination allowUnverified w1) as [o w2].
  simpl in Hfst, Hreg2. subst o.
  assert (Hreg : same_registries w w2) by (eapply same_registries_chain; eassumption).
  clear Hreg1 Hreg2.
  destruct returned as [r |].
  { apply post_ret. specialize (Hstatus r eq_refl).
    destruct r as [status body]. simpl in Hstatus. subst status.
    destruct Hreg as (Hc & Ht & Hw). unfold Outcome.
    split; [exact Hc |]. split; [exact Hw |]. left. split; [reflexivity | exact Ht]. }
  clear Hstatus. unfold submit_transfer.
  apply post_bind, post_dwollaRequest.
  2:{ intros e w3 Hreg3 _ _. apply post_ret. apply Hrejected.
      eapply same_registries_chain; eassumption. }
  intros location b w3 Hreg3 _ _ Hin (history & Hanswer).
  apply post_bind, post_dwollaRequest.
  2:{ intros e w4 Hreg4 _ _. apply post_ret. apply Hrejected.
      eapply same_registries_chain; [| eassumption].
      eapply same_registries_chain; eassumption. }
  intros location' transfer w4 Hreg4 Hext4 _ _ _. simpl fst. simpl snd.
  assert (Hreg' : same_registries w w4).
  { eapply same_registries_chain; [| eassumption].
    eapply same_registries_chain; eassumption. }
  apply post_bind, post_as_string;
    [| intros _ e; apply post_ret; apply Hrejected; exact Hreg'].
  intros u Hu.
  apply post_bind, post_prop;
    [intros _ | intros _ e; apply post_ret; apply Hrejected; exact Hreg'].
  apply post_bind, post_prop;
    [intros _ | intros _ e; apply post_ret; apply Hrejected; exact Hreg'].
  apply post_bind, post_prop;
    [intros _ | intros _ e; apply post_ret; apply Hrejected; exact Hreg'].
  apply post_bind, post_update. apply post_ret.
  destruct Hreg' as (Hc & Ht & Hw). unfold Outcome.
  cbn [customersStore transfersStore webhooksStore trace with_transfers].
  split; [exact Hc |]. split; [exact Hw |]. right.
  split; [reflexivity |]. split; [reflexivity |]. split; [reflexivity |].
  split; [exact Hsource |].
  eexists. exists u. rewrite Ht.
  split; [reflexivity |]. split; [reflexivity |]. split; [reflexivity |].
  split; [reflexivity |]. split; [reflexivity |].
  split; [eapply extends_in; eassumption |].
  split; [| reflexivity].
  exists history, b.
  destruct location as [l |]; simpl in Hu; inversion Hu; subst. exact Hanswer.
Qed.


(* --------------------------------------------------------------------- *)
(** *** The routes on one customer or one transfer *)
(* --------------------------------------------------------------------- *)

Lemma restates_refl (w : World) : restates w w.
Proof. repeat split. Qed.

Lemma restates_trans (w1 w2 w3 : World) :
  restates w1 w2 -> restates w2 w3 -> restates w1 w3.
Proof.
  intros (Hc1 & Ht1 & Hw1) (Hc2 & Ht2 & Hw2). repeat split; congruence.
Qed.

Lemma restates_dwollaRequest (m : Method) (url : Json) (body : JsVal) :
  along restates (dwollaRequest m url body).
Proof.
  intros w. destruct (dwollaRequest m url body w) as [o w'] eqn:Hrun.
  apply dwollaRequest_spec in Hrun. destruct Hrun as ((Hc & Ht & Hw) & _).
  simpl. repeat split; congruence.
Qed.

Lemma restates_customer_status (p : Customer.t -> bool) (st : JsVal) :
  along restates (update (with_customers (modify_first p (Customer.set_status st)))).
Proof.
  intros w. split; [| split; reflexivity]. apply map_modify_first. reflexivity.
Qed.

Lemma restates_transfer_status (p : Transfer.t -> bool) (st : JsVal) :
  along restates (update (with_transfers (modify_first p (Transfer.set_status st)))).
Proof.
  intros w. split; [reflexivity | split; [| reflexivity]].
  apply map_modify_first. reflexivity.
Qed.

Ltac restate_step :=
  first
    [ apply restates_dwollaRequest
    | apply restates_customer_status
    | apply restates_transfer_status
    | apply along_prop; exact restates_refl
    | apply along_as_string; exact restates_refl
    | apply along_read; exact restates_refl
    | apply along_ret; exact restates_refl
    | apply along_bind; [exact restates_trans | | intros ?]
    | apply along_try_catch; [exact restates_trans | | intros ?] ].

(** The routes that work on one customer or one transfer never add, remove
    or reorder a record of the registries and never change a field of a
    record other than its status: GET /api/customers/:id, POST
    /api/customers/:id/verify, POST /api/customers/:id/funding-sources,
    POST /api/customers/:id/iav-token and GET /api/transfers/:id. *)
Theorem single_record_routes_change_statuses_only :
  forall (w : World) (id : string)
         (ssn dateOfBirth address1 city state postalCode : JsVal)
         (name routingNumber accountNumber accountType : JsVal),
    restates w (snd (get_customer id w))
    /\ restates w (snd (post_verify id ssn dateOfBirth address1 city state postalCode w))
    /\ restates w (snd (post_funding_source id name routingNumber accountNumber accountType w))
    /\ restates w (snd (post_iav_token id w))
    /\ restates w (snd (get_transfer id w)).
Proof.
  intros w id ssn dateOfBirth address1 city state postalCode
         name routingNumber accountNumber accountType.
  split; [| split; [| split; [| split]]].
  - revert w. change (along restates (get_customer id)).
    unfold get_customer. restate_step; [| restate_step].
    restate_step; [restate_step |].
    match goal with |- along _ (match ?x with _ => _ end) => destruct x end;
      repeat restate_step.
  - revert w.
    change (along restates (post_verify id ssn dateOfBirth address1 city state postalCode)).
    unfold post_verify. restate_step; [| restate_step].
    restate_step; [restate_step |].
    match goal with |- along _ (match ?x with _ => _ end) => destruct x end;
      repeat restate_step.
  - revert w.
    change (along restates
              (post_funding_source id name routingNumber accountNumber accountType)).
    unfold post_funding_source. restate_step; [| restate_step].
    restate_step; [restate_step |].
    match goal with |- along _ (match ?x with _ => _ end) => destruct x end;
      [| restate_step].
    destruct (negb (truthy name)); repeat restate_step.
  - revert w. change (along restates (post_iav_token id)).
    unfold post_iav_token. restate_step; [| restate_step].
    restate_step; [restate_step |].
    match goal with |- along _ (match ?x with _ => _ end) => destruct x end;
      repeat restate_step.
  - revert w. change (along restates (get_transfer id)).
    unfold get_transfer. restate_step; [| restate_step].
    restate_step; [restate_step |].
    match goal with |- along _ (match ?x with _ => _ end) => destruct x end;
      repeat restate_step.
Qed.


(* --------------------------------------------------------------------- *)
(** *** GET /api/customers/:id and GET /api/transfers/:id: the refreshed status *)
(* --------------------------------------------------------------------- *)

Lemma find_modify_first {A} (p : A -> bool) (f : A -> A) (xs : list A) (x : A) :
  find p xs = Some x ->
  p (f x) = true ->
  find p (modify_first p f xs) = Some (f x).
Proof.
  intros Hfind Hp. induction xs as [| y rest IH]; simpl in *; [discriminate |].
  destruct (p y) eqn:Hy.
  - inversion Hfind; subst y. simpl. rewrite Hp. reflexivity.
  - simpl. rewrite Hy. apply IH. exact Hfind.
Qed.

Lemma find_split {A} (p : A -> bool) (xs : list A) (x : A) :
  find p xs = Some x ->
  exists before after,
    xs = before ++ x :: after
    /\ p x = true
    /\ forall y, In y before -> p y = false.
Proof.
  induction xs as [| y rest IH]; simpl; [discriminate |].
  destruct (p y) eqn:Hy; intros Hfind.
  - inversion Hfind; subst y. exists [], rest. split; [reflexivity |].
    split; [exact Hy |]. intros z [].
  - destruct (IH Hfind) as (before & after & -> & Hx & Hbefore).
    exists (y :: before), after. split; [reflexivity |]. split; [exact Hx |].
    intros z [<- | Hz]; [exact Hy | apply Hbefore; exact Hz].
Qed.

(** GET /api/customers/:id always answers, with 404, 500 or 200, and never
    touches the transfers or the received events.  With 404 and 500 the
    customers are as they were.  With 200 the customer was found in the
    registry, the provider has been asked for the resource at the url of
    the record and has answered; the first record with this id is replaced,
    in its place, by a record whose status is the status of the provider's
    answer and whose other fields are as before, so that the next lookup of
    the id finds the record with the provider's status, and the answer
    carries that record together with the provider's data. *)
Theorem get_customer_outcomes :
  forall (w : World) (id : string),
    exists r w',
      get_customer id w = (Ok r, w')
      /\ transfersStore w' = transfersStore w
      /\ webhooksStore w' = webhooksStore w
      /\ ((http_status r = 404
           /\ find_customer id (customersStore w) = None
           /\ customersStore w' = customersStore w)
          \/ (http_status r = 500
              /\ find_customer id (customersStore w) <> None
              /\ customersStore w' = customersStore w)
          \/ (http_status r = 200
              /\ exists c c' before after history location b,
                  find_customer id (customersStore w) = Some c
                  /\ customersStore w = before ++ c :: after
                  /\ Customer.id c = id
                  /\ (forall x, In x before -> Customer.id x <> id)
                  /\ In (Rest GET (JStr (Customer.url c)) None) (trace w')
                  /\ provider history GET (JStr (Customer.url c)) None = Replied location b
                  /\ customersStore w' = before ++ c' :: after
                  /\ Customer.status c' = opt_get b "status"
                  /\ same_customer_but_status c c'
                  /\ find_customer id (customersStore w') = Some c'
                  /\ json r
                     = obj [("customer",
                             Some (obj (Customer.props c' ++ [("dwollaData", b)])))])).
Proof.
  intros w id. apply post_run.
  match goal with |- post _ _ ?Q _ => set (Outcome := Q) end.
  unfold get_customer. apply post_try_catch. apply post_bind, post_read.
  destruct (find_customer id (customersStore w)) as [c |] eqn:Hfind.
  2:{ apply post_ret. unfold Outcome. split; [reflexivity |]. split; [reflexivity |].
      left. repeat split. }
  assert (Hfailed : forall w1 : World,
             same_registries w w1 ->
             Outcome (error_response 500 "Failed to get customer details") w1).
  { intros w1 (Hc & Ht & Hw). unfold Outcome. split; [exact Ht |]. split; [exact Hw |].
    right. left. split; [reflexivity |]. split; [| exact Hc].
    discriminate. }
  apply post_bind, post_dwollaRequest.
  2:{ intros e w1 Hreg _ _. apply post_ret. apply Hfailed. exact Hreg. }
  intros location b w1 Hreg _ _ Hin (history & Hanswer). simpl snd.
  apply post_bind, post_prop; [intros _ | intros _ e; apply post_ret; apply Hfailed; exact Hreg].
  apply post_bind, post_update. apply post_ret.
  destruct Hreg as (Hc & Ht & Hw). unfold Outcome.
  cbn [customersStore transfersStore webhooksStore trace with_customers].
  split; [exact Ht |]. split; [exact Hw |]. right. right.
  split; [reflexivity |].
  unfold find_customer in Hfind.
  destruct (find_split _ _ _ Hfind) as (before & after & Hsplit & Hid & Hbefore).
  assert (Hstore : modify_first (has_id id) (Customer.set_status (opt_get b "status"))
                     (customersStore w)
                   = before ++ Customer.set_status (opt_get b "status") c :: after).
  { rewrite Hsplit. apply modify_first_at; [exact Hbefore | exact Hid]. }
  exists c, (Customer.set_status (opt_get b "status") c), before, after,
         history, location, b.
  rewrite Hc, Hstore.
  split; [reflexivity |]. split; [exact Hsplit |].
  split; [apply String.eqb_eq; exact Hid |].
  split; [intros x Hx; apply String.eqb_neq; apply Hbefore; exact Hx |].
  split; [exact Hin |]. split; [exact Hanswer |]. split; [reflexivity |].
  split; [reflexivity |]. split; [repeat split |]. split; [| reflexivity].
  rewrite <- Hstore. unfold find_customer.
  apply (find_modify_first (has_id id)); [exact Hfind | exact Hid].
Qed.

(** GET /api/transfers/:id always answers, with 404, 500 or 200, and never
    touches the customers or the received events.  An id that is not in the
    transfers registry is answered with 404 and the state is left as it
    was: nothing is sent to the provider.  With 500 the transfers are as
    they were.  With 200 the provider has been asked for the resource at
    the url of the record and has answered; the first record with this id
    is replaced, in its place, by a record whose status is the status of
    the provider's answer and whose other fields are as before, so that the
    next lookup of the id finds the record with the provider's status, and
    the answer carries that record together with the provider's data. *)
Theorem get_transfer_outcomes :
  forall (w : World) (id : string),
    exists r w',
      get_transfer id w = (Ok r, w')
      /\ customersStore w' = customersStore w
      /\ webhooksStore w' = webhooksStore w
      /\ ((http_status r = 404
           /\ find_transfer id (transfersStore w) = None
           /\ w' = w)
          \/ (http_status r = 500
              /\ find_transfer id (transfersStore w) <> None
              /\ transfersStore w' = transfersStore w)
          \/ (http_status r = 200
              /\ exists x x' before after history location b,
                  find_transfer id (transfersStore w) = Some x
                  /\ transfersStore w = before ++ x :: after
                  /\ Transfer.id x = id
                  /\ (forall y, In y before -> Transfer.id y <> id)
                  /\ In (Rest GET (JStr (Transfer.url x)) None) (trace w')
                  /\ provider history GET (JStr (Transfer.url x)) None = Replied location b
                  /\ transfersStore w' = before ++ x' :: after
                  /\ Transfer.status x' = opt_get b "status"
                  /\ same_transfer_but_status x x'
                  /\ find_transfer id (transfersStore w') = Some x'
                  /\ json r
                     = obj [("transfer",
                             Some (obj (Transfer.props x' ++ [("dwollaData", b)])))])).
Proof.
  intros w id. apply post_run.
  match goal with |- post _ _ ?Q _ => set (Outcome := Q) end.
  unfold get_transfer. apply post_try_catch. apply post_bind, post_read.
  destruct (find_transfer id (transfersStore w)) as [x |] eqn:Hfind.
  2:{ apply post_ret. unfold Outcome. split; [reflexivity |]. split; [reflexivity |].
      left. repeat split. }
  assert (Hfailed : forall w1 : World,
             same_registries w w1 ->
             Outcome (error_response 500 "Failed to get transfer details") w1).
  { intros w1 (Hc & Ht & Hw). unfold Outcome. split; [exact Hc |]. split; [exact Hw |].
    right. left. split; [reflexivity |]. split; [| exact Ht].
    discriminate. }
  apply post_bind, post_dwollaRequest.
  2:{ intros e w1 Hreg _ _. apply post_ret. apply Hfailed. exact Hreg. }
  intros location b w1 Hreg _ _ Hin (history & Hanswer). simpl snd.
  apply post_bind, post_prop; [intros _ | intros _ e; apply post_ret; apply Hfailed; exact Hreg].
  apply post_bind, post_update. apply post_ret.
  destruct Hreg as (Hc & Ht & Hw). unfold Outcome.
  cbn [customersStore transfersStore webhooksStore trace with_transfers].
  split; [exact Hc |]. split; [exact Hw |]. right. right.
  split; [reflexivity |].
  unfold find_transfer in Hfind.
  destruct (find_split _ _ _ Hfind) as (before & after & Hsplit & Hid & Hbefore).
  assert (Hstore : modify_first (has_transfer_id id)
                     (Transfer.set_status (opt_get b "status")) (transfersStore w)
                   = before ++ Transfer.set_status (opt_get b "status") x :: after).
  { rewrite Hsplit. apply modify_first_at; [exact Hbefore | exact Hid]. }
  exists x, (Transfer.set_status (opt_get b "status") x), before, after,
         history, location, b.
  rewrite Ht, Hstore.
  split; [reflexivity |]. split; [exact Hsplit |].
  split; [apply String.eqb_eq; exact Hid |].
  split; [intros y Hy; apply String.eqb_neq; apply Hbefore; exact Hy |].
  split; [exact Hin |]. split; [exact Hanswer |]. split; [reflexivity |].
  split; [reflexivity |]. split; [repeat split |]. split; [| reflexivity].
  rewrite <- Hstore. unfold find_transfer.
  apply find_modify_first; [exact Hfind | exact Hid].
Qed.


(* --------------------------------------------------------------------- *)
(** *** GET /api/customers: the registry mirrors the provider's list *)
(* --------------------------------------------------------------------- *)

(** [xs.map(f)] for an [f] that leaves the state alone. *)
Lemma post_mapM {A B} (f : A -> M B) (P : A -> B -> Prop) (xs : list A) (w : World) :
  (forall x, post (f x) w (fun y w' => w' = w /\ P x y) (fun _ w' => w' = w)) ->
  post (mapM f xs) w (fun ys w' => w' = w /\ Forall2 P xs ys) (fun _ w' => w' = w).
Proof.
  intros Hf. induction xs as [| x xs IH]; simpl mapM.
  - apply post_ret. split; [reflexivity | constructor].
  - apply post_bind. eapply post_weaken; [apply Hf | | intros e w' H; exact H].
    intros y w' [-> Hy]. apply post_bind.
    eapply post_weaken; [exact IH | | intros e w' H; exact H].
    intros ys w' [-> Hys]. apply post_ret. split; [reflexivity |].
    constructor; assumption.
Qed.

Lemma customerFromProvider_record (j : Json) (w : World) :
  post (customerFromProvider j) w
    (fun c w' => w' = w /\ record_of j c) (fun _ w' => w' = w).
Proof.
  unfold customerFromProvider.
  apply post_bind, post_prop; [intros Hj | intros; reflexivity].
  apply post_bind, post_prop; [intros _ | intros; reflexivity].
  apply post_bind, post_prop; [intros _ | intros; reflexivity].
  apply post_bind, post_as_string; [| intros; reflexivity].
  intros u Hu. apply post_ret. split; [reflexivity |].
  unfold record_of. cbn [Customer.id Customer.url Customer.firstName Customer.lastName
                           Customer.email Customer.phone Customer.type Customer.status
                           Customer.createdAt].
  split; [| repeat split].
  destruct j; try discriminate Hj; exact Hu.
Qed.

(** GET /api/customers always answers, with 500 or with 200, and never
    touches the transfers or the received events.  With 500 the customers
    registry is as it was.  With 200 the registry has been replaced by the
    provider's list: it holds one record for each customer the provider
    listed, in the provider's order, whatever it held before, and the answer
    lists exactly the records of the registry. *)
Theorem get_customers_outcomes :
  forall (w : World),
    exists r w',
      get_customers w = (Ok r, w')
      /\ transfersStore w' = transfersStore w
      /\ webhooksStore w' = webhooksStore w
      /\ ((http_status r = 500 /\ customersStore w' = customersStore w)
          \/ (http_status r = 200
              /\ (exists history location b listed,
                     provider history GET (JStr "customers?limit=200") None
                     = Replied location b
                     /\ or_else (opt_get (opt_get b "_embedded") "customers")
                          (Some (JArr []))
                        = Some (JArr listed)
                     /\ Forall2 record_of listed (customersStore w'))
              /\ json r
                 = obj [("customers",
                         Some (JArr (map (fun c => obj (Customer.props c))
                                       (customersStore w'))))])).
Proof.
  intros w. apply post_run.
  match goal with |- post _ _ ?Q _ => set (Outcome := Q) end.
  assert (Hfailed : forall w1 : World,
             same_registries w w1 ->
             Outcome (error_response 500 "Failed to list customers from Dwolla") w1).
  { intros w1 (Hc & Ht & Hw). unfold Outcome. split; [exact Ht |]. split; [exact Hw |].
    left. split; [reflexivity | exact Hc]. }
  unfold get_customers. apply post_try_catch.
  apply post_bind, post_dwollaRequest.
  2:{ intros e w1 Hreg _ _. apply post_ret. apply Hfailed. exact Hreg. }
  intros location b w1 Hreg _ _ _ (history & Hanswer). simpl snd.
  apply post_bind, post_prop; [intros _ | intros _ e; apply post_ret; apply Hfailed; exact Hreg].
  apply post_bind, post_as_array; [| intros e; apply post_ret; apply Hfailed; exact Hreg].
  intros listed Hlisted.
  apply post_bind.
  eapply post_weaken; [apply (post_mapM customerFromProvider record_of) | |].
  - intros j. apply customerFromProvider_record.
  - intros customers w2 [-> Hrecords]. apply post_bind, post_update. apply post_ret.
    destruct Hreg as (Hc & Ht & Hw). unfold Outcome.
    cbn [customersStore transfersStore webhooksStore with_customers].
    split; [exact Ht |]. split; [exact Hw |]. right.
    split; [reflexivity |]. split; [| reflexivity].
    exists history, location, b, listed. repeat split; assumption.
  - intros e w2 ->. apply post_ret. apply Hfailed. exact Hreg.
Qed.


(* --------------------------------------------------------------------- *)
(** *** The listings of funding sources *)
(* --------------------------------------------------------------------- *)

(** [xs.filter(f)] for an [f] that leaves the state alone. *)
Lemma post_filterM {A} (f : A -> M bool) (p : A -> bool) (xs : list A) (w : World) :
  (forall x, post (f x) w (fun b w' => w' = w /\ b = p x) (fun _ w' => w' = w)) ->
  post (filterM f xs) w (fun kept w' => w' = w /\ kept = filter p xs) (fun _ w' => w' = w).
Proof.
  intros Hf. induction xs as [| x xs IH]; simpl filterM.
  - apply post_ret. split; reflexivity.
  - apply post_bind. eapply post_weaken; [apply Hf | | intros e w' H; exact H].
    intros b w' [-> ->]. apply post_bind.
    eapply post_weaken; [exact IH | | intros e w' H; exact H].
    intros kept w' [-> ->]. apply post_ret. split; reflexivity.
Qed.

Lemma not_removed_kept (fs : Json) (w : World) :
  post (not_removed fs) w (fun b w' => w' = w /\ b = kept_source fs) (fun _ w' => w' = w).
Proof.
  unfold not_removed. apply post_bind, post_prop; [intros Hfs | intros; reflexivity].
  apply post_ret. split; [reflexivity |]. destruct fs; try discriminate Hfs; reflexivity.
Qed.

Lemma fundingSourceView_view (with_created : bool) (fs : Json) (w : World) :
  post (fundingSourceView with_created fs) w
    (fun v w' => w' = w /\ view_of with_created fs v) (fun _ w' => w' = w).
Proof.
  unfold fundingSourceView.
  apply post_bind, post_prop; [intros Hfs | intros; reflexivity].
  apply post_bind, post_prop; [intros _ | intros; reflexivity].
  apply post_bind, post_prop; [intros _ | intros; reflexivity].
  apply post_bind, post_as_string; [| intros; reflexivity].
  intros href Hhref. apply post_ret. split; [reflexivity |].
  exists href. split.
  - destruct fs; try discriminate Hfs; exact Hhref.
  - rewrite Hhref. reflexivity.
Qed.

(** [bind] is associative. *)
Lemma post_bind_assoc {A B C} (m : M A) (f : A -> M B) (k : B -> M C) (w : World) Q E :
  post (bind (bind m f) k) w Q E -> post (bind m (fun a => bind (f a) k)) w Q E.
Proof.
  unfold post, bind. destruct (m w) as [[a | e] w1]; intros H; exact H.
Qed.

(** The two statements shared by the listings: the sources that are not
    removed are kept, in order, and each one is turned into its view. *)
Lemma listing_views (with_created : bool) (b : JsVal) (w : World) :
  post (bind (listed_funding_sources b) (mapM (fundingSourceView with_created))) w
    (fun views w' =>
       w' = w
       /\ exists all,
           embedded_sources b = Some (JArr all)
           /\ Forall2 (view_of with_created) (filter kept_source all) views)
    (fun _ w' => w' = w).
Proof.
  apply post_bind. unfold listed_funding_sources.
  apply post_bind, post_prop; [intros _ | intros; reflexivity].
  apply post_bind, post_prop; [intros _ | intros; reflexivity].
  apply post_bind, post_as_array; [| intros; reflexivity].
  intros all Hall.
  eapply post_weaken; [apply (post_filterM not_removed kept_source) | |].
  - intros fs. apply not_removed_kept.
  - intros kept w' [-> ->].
    eapply post_weaken;
      [apply (post_mapM (fundingSourceView with_created) (view_of with_created)) | |].
    + intros fs. apply fundingSourceView_view.
    + intros views w' [-> Hviews]. split; [reflexivity |]. exists all. split; assumption.
    + intros e w' H. exact H.
  - intros e w' H. exact H.
Qed.

(** GET /api/customers/:id/funding-sources answers 404, 500 or 200.  With
    200 the customer was found in the registry, the provider has answered
    the list of its funding sources, and the answer holds the view of each
    source of that list that is not marked as removed, in the provider's
    order, and of nothing else: a removed funding source is never
    returned. *)
Theorem get_funding_sources_outcomes :
  forall (w : World) (id : string),
    exists r w',
      get_funding_sources id w = (Ok r, w')
      /\ ((http_status r = 404 /\ find_customer id (customersStore w) = None)
          \/ http_status r = 500
          \/ (http_status r = 200
              /\ exists c history location b all views,
                  find_customer id (customersStore w) = Some c
                  /\ provider history GET (JStr (Customer.url c ++ "/funding-sources")) None
                     = Replied location b
                  /\ embedded_sources b = Some (JArr all)
                  /\ Forall2 (view_of true) (filter kept_source all) views
                  /\ json r = obj [("fundingSources", Some (JArr views))])).
Proof.
  intros w id. apply post_run.
  match goal with |- post _ _ ?Q _ => set (Outcome := Q) end.
  unfold get_funding_sources. apply post_try_catch. apply post_bind, post_read.
  destruct (find_customer id (customersStore w)) as [c |] eqn:Hfind.
  2:{ apply post_ret. left. split; reflexivity. }
  apply post_bind, post_dwollaRequest.
  2:{ intros e w1 _ _ _. apply post_ret. right. left. reflexivity. }
  intros location b w1 _ _ _ _ (history & Hanswer). simpl snd.
  apply post_bind_assoc.
  apply post_bind.
  eapply post_weaken; [apply listing_views | |].
  - intros views w2 [-> (all & Hall & Hviews)]. apply post_ret. right. right.
    split; [reflexivity |]. exists c, history, location, b, all, views.
    repeat split; assumption.
  - intros e w2 _. apply post_ret. right. left. reflexivity.
Qed.


(* --------------------------------------------------------------------- *)
(** *** The eligible customers *)
(* --------------------------------------------------------------------- *)

Lemma listed_funding_sources_kept (b : JsVal) (w : World) :
  post (listed_funding_sources b) w
    (fun kept w' =>
       w' = w /\ exists all, embedded_sources b = Some (JArr all)
                             /\ kept = filter kept_source all)
    (fun _ w' => w' = w).
Proof.
  unfold listed_funding_sources.
  apply post_bind, post_prop; [intros _ | intros; reflexivity].
  apply post_bind, post_prop; [intros _ | intros; reflexivity].
  apply post_bind, post_as_array; [| intros; reflexivity].
  intros all Hall.
  eapply post_weaken; [apply (post_filterM not_removed kept_source) | |].
  - intros fs. apply not_removed_kept.
  - intros kept w' [-> ->]. split; [reflexivity |]. exists all. split; [exact Hall | reflexivity].
  - intros e w' H. exact H.
Qed.

Lemma filter_eligible_all (xs : list Json) : filter (eligible_source true) xs = xs.
Proof.
  induction xs as [| x xs IH]; simpl; [reflexivity |]. rewrite IH. reflexivity.
Qed.

Lemma eligible_entry_sound (includeUnverified : bool) (c : Json) (url : string) (w : World) :
  is_str (get c "status") "verified" = true ->
  opt_get (opt_get (get c "_links") "self") "href" = str url ->
  post (eligible_entry includeUnverified c url) w
    (fun entry _ => forall e, entry = Some e -> eligible_as includeUnverified c e)
    (fun _ _ => True).
Proof.
  intros Hverified Hurl. unfold eligible_entry.
  apply post_bind, post_dwollaRequest; [| intros; exact I].
  intros location b w1 _ _ _ _ (history & Hanswer). simpl snd.
  apply post_bind.
  eapply post_weaken; [apply listed_funding_sources_kept | | intros; exact I].
  intros kept w2 [-> (all & Hall & ->)].
  apply post_bind.
  assert (Heligible :
            post (if includeUnverified
                  then ret (filter kept_source all)
                  else filterM (fun fs => let* st := prop (Some fs) "status" in
                                          ret (is_str st "verified"))
                         (filter kept_source all)) w1
              (fun sources w' =>
                 w' = w1
                 /\ sources = filter (eligible_source includeUnverified)
                                (filter kept_source all))
              (fun _ w' => w' = w1)).
  { destruct includeUnverified.
    - apply post_ret. split; [reflexivity |]. symmetry. apply filter_eligible_all.
    - apply post_filterM. intros fs.
      apply post_bind, post_prop; [intros Hfs | intros; reflexivity].
      apply post_ret. split; [reflexivity |].
      destruct fs; try discriminate Hfs; reflexivity. }
  eapply post_weaken; [exact Heligible | | intros; exact I].
  intros sources w2 [-> ->].
  destruct (0 <? length _)%nat eqn:Hlength.
  - apply post_bind.
    eapply post_weaken;
      [apply (post_mapM (fundingSourceView false) (view_of false)) | | intros; exact I].
    + intros fs. apply fundingSourceView_view.
    + intros views w2 [-> Hviews]. apply post_ret. intros e He. inversion He; subst e.
      split; [exact Hverified |].
      exists url, history, location, b, all, views.
      split; [exact Hurl |]. split; [exact Hanswer |]. split; [exact Hall |].
      split; [exact Hviews |]. split; [| reflexivity].
      intros ->. inversion Hviews as [Hnil |]. rewrite <- Hnil in Hlength. discriminate.
  - apply post_ret. discriminate.
Qed.

Lemma eligible_loop_sound (includeUnverified : bool) (listed : list Json) :
  forall (customers acc : list Json) (w : World),
    incl customers listed ->
    Forall (fun e => exists c, In c listed /\ eligible_as includeUnverified c e) acc ->
    post (eligible_loop includeUnverified customers acc) w
      (fun entries _ =>
         Forall (fun e => exists c, In c listed /\ eligible_as includeUnverified c e) entries)
      (fun _ _ => True).
Proof.
  induction customers as [| c rest IH]; intros acc w Hincl Hacc; cbn [eligible_loop].
  - apply post_ret. exact Hacc.
  - assert (Hc : In c listed) by (apply Hincl; left; reflexivity).
    assert (Hrest : incl rest listed) by (intros x Hx; apply Hincl; right; exact Hx).
    apply post_bind, post_prop; [intros Hpresent | intros; exact I].
    destruct (is_str (opt_get (Some c) "status") "verified") eqn:Hverified; cbn [negb];
      [| apply IH; assumption].
    apply post_bind, post_prop; [intros _ | intros; exact I].
    apply post_bind, post_prop; [intros _ | intros; exact I].
    apply post_bind, post_prop; [intros _ | intros; exact I].
    apply post_bind, post_as_string; [| intros; exact I].
    intros url Hurl.
    assert (Hstatus : is_str (get c "status") "verified" = true).
    { destruct c; try discriminate Hpresent; exact Hverified. }
    assert (Hhref : opt_get (opt_get (get c "_links") "self") "href" = str url).
    { destruct c; try discriminate Hpresent; exact Hurl. }
    apply post_bind, post_try_catch, post_bind.
    eapply post_weaken; [apply eligible_entry_sound; eassumption | |].
    + intros entry w1 Hentry. destruct entry as [e |]; apply post_ret; apply IH;
        try assumption.
      apply Forall_app. split; [exact Hacc |]. constructor; [| constructor].
      exists c. split; [exact Hc | apply Hentry; reflexivity].
    + intros e w1 _. apply post_ret. apply IH; assumption.
Qed.

(** The handler of the eligible customers always answers, with 500 or with
    200.  With 200 every entry of the answer is built for a customer of the
    provider's list that is verified and has at least one funding source
    that is not removed and, unless [includeUnverified] is the string
    "true", verified; the entry carries the views of exactly those funding
    sources.  An unverified customer, and a customer without such a funding
    source, is never offered. *)
Theorem get_eligible_customers_outcomes :
  forall (w : World) (includeUnverified : JsVal),
    exists r w',
      get_eligible_customers includeUnverified w = (Ok r, w')
      /\ (http_status r = 500
          \/ (http_status r = 200
              /\ exists history location b listed entries,
                  provider history GET (JStr "customers?limit=200") None
                  = Replied location b
                  /\ fst (iterate (or_else (opt_get (opt_get b "_embedded") "customers")
                                     (Some (JArr []))) w)
                     = Ok listed
                  /\ Forall (fun e =>
                               exists c,
                                 In c listed
                                 /\ eligible_as (is_str includeUnverified "true") c e)
                       entries
                  /\ json r = obj [("customers", Some (JArr entries))])).
Proof.
  intros w includeUnverified. apply post_run.
  match goal with |- post _ _ ?Q _ => set (Outcome := Q) end.
  unfold get_eligible_customers. apply post_try_catch. cbv zeta.
  apply post_bind, post_dwollaRequest.
  2:{ intros e w1 _ _ _. apply post_ret. left. reflexivity. }
  intros location b w1 _ _ _ _ (history & Hanswer). simpl snd.
  apply post_bind, post_prop; [intros _ | intros _ e; apply post_ret; left; reflexivity].
  apply post_bind.
  assert (Hiterate : forall listed,
             fst (iterate (or_else (opt_get (opt_get b "_embedded") "customers")
                             (Some (JArr []))) w) = Ok listed ->
             post (bind (eligible_loop (is_str includeUnverified "true") listed [])
                     (fun eligibleCustomers =>
                        ret (respond 200
                               (obj [("customers", Some (JArr eligibleCustomers))])))) w1
               Outcome
               (fun e w2 =>
                  post (ret (error_response 500 "Failed to get eligible customers")) w2
                    Outcome (fun _ _ => False))).
  { intros listed Hlisted. apply post_bind.
    eapply post_weaken;
      [apply (eligible_loop_sound (is_str includeUnverified "true") listed listed []) | |].
    - apply incl_refl.
    - constructor.
    - intros entries w2 Hentries. apply post_ret. right. split; [reflexivity |].
      exists history, location, b, listed, entries. repeat split; assumption.
    - intros e w2 _. apply post_ret. left. reflexivity. }
  unfold iterate in *.
  destruct (or_else (opt_get (opt_get b "_embedded") "customers") (Some (JArr [])))
    as [[| | | s | xs |] |];
    first [ apply post_throw; apply post_ret; left; reflexivity
          | apply post_ret; apply Hiterate; reflexivity ].
Qed.


(* --------------------------------------------------------------------- *)
(** *** The master account *)
(* --------------------------------------------------------------------- *)

(** [xs.find(f)] for an [f] that leaves the state alone. *)
Lemma post_findM {A} (f : A -> M bool) (p : A -> bool) (xs : list A) (w : World) :
  (forall x, post (f x) w (fun b w' => w' = w /\ b = p x) (fun _ w' => w' = w)) ->
  post (findM f xs) w (fun found w' => w' = w /\ found = find p xs) (fun _ w' => w' = w).
Proof.
  intros Hf. induction xs as [| x xs IH]; simpl findM.
  - apply post_ret. split; reflexivity.
  - apply post_bind. eapply post_weaken; [apply Hf | | intros e w' H; exact H].
    intros b w' [-> ->]. simpl find. destruct (p x).
    + apply post_ret. split; reflexivity.
    + exact IH.
Qed.

Lemma accountUrl_answer (w : World) :
  post accountUrl w
    (fun url _ =>
       exists history location root,
         provider history GET (JStr "/") None = Replied location root
         /\ url = account_href root)
    (fun _ _ => True).
Proof.
  unfold accountUrl.
  apply post_bind, post_dwollaRequest; [| intros; exact I].
  intros location root w1 _ _ _ _ (history & Hanswer). simpl snd.
  apply post_bind, post_prop; [intros _ | intros; exact I].
  apply post_bind, post_prop; [intros _ | intros; exact I].
  apply post_prop; [intros _ | intros; exact I].
  exists history, location, root. split; [exact Hanswer | reflexivity].
Qed.

(** GET /api/me/funding-sources answers 500 or 200.  With 200 the provider
    has answered the root resource and the list of funding sources under
    the account url it names, and the answer holds the view of each source
    of that list that is not marked as removed, in the provider's order, and
    of nothing else. *)
Theorem get_me_funding_sources_outcomes :
  forall (w : World),
    exists r w',
      get_me_funding_sources w = (Ok r, w')
      /\ (http_status r = 500
          \/ (http_status r = 200
              /\ exists history location root history' location' b all views,
                  provider history GET (JStr "/") None = Replied location root
                  /\ provider history' GET
                       (JStr (template (account_href root) ++ "/funding-sources")) None
                     = Replied location' b
                  /\ embedded_sources b = Some (JArr all)
                  /\ Forall2 (view_of false) (filter kept_source all) views
                  /\ json r = obj [("fundingSources", Some (JArr views))])).
Proof.
  intros w. apply post_run.
  match goal with |- post _ _ ?Q _ => set (Outcome := Q) end.
  unfold get_me_funding_sources. apply post_try_catch. apply post_bind.
  eapply post_weaken; [apply accountUrl_answer | |].
  2:{ intros e w1 _. apply post_ret. left. reflexivity. }
  intros url w1 (history & location & root & Hroot & ->).
  apply post_bind, post_dwollaRequest.
  2:{ intros e w2 _ _ _. apply post_ret. left. reflexivity. }
  intros location' b w2 _ _ _ _ (history' & Hanswer). simpl snd.
  apply post_bind_assoc. apply post_bind.
  eapply post_weaken; [apply listing_views | |].
  - intros views w3 [-> (all & Hall & Hviews)]. apply post_ret. right.
    split; [reflexivity |].
    exists history, location, root, history', location', b, all, views.
    repeat split; assumption.
  - intros e w3 _. apply post_ret. left. reflexivity.
Qed.

(** GET /api/me/balance answers 500 or 200.  With 200 the answer is either
    the notice that no balance is available, when the account's list of
    funding sources has no source of type "balance" or the first such
    source has no balance link; or the [balance] and [total] of the
    provider's answer to the balance link of the first source of type
    "balance". *)
Theorem get_me_balance_outcomes :
  forall (w : World),
    exists r w',
      get_me_balance w = (Ok r, w')
      /\ (http_status r = 500
          \/ exists history location root history' location' b all,
              provider history GET (JStr "/") None = Replied location root
              /\ provider history' GET
                   (JStr (template (account_href root) ++ "/funding-sources")) None
                 = Replied location' b
              /\ embedded_sources b = Some (JArr all)
              /\ ((r = balance_unavailable
                   /\ (find balance_source all = None
                       \/ exists source,
                           find balance_source all = Some source
                           /\ truthy (balance_href source) = false))
                  \/ (http_status r = 200
                      /\ exists source history'' location'' answer,
                          find balance_source all = Some source
                          /\ truthy (balance_href source) = true
                          /\ provider history'' GET (url_arg (balance_href source)) None
                             = Replied location'' answer
                          /\ json r = obj [("balance", opt_get answer "balance");
                                           ("total", opt_get answer "total")]))).
Proof.
  intros w. apply post_run.
  match goal with |- post _ _ ?Q _ => set (Outcome := Q) end.
  assert (Hfailed : forall w1 : World,
             post (ret (error_response 500 "Failed to get balance")) w1 Outcome
               (fun _ _ => False)).
  { intros w1. apply post_ret. left. reflexivity. }
  unfold get_me_balance. apply post_try_catch. apply post_bind.
  eapply post_weaken; [apply accountUrl_answer | | intros e w1 _; apply Hfailed].
  intros url w1 (history & location & root & Hroot & ->).
  apply post_bind, post_dwollaRequest; [| intros e w2 _ _ _; apply Hfailed].
  intros location' b w2 _ _ _ _ (history' & Hanswer). simpl snd.
  apply post_bind, post_prop; [intros _ | intros _ e; apply Hfailed].
  apply post_bind, post_prop; [intros _ | intros _ e; apply Hfailed].
  apply post_bind, post_as_array; [| intros e; apply Hfailed].
  intros all Hall. apply post_bind.
  eapply post_weaken;
    [apply (post_findM is_balance balance_source) | | intros e w3 _; apply Hfailed].
  { intros fs. unfold is_balance.
    apply post_bind, post_prop; [intros Hfs | intros; reflexivity].
    apply post_ret. split; [reflexivity |].
    destruct fs; try discriminate Hfs; reflexivity. }
  intros found w3 [-> Hfound].
  destruct found as [source |].
  2:{ apply post_ret. right. exists history, location, root, history', location', b, all.
      split; [exact Hroot |]. split; [exact Hanswer |]. split; [exact Hall |].
      left. split; [reflexivity |]. left. symmetry. exact Hfound. }
  apply post_bind, post_prop; [intros Hlinks | intros _ e; apply Hfailed].
  fold (balance_href source).
  destruct (truthy (balance_href source)) eqn:Hlink.
  2:{ apply post_ret. right. exists history, location, root, history', location', b, all.
      split; [exact Hroot |]. split; [exact Hanswer |]. split; [exact Hall |].
      left. split; [reflexivity |]. right. exists source.
      split; [symmetry; exact Hfound | exact Hlink]. }
  apply post_bind, post_dwollaRequest; [| intros e w4 _ _ _; apply Hfailed].
  intros location'' answer w4 _ _ _ _ (history'' & Hbalance). simpl snd.
  apply post_bind, post_prop; [intros _ | intros _ e; apply Hfailed].
  apply post_bind, post_prop; [intros _ | intros _ e; apply Hfailed].
  apply post_ret. right. exists history, location, root, history', location', b, all.
  split; [exact Hroot |]. split; [exact Hanswer |]. split; [exact Hall |].
  right. split; [reflexivity |]. exists source, history'', location'', answer.
  split; [symmetry; exact Hfound |]. split; [exact Hlink |].
  split; [exact Hbalance | reflexivity].
Qed.


(* --------------------------------------------------------------------- *)
(** *** A token just obtained *)
(* --------------------------------------------------------------------- *)

Lemma token_fresh_after (now created lifetime : Z) (cfg : DwollaConfig) :
  tokenCreatedAt cfg = Some created ->
  expiresIn cfg = Some lifetime ->
  (now - created < 1000 * (lifetime - 60))%Z ->
  token_fresh now cfg.
Proof.
  intros Hcreated Hlifetime Hearly. unfold token_fresh.
  rewrite tokenAge_value, Hcreated, Hlifetime.
  unfold Qlt, inject_Z. simpl. lia.
Qed.

(** A token obtained from the provider is reused by the next call, which
    then sends nothing, provided the token is not the empty string and the
    next reading of the clock falls within its lifetime less 60 seconds.
    An empty token is never reused: the next call asks the provider
    again. *)
Theorem refreshed_token_is_reused_unless_empty :
  forall (w : World) (c : Client) (response : TokenResponse),
    credentials_configured (dwollaConfig w) ->
    no_token_or_old (clock (ticks w)) (dwollaConfig w) ->
    dwollaClient w = Some c ->
    auth (trace w) c = Some response ->
    let first := getValidAccessToken w in
    let second := getValidAccessToken (snd first) in
    fst first = Ok (Some (access_token response))
    /\ trace (snd first) = AuthClient :: trace w
    /\ (access_token response <> "" ->
        (clock (S (S (ticks w))) - clock (S (ticks w))
         < 1000 * (expires_in response - 60))%Z ->
        fst second = Ok (Some (access_token response))
        /\ trace (snd second) = trace (snd first))
    /\ (access_token response = "" ->
        trace (snd second) = AuthClient :: trace (snd first)).
Proof.
  intros w c response [Hkey Hsecret] Hold Hclient Hauth. cbv zeta.
  apply isExpired_iff in Hold.
  assert (Hfirst : getValidAccessToken w
                   = (Ok (Some (access_token response)),
                      with_config (store_token response (clock (S (ticks w))))
                        (tick (record_call AuthClient (tick w))))).
  { rewrite getValidAccessToken_cases. cbv zeta.
    rewrite Hkey, Hsecret. simpl negb. simpl orb. cbv iota.
    rewrite Hold, Hclient, Hauth. reflexivity. }
  rewrite Hfirst. simpl fst. simpl snd.
  split; [reflexivity |]. split; [reflexivity |].
  set (w1 := with_config (store_token response (clock (S (ticks w))))
               (tick (record_call AuthClient (tick w)))).
  assert (Hconf1 : credentials_configured (dwollaConfig w1)) by (split; assumption).
  split.
  - intros Hnonempty Hearly.
    assert (Hheld : token_held (dwollaConfig w1) = true).
    { unfold token_held. simpl. destruct (access_token response); [congruence | reflexivity]. }
    assert (Hfresh : token_fresh (clock (ticks w1)) (dwollaConfig w1)).
    { eapply token_fresh_after; [reflexivity | reflexivity | exact Hearly]. }
    rewrite (getValidAccessToken_fresh w1 Hconf1 Hheld Hfresh). split; reflexivity.
  - intros Hempty.
    rewrite getValidAccessToken_cases. cbv zeta.
    destruct Hconf1 as [Hkey1 Hsecret1]. rewrite Hkey1, Hsecret1.
    simpl negb. simpl orb. cbv iota.
    assert (Hexpired : isExpired (clock (ticks w1)) (dwollaConfig w1) = true).
    { unfold isExpired, token_held. simpl accessToken. rewrite Hempty. reflexivity. }
    rewrite Hexpired.
    assert (Hclient1 : dwollaClient w1 = Some c) by exact Hclient.
    rewrite Hclient1. destruct (auth (trace w1) c); reflexivity.
Qed.


(* --------------------------------------------------------------------- *)
(** *** POST /api/customers/:id/funding-sources: the outcomes *)
(* --------------------------------------------------------------------- *)

(** POST /api/customers/:id/funding-sources always answers, with 404, 400
    or 201, and leaves the three registries as they were.  The id is looked
    up before the name is tested: an unknown id is answered 404 whatever
    the body, and a known id without a name is answered 400; in both cases
    nothing is sent to the provider.  With 201 the name was given, the
    provider has accepted the POST of the funding source under the url of
    the customer's record and named the new resource in its [Location]
    header, and the id in the answer is the last segment of that
    location. *)
Theorem post_funding_source_outcomes :
  forall (w : World) (id : string) (name routingNumber accountNumber accountType : JsVal),
    exists r w',
      post_funding_source id name routingNumber accountNumber accountType w = (Ok r, w')
      /\ same_registries w w'
      /\ ((http_status r = 404
           /\ find_customer id (customersStore w) = None
           /\ w' = w)
          \/ (http_status r = 400
              /\ find_customer id (customersStore w) <> None
              /\ (truthy name = false -> w' = w))
          \/ (http_status r = 201
              /\ truthy name = true
              /\ exists c u history b,
                  find_customer id (customersStore w) = Some c
                  /\ In (Rest POST (JStr (Customer.url c ++ "/funding-sources"))
                           (Some (fundingSourceBody name routingNumber accountNumber
                                    accountType)))
                        (trace w')
                  /\ provider history POST (JStr (Customer.url c ++ "/funding-sources"))
                       (Some (fundingSourceBody name routingNumber accountNumber
                                accountType))
                     = Replied (Some u) b
                  /\ get (json r) "success" = Some (JBool true)
                  /\ opt_get (get (json r) "fundingSource") "id" = str (last_segment u)
                  /\ opt_get (get (json r) "fundingSource") "url" = str u)).
Proof.
  intros w id name routingNumber accountNumber accountType. apply post_run.
  match goal with |- post _ _ ?Q _ => set (Outcome := Q) end.
  unfold post_funding_source. apply post_try_catch. apply post_bind, post_read.
  destruct (find_customer id (customersStore w)) as [c |] eqn:Hfind.
  2:{ apply post_ret. split; [repeat split |]. left. repeat split. }
  destruct (truthy name) eqn:Hname; cbn [negb].
  2:{ apply post_ret. split; [repeat split |]. right. left.
      split; [reflexivity |]. split; [discriminate | reflexivity]. }
  assert (Hrejected : forall (w1 : World) (msg : string),
             same_registries w w1 -> Outcome (error_response 400 msg) w1).
  { intros w1 msg Hreg. split; [exact Hreg |]. right. left.
    split; [reflexivity |]. split; discriminate. }
  fold (fundingSourceBody name routingNumber accountNumber accountType).
  apply post_bind, post_dwollaRequest.
  2:{ intros e w1 Hreg _ _. apply post_ret. apply Hrejected. exact Hreg. }
  intros location b w1 Hreg1 _ _ Hin (history & Hanswer).
  apply post_bind, post_dwollaRequest.
  2:{ intros e w2 Hreg2 _ _. apply post_ret. apply Hrejected.
      eapply same_registries_chain; eassumption. }
  intros location' fundingSource w2 Hreg2 Hext2 _ _ _. simpl fst. simpl snd.
  assert (Hreg : same_registries w w2) by (eapply same_registries_chain; eassumption).
  apply post_bind, post_as_string;
    [| intros _ e; apply post_ret; apply Hrejected; exact Hreg].
  intros u Hu.
  do 5 (apply post_bind, post_prop;
        [intros _ | intros _ e; apply post_ret; apply Hrejected; exact Hreg]).
  apply post_ret. split; [exact Hreg |]. right. right.
  split; [reflexivity |]. split; [reflexivity |].
  destruct location as [l |]; simpl in Hu; inversion Hu; subst l.
  exists c, u, history, b.
  split; [reflexivity |]. split; [eapply extends_in; eassumption |].
  split; [exact Hanswer |]. repeat split; reflexivity.
Qed.


(* --------------------------------------------------------------------- *)
(** *** POST /api/customers/:id/verify: the outcomes *)
(* --------------------------------------------------------------------- *)



(* --------------------------------------------------------------------- *)
(** *** POST /api/customers: a record without an email *)
(* --------------------------------------------------------------------- *)

Lemma some_same_email_stuck (email : JsVal) (store : list Customer.t) (c : Customer.t)
      (w : World) :
  In c store ->
  is_string (Customer.email c) = false ->
  someM (same_email email) store w <> (Ok false, w).
Proof.
  intros Hin Hemail. induction store as [| x store IH]; simpl; [contradiction |].
  unfold bind.
  pose proof (same_email_state email x w) as Hstate.
  destruct (same_email email x w) as [[[|] | e] w1] eqn:Hhead;
    simpl in Hstate; subst w1; try discriminate.
  destruct Hin as [-> | Hin]; [| apply IH; exact Hin].
  exfalso. unfold same_email, bind in Hhead.
  destruct (Customer.email c) as [[| | | s | |] |]; simpl in *; discriminate.
Qed.

(** The duplicate check reads [c.email.toLowerCase()] of every record it
    visits.  Once the registry holds a record whose email is not a string
    (GET /api/customers stores one for a customer that the provider lists
    without an email), every request to create a customer is answered 400
    with the state left as it was: nothing reaches the provider. *)
Theorem record_without_email_blocks_creation :
  forall (w : World) (c : Customer.t)
         (firstName lastName email phone type businessName : JsVal),
    In c (customersStore w) ->
    is_string (Customer.email c) = false ->
    exists r,
      post_customers firstName lastName email phone type businessName w = (Ok r, w)
      /\ http_status r = 400.
Proof.
  intros w c firstName lastName email phone type businessName Hin Hemail.
  unfold post_customers, try_catch.
  destruct (negb (truthy firstName) || negb (truthy lastName) || negb (truthy email)).
  { eexists. split; reflexivity. }
  unfold bind at 1. unfold read at 1. unfold bind at 1.
  pose proof (some_same_email_stuck email (customersStore w) c w Hin Hemail) as Hstuck.
  destruct (some_same_email email (customersStore w) w) as (o & Hscan & _).
  rewrite Hscan in *.
  destruct o as [[|] | e].
  - eexists. split; reflexivity.
  - congruence.
  - eexists. split; reflexivity.
Qed.

End Server.

(* ===================================================================== *)
(** ** The properties on concrete requests *)
(* ===================================================================== *)

(* --------------------------------------------------------------------- *)
(** *** Token management *)
(* --------------------------------------------------------------------- *)

Lemma C3_witness :
  (requests_token Sample.clock Sample.auth_accepts Sample.configured
   <-> no_token_or_old (Sample.clock 2) (dwollaConfig Sample.configured))
  /\ (let first := getValidAccessToken Sample.clock Sample.auth_accepts Sample.configured in
      let second := getValidAccessToken Sample.clock Sample.auth_accepts (snd first) in
      fst first = Ok (Some "token-0")
      /\ fst second = Ok (Some "token-0")
      /\ trace (snd second) = [AuthClient]).
Proof.
  assert (Hconf : credentials_configured (dwollaConfig Sample.configured))
    by (split; reflexivity).
  destruct (C3_token_requested_exactly_when_missing_or_old
              Sample.clock Sample.auth_accepts Sample.configured Hconf)
    as [Hexactly Htwice].
  split.
  - apply Hexactly. discriminate.
  - apply Htwice; vm_compute; reflexivity.
Defined.

(** Before any configuration no token is held, and yet no token request
    is sent: the call stops at the test of the credentials. *)
Lemma C3_counterexample :
  ~ (requests_token Sample.clock Sample.auth_accepts initial_world
     <-> no_token_or_old (Sample.clock (ticks initial_world)) (dwollaConfig initial_world)).
Proof.
  intros [_ Hrequest].
  assert (Hmissing : no_token_or_old (Sample.clock (ticks initial_world))
                       (dwollaConfig initial_world))
    by (left; reflexivity).
  apply Hrequest in Hmissing. unfold requests_token in Hmissing.
  vm_compute in Hmissing. discriminate.
Qed.

(* --------------------------------------------------------------------- *)
(** *** POST /api/config *)
(* --------------------------------------------------------------------- *)

Lemma C9_witness :
  exists r w',
    post_config Sample.clock Sample.auth_rejects (str "new-key") (str "new-secret")
      Sample.stale_with_alice = (Ok r, w')
    /\ http_status r = 400
    /\ same_registries Sample.stale_with_alice w'
    /\ key (dwollaConfig w') = str "new-key"
    /\ secret (dwollaConfig w') = str "new-secret".
Proof.
  apply (C9_failed_configuration_keeps_registries_overwrites_credentials
           Sample.clock Sample.auth_rejects Sample.stale_with_alice
           (str "new-key") (str "new-secret")
           (Error "Failed to obtain Dwolla access token. Check your API credentials."));
    vm_compute; reflexivity.
Defined.

(* --------------------------------------------------------------------- *)
(** *** POST /api/customers *)
(* --------------------------------------------------------------------- *)

Lemma C4_witness :
  exists r,
    post_customers Sample.clock Sample.auth_accepts Sample.provider_empty Sample.ToString
      Sample.toLowerCase
      (str "A") (str "B") (str "alice@example.COM") None None None Sample.with_alice
    = (Ok r, Sample.with_alice)
    /\ http_status r = 400.
Proof.
  apply C4_duplicate_customer_rejected_locally.
  left. exists Sample.alice, "alice@example.COM", "Alice@Example.com".
  simpl. repeat split; auto.
Defined.

(* --------------------------------------------------------------------- *)
(** *** The routes under /api/customers/:id *)
(* --------------------------------------------------------------------- *)

Lemma C10_witness :
  get_customer Sample.clock Sample.auth_accepts Sample.provider_empty "c2" Sample.with_alice
  = (Ok (error_response 404 "Customer not found"), Sample.with_alice).
Proof.
  apply (C10_unknown_id_is_404_without_provider
           Sample.clock Sample.auth_accepts Sample.provider_empty Sample.ToString
           Sample.with_alice "c2" None None None None None None None None None None).
  intros c Hin. simpl in Hin. destruct Hin as [<- | []]. simpl. discriminate.
Defined.

(* --------------------------------------------------------------------- *)
(** *** POST /api/transfers *)
(* --------------------------------------------------------------------- *)

Lemma C5_witness :
  post_transfers Sample.clock Sample.auth_accepts Sample.provider_empty
    Sample.ToString Sample.StringToNumber
    (str "https://api-sandbox.dwolla.com/funding-sources/src")
    (str "https://api-sandbox.dwolla.com/funding-sources/dst")
    (Some (JNum (-5 # 1))) None None Sample.configured
  = (Ok (error_response 400 "Amount must be greater than 0"), Sample.configured).
Proof.
  apply (C5_nonpositive_amount_rejected_before_provider
           Sample.clock Sample.auth_accepts Sample.provider_empty
           Sample.ToString Sample.StringToNumber Sample.configured
           (str "https://api-sandbox.dwolla.com/funding-sources/src")
           (str "https://api-sandbox.dwolla.com/funding-sources/dst")
           (Some (JNum (-5 # 1))) None None);
    reflexivity.
Defined.

(** With [amount: 0] in the body, source and destination being given, the
    answer is not "Amount must be greater than 0". *)
Lemma C5_counterexample :
  le_zero Sample.ToString Sample.StringToNumber (Some (JNum 0)) = true
  /\ fst (post_transfers Sample.clock Sample.auth_accepts Sample.provider_empty
            Sample.ToString Sample.StringToNumber
            (str "https://api-sandbox.dwolla.com/funding-sources/src")
            (str "https://api-sandbox.dwolla.com/funding-sources/dst")
            (Some (JNum 0)) None None Sample.configured)
     = Ok (error_response 400
             "Source funding source, destination funding source, and amount are required")
  /\ error_response 400
       "Source funding source, destination funding source, and amount are required"
     <> error_response 400 "Amount must be greater than 0".
Proof.
  split; [reflexivity |]. split; [reflexivity |]. discriminate.
Qed.

Lemma C1_witness :
  (let result :=
     post_transfers Sample.clock Sample.auth_accepts Sample.provider_transfers
       Sample.ToString Sample.StringToNumber
       (str Sample.url_source) (str Sample.url_owned) (Some (JNum (10 # 1))) None
       (Some (JBool true)) Sample.configured in
   exists r, fst result = Ok r /\ http_status r = 400
             /\ posts (snd result) = posts Sample.configured)
  /\ (let result :=
        post_transfers Sample.clock Sample.auth_accepts Sample.provider_transfers
          Sample.ToString Sample.StringToNumber
          (str Sample.url_source) (str Sample.url_unowned) (Some (JNum (10 # 1))) None
          (Some (JBool true)) Sample.configured in
      exists r, fst result = Ok r /\ http_status r = 201).
Proof.
  pose (w1 := snd (check_source Sample.clock Sample.auth_accepts Sample.provider_transfers
                     (str Sample.url_source) Sample.configured)).
  split.
  - pose (w2 := snd (dwollaRequest Sample.clock Sample.auth_accepts
                       Sample.provider_transfers GET (JStr Sample.url_owned) null w1)).
    pose (b := Sample.funding_source Sample.url_owned "unverified"
                 [("customer", JObj [("href", JStr (Customer.url Sample.alice))])]).
    pose (w3 := snd (dwollaRequest Sample.clock Sample.auth_accepts
                       Sample.provider_transfers GET (url_arg (customer_link b)) null w2)).
    pose proof (C1_unverified_destination_needs_flag_and_verified_owner
                  Sample.clock Sample.auth_accepts Sample.provider_transfers
                  Sample.ToString Sample.StringToNumber
                  Sample.configured w1 w2
                  (str Sample.url_source) (str Sample.url_owned)
                  (Some (JNum (10 # 1))) None (Some (JBool true)) None b
                  eq_refl eq_refl eq_refl eq_refl eq_refl eq_refl eq_refl eq_refl)
      as Hcases.
    cbv zeta in Hcases. destruct Hcases as (_ & _ & _ & Howner).
    specialize (Howner eq_refl eq_refl
                  (Ok (None, Some (JObj [("status", JStr "unverified")]))) w3 eq_refl).
    destruct Howner as (Hposts & _ & Hrejected & _).
    destruct (Hrejected eq_refl) as (r & Hresult & Hstatus).
    cbv zeta. exists r. rewrite Hresult.
    split; [reflexivity |]. split; [exact Hstatus | exact Hposts].
  - pose (w2 := snd (dwollaRequest Sample.clock Sample.auth_accepts
                       Sample.provider_transfers GET (JStr Sample.url_unowned) null w1)).
    pose proof (C1_unverified_destination_needs_flag_and_verified_owner
                  Sample.clock Sample.auth_accepts Sample.provider_transfers
                  Sample.ToString Sample.StringToNumber
                  Sample.configured w1 w2
                  (str Sample.url_source) (str Sample.url_unowned)
                  (Some (JNum (10 # 1))) None (Some (JBool true)) None
                  (Sample.funding_source Sample.url_unowned "unverified" [])
                  eq_refl eq_refl eq_refl eq_refl eq_refl eq_refl eq_refl eq_refl)
      as Hcases.
    cbv zeta in Hcases. destruct Hcases as (_ & _ & Hsubmitted & _).
    cbv zeta. rewrite (Hsubmitted eq_refl eq_refl).
    eexists. split; vm_compute; reflexivity.
Defined.

(** A transfer to an unverified funding source that names no customer,
    with [allowUnverified] set: no customer is fetched and the transfer is
    submitted and answered 201. *)
Lemma C1_counterexample :
  let result :=
    post_transfers Sample.clock Sample.auth_accepts Sample.provider_transfers
      Sample.ToString Sample.StringToNumber
      (str Sample.url_source) (str Sample.url_unowned) (Some (JNum (10 # 1))) None
      (Some (JBool true)) Sample.configured in
  (forall history location b,
      Sample.provider_transfers history GET (JStr Sample.url_unowned) None
      = Replied location b ->
      verified b = false)
  /\ (exists r, fst result = Ok r /\ http_status r = 201)
  /\ trace (snd result)
     = [Rest GET (JStr Sample.url_transfer) None;
        Rest POST (JStr "transfers")
          (Some (transferBody Sample.ToString (str Sample.url_source)
                   (str Sample.url_unowned) (Some (JNum (10 # 1))) None));
        Rest GET (JStr Sample.url_unowned) None;
        Rest GET (JStr Sample.url_source) None;
        AuthClient].
Proof.
  cbv zeta. split; [| split].
  - intros history location b Hanswer. vm_compute in Hanswer.
    inversion Hanswer. reflexivity.
  - eexists. split; vm_compute; reflexivity.
  - vm_compute. reflexivity.
Qed.

(* --------------------------------------------------------------------- *)
(** *** Webhooks *)
(* --------------------------------------------------------------------- *)

Lemma C2_witness :
  fst (post_webhooks Sample.clock Sample.toISOString Sample.transfer_completed_event
         Sample.configured)
  = Ok (respond 200 (obj [("received", Some (JBool true))])).
Proof.
  apply (C2_webhook_answer Sample.clock Sample.toISOString
           Sample.transfer_completed_event Sample.configured).
  reflexivity.
Defined.

(** A body with a numeric topic and a [_links] object is answered 500. *)
Lemma C2_counterexample :
  fst (post_webhooks Sample.clock Sample.toISOString Sample.numeric_topic_event
         Sample.configured)
  = Ok (error_response 500 "Failed to process webhook").
Proof. vm_compute. reflexivity. Qed.

Lemma C6_witness :
  length (webhooksStore
            (run_ops Sample.clock Sample.toISOString
               [Receive Sample.transfer_completed_event; ListAll]
               Sample.full_webhooks)) <= 100
  /\ exists r rest oldest,
       webhooksStore Sample.full_webhooks = rest ++ [oldest]
       /\ webhooksStore
            (snd (post_webhooks Sample.clock Sample.toISOString
                    Sample.transfer_completed_event Sample.full_webhooks))
          = r :: rest
       /\ Webhook.topic r = get Sample.transfer_completed_event "topic"
       /\ Webhook.resourceId r = get Sample.transfer_completed_event "resourceId"
       /\ Webhook._links r = get Sample.transfer_completed_event "_links".
Proof.
  destruct (C6_webhook_store_bounded_oldest_evicted Sample.clock Sample.toISOString)
    as (_ & Hbounded & Hevict).
  split.
  - apply Hbounded. apply Nat.leb_le. vm_compute. reflexivity.
  - apply Hevict; reflexivity.
Defined.

Lemma C7_witness :
  exists t',
    transfersStore
      (snd (post_webhooks Sample.clock Sample.toISOString Sample.transfer_completed_event
              Sample.with_transfers_pending))
    = [Sample.transfer_record "t0" "pending"] ++ t' :: []
    /\ Transfer.status t' = str "processed"
    /\ same_transfer_but_status (Sample.transfer_record "t1" "pending") t'
    /\ customersStore
         (snd (post_webhooks Sample.clock Sample.toISOString
                 Sample.transfer_completed_event Sample.with_transfers_pending))
       = customersStore Sample.with_transfers_pending.
Proof.
  assert (Hu : "https://api-sandbox.dwolla.com/transfers/t1" <> "") by discriminate.
  destruct (C7_transfer_completed_marks_matching_transfer
              Sample.clock Sample.toISOString Sample.transfer_completed_event
              "https://api-sandbox.dwolla.com/transfers/t1"
              Sample.with_transfers_pending eq_refl eq_refl Hu)
    as [Hmatch _].
  apply Hmatch.
  - reflexivity.
  - reflexivity.
  - intros x [<- | []]. simpl. discriminate.
Defined.

(* --------------------------------------------------------------------- *)
(** *** Routing of GET /api/customers/eligible *)
(* --------------------------------------------------------------------- *)

(** The handler written for the eligible customers, called directly on a
    provider with one eligible customer, returns that customer with its
    one surviving funding source. *)
Example get_eligible_customers_example :
  exists customer source,
    fst (get_eligible_customers Sample.clock Sample.auth_accepts Sample.provider_customers
           None Sample.configured)
    = Ok (respond 200 (obj [("customers", Some (JArr [customer]))]))
    /\ get customer "id" = str "c2"
    /\ get customer "status" = str "verified"
    /\ get customer "fundingSources" = Some (JArr [source])
    /\ get source "id" = str "f1".
Proof.
  eexists. eexists. split; [vm_compute; reflexivity |].
  repeat split; reflexivity.
Qed.

(** C8, not met by the code. A GET of /api/customers/eligible should
    return the verified customers that have an eligible funding source.
    The route "/api/customers/:id" is registered before
    "/api/customers/eligible", so the request is handled by the handler of
    the former with [id = "eligible"]: on a provider with an eligible
    customer the answer is 404 "Customer not found", and the provider is
    not asked. *)
Theorem C8_eligible_route_is_shadowed :
  Router.dispatch GET "/api/customers/eligible"
  = Some (Router.GetCustomer, [("id", "eligible")])
  /\ get_customer Sample.clock Sample.auth_accepts Sample.provider_customers
       (Router.param "id" [("id", "eligible")]) Sample.configured
     = (Ok (error_response 404 "Customer not found"), Sample.configured).
Proof. split; vm_compute; reflexivity. Qed.

Lemma first_match_sound (table : list (Method * list Router.Segment * Router.Route))
      (m : Method) (segs : list string) (r : Router.Route) (p : list (string * string)) :
  Router.first_match table m segs = Some (r, p) ->
  exists m' pattern,
    In (m', pattern, r) table
    /\ Router.same_method m' m = true
    /\ Router.match_path pattern segs = Some p.
Proof.
  induction table as [| [[m' pattern] r'] table IH]; simpl; [discriminate |].
  destruct (Router.same_method m' m) eqn:Hmethod.
  - destruct (Router.match_path pattern segs) as [p' |] eqn:Hpath.
    + intros Hfound. inversion Hfound; subst. exists m', pattern. auto.
    + intros Hfound. destruct (IH Hfound) as (m'' & pattern' & Hin & Hrest).
      exists m'', pattern'. auto.
  - intros Hfound. destruct (IH Hfound) as (m'' & pattern' & Hin & Hrest).
    exists m'', pattern'. auto.
Qed.

(** A route that matches hides every route registered after it. *)
Lemma first_match_stops (before after : list (Method * list Router.Segment * Router.Route))
      (m0 : Method) (pattern0 : list Router.Segment) (r0 : Router.Route)
      (m : Method) (segs : list string) (p0 : list (string * string)) :
  Router.same_method m0 m = true ->
  Router.match_path pattern0 segs = Some p0 ->
  Router.first_match (before ++ (m0, pattern0, r0) :: after) m segs
  = Router.first_match (before ++ [(m0, pattern0, r0)]) m segs.
Proof.
  intros Hmethod Hpath. induction before as [| [[m' pattern] r'] before IH]; simpl.
  - rewrite Hmethod, Hpath. reflexivity.
  - rewrite IH. reflexivity.
Qed.

(** Whatever matches "/api/customers/eligible" matches "/api/customers/:id". *)
Lemma eligible_path_matches_id (segs : list string) (p : list (string * string)) :
  Router.match_path
    [Router.Lit "api"; Router.Lit "customers"; Router.Lit "eligible"] segs = Some p ->
  exists p0,
    Router.match_path
      [Router.Lit "api"; Router.Lit "customers"; Router.Param "id"] segs = Some p0.
Proof.
  destruct segs as [| s1 [| s2 [| s3 [| s4 rest]]]];
    cbn -[String.eqb fold_ascii]; try discriminate.
  - destruct (String.eqb (fold_ascii "api") (fold_ascii s1)); discriminate.
  - destruct (String.eqb (fold_ascii "api") (fold_ascii s1)); [| discriminate].
    destruct (String.eqb (fold_ascii "customers") (fold_ascii s2)); discriminate.
  - destruct (String.eqb (fold_ascii "api") (fold_ascii s1)); [| discriminate].
    destruct (String.eqb (fold_ascii "customers") (fold_ascii s2)); [| discriminate].
    destruct s3 as [| c s3]; [discriminate |].
    intros _. eexists. reflexivity.
  - destruct (String.eqb (fold_ascii "api") (fold_ascii s1)); [| discriminate].
    destruct (String.eqb (fold_ascii "customers") (fold_ascii s2)); [| discriminate].
    destruct (String.eqb (fold_ascii "eligible") (fold_ascii s3)); discriminate.
Qed.

(** No request is ever routed to the handler of the eligible customers. *)
Lemma eligible_handler_unreachable :
  forall (m : Method) (path : string) (params : list (string * string)),
    Router.dispatch m path <> Some (Router.GetEligibleCustomers, params).
Proof.
  intros m path params. unfold Router.dispatch.
  generalize (Router.path_segments path). intros segs Hfound.
  pose proof Hfound as Hsound. apply first_match_sound in Hsound.
  destruct Hsound as (m' & pattern & Hin & Hmethod & Hpath).
  assert (Hroute : m' = GET
                   /\ pattern = [Router.Lit "api"; Router.Lit "customers";
                                 Router.Lit "eligible"]).
  { simpl in Hin.
    repeat (destruct Hin as [Hin | Hin]; [inversion Hin; auto |]).
    contradiction. }
  destruct Hroute as [-> ->].
  assert (m = GET) by (destruct m; simpl in Hmethod; congruence). subst m.
  destruct (eligible_path_matches_id segs params Hpath) as (p0 & Hid).
  change Router.routes
    with (firstn 4 Router.routes
          ++ (GET, [Router.Lit "api"; Router.Lit "customers"; Router.Param "id"],
              Router.GetCustomer)
          :: skipn 5 Router.routes) in Hfound.
  rewrite (first_match_stops (firstn 4 Router.routes) (skipn 5 Router.routes)
             GET _ Router.GetCustomer GET segs p0 eq_refl Hid) in Hfound.
  apply first_match_sound in Hfound.
  destruct Hfound as (m' & pattern & Hearlier & _).
  simpl in Hearlier.
  repeat (destruct Hearlier as [Hearlier | Hearlier]; [discriminate |]).
  contradiction.
Qed.

(* --------------------------------------------------------------------- *)
(** *** The id of a resource: the last segment of its url *)
(* --------------------------------------------------------------------- *)

Lemma split_slash_not_nil (s : string) : split_slash s <> [].
Proof.
  destruct s as [| c rest]; simpl; [discriminate |].
  destruct (Ascii.eqb c "/"); [discriminate |].
  destruct (split_slash rest); discriminate.
Qed.

Lemma split_slash_no_slash (s : string) : no_slash s = true -> split_slash s = [s].
Proof.
  induction s as [| c rest IH]; simpl; [reflexivity |].
  intros Hno. apply andb_true_iff in Hno. destruct Hno as [Hc Hrest].
  apply negb_true_iff in Hc. rewrite Hc, (IH Hrest). reflexivity.
Qed.

(** Splitting at a slash: the segments of the two sides, one after the
    other. *)
Lemma split_slash_app (base rest : string) :
  split_slash (base ++ String "/" rest) = split_slash base ++ split_slash rest.
Proof.
  induction base as [| c base IH]; simpl.
  - reflexivity.
  - destruct (Ascii.eqb c "/").
    + rewrite IH. reflexivity.
    + rewrite IH. pose proof (split_slash_not_nil base) as Hne.
      destruct (split_slash base) as [| seg segs]; [congruence | reflexivity].
Qed.

Lemma last_app_not_nil {A} (xs ys : list A) (d : A) :
  ys <> [] -> last (xs ++ ys) d = last ys d.
Proof.
  intros Hne. induction xs as [| x xs IH]; simpl; [reflexivity |].
  destruct (xs ++ ys) eqn:Happ; [| exact IH].
  apply app_eq_nil in Happ. destruct Happ as [_ Hys]. congruence.
Qed.

(** The id taken from a url is the text after its last slash: whatever
    comes before the slash, and also when nothing comes after it (the id
    is then empty).  A url without a slash is its own id. *)
Theorem last_segment_after_last_slash :
  forall (base id : string),
    no_slash id = true ->
    last_segment (base ++ String "/" id) = id
    /\ last_segment id = id.
Proof.
  intros base id Hno. unfold last_segment. split.
  - rewrite split_slash_app, last_app_not_nil by apply split_slash_not_nil.
    rewrite (split_slash_no_slash id Hno). reflexivity.
  - rewrite (split_slash_no_slash id Hno). reflexivity.
Qed.

Lemma last_segment_after_last_slash_witness :
  last_segment ("https://api-sandbox.dwolla.com/customers" ++ String "/" "")
  = ""
  /\ last_segment "" = "".
Proof.
  apply (last_segment_after_last_slash "https://api-sandbox.dwolla.com/customers" "").
  reflexivity.
Defined.

(* --------------------------------------------------------------------- *)
(** *** Routing of the paths under /api/customers *)
(* --------------------------------------------------------------------- *)

(** Every GET of /api/customers/<segment>, for any non-empty segment
    written without percent-escapes, is handled by the handler of
    "/api/customers/:id" with that segment as [id]. *)
Theorem get_customers_segment_goes_to_id_route :
  forall seg : string,
    seg <> "" ->
    no_slash seg = true ->
    unescaped seg = true ->
    Router.dispatch GET ("/api/customers" ++ String "/" seg)
    = Some (Router.GetCustomer, [("id", seg)]).
Proof.
  intros seg Hne Hno _. unfold Router.dispatch, Router.path_segments.
  rewrite split_slash_app, (split_slash_no_slash seg Hno).
  destruct seg as [| c seg]; [congruence |].
  vm_compute. reflexivity.
Qed.

Lemma get_customers_segment_goes_to_id_route_witness :
  Router.dispatch GET ("/api/customers" ++ String "/" "eligible")
  = Some (Router.GetCustomer, [("id", "eligible")]).
Proof.
  apply (get_customers_segment_goes_to_id_route "eligible");
    [discriminate | reflexivity | reflexivity].
Defined.

(* --------------------------------------------------------------------- *)
(** *** Requests to the provider and the token, on concrete states *)
(* --------------------------------------------------------------------- *)

Lemma unconfigured_requests_fail_locally_witness :
  dwollaRequest Sample.clock Sample.auth_accepts Sample.provider_transfers
    GET (JStr "/") null initial_world
  = (Throw not_configured_error, initial_world).
Proof.
  apply (unconfigured_requests_fail_locally
           Sample.clock Sample.auth_accepts Sample.provider_transfers
           Sample.ToString Sample.StringToNumber initial_world
           GET (JStr "/") null None None None None None).
  reflexivity.
Defined.

Lemma expired_token_is_refreshed_once_before_the_call_witness :
  exists w',
    dwollaRequest Sample.clock Sample.auth_accepts Sample.provider_transfers
      GET (JStr Sample.url_source) null Sample.stale_with_alice
    = (Ok (None, Sample.funding_source Sample.url_source "verified" []), w')
    /\ trace w'
       = Rest GET (JStr Sample.url_source) (sent_body GET null)
         :: AuthClient :: trace Sample.stale_with_alice
    /\ accessToken (dwollaConfig w') = Some "token-1"
    /\ expiresIn (dwollaConfig w') = Some 3600%Z
    /\ tokenCreatedAt (dwollaConfig w') = Some (Sample.clock 3)
    /\ same_registries Sample.stale_with_alice w'.
Proof.
  apply (expired_token_is_refreshed_once_before_the_call
           Sample.clock Sample.auth_accepts Sample.provider_transfers
           Sample.stale_with_alice
           {| client_key := str "key"; client_secret := str "secret" |}
           {| access_token := "token-1"; expires_in := 3600 |}
           GET (JStr Sample.url_source) null None
           (Sample.funding_source Sample.url_source "verified" [])).
  - split; reflexivity.
  - right. vm_compute. discriminate.
  - reflexivity.
  - reflexivity.
  - reflexivity.
Defined.

Lemma failed_refresh_sends_no_call_and_keeps_the_token_witness :
  exists w',
    dwollaRequest Sample.clock Sample.auth_rejects Sample.provider_transfers
      GET (JStr Sample.url_source) null Sample.stale_with_alice
    = (Throw token_request_error, w')
    /\ trace w' = AuthClient :: trace Sample.stale_with_alice
    /\ dwollaConfig w' = dwollaConfig Sample.stale_with_alice
    /\ same_registries Sample.stale_with_alice w'.
Proof.
  apply (failed_refresh_sends_no_call_and_keeps_the_token
           Sample.clock Sample.auth_rejects Sample.provider_transfers
           Sample.stale_with_alice
           {| client_key := str "key"; client_secret := str "secret" |}).
  - split; reflexivity.
  - right. vm_compute. discriminate.
  - reflexivity.
  - reflexivity.
Defined.

Lemma fresh_token_sends_only_the_call_witness :
  trace (snd (dwollaRequest Sample.clock Sample.auth_accepts Sample.provider_transfers
                GET (JStr Sample.url_source) null Sample.configured))
  = Rest GET (JStr Sample.url_source) (sent_body GET null) :: trace Sample.configured.
Proof.
  apply (fresh_token_sends_only_the_call
           Sample.clock Sample.auth_accepts Sample.provider_transfers
           Sample.configured
           {| client_key := str "key"; client_secret := str "secret" |}
           GET (JStr Sample.url_source) null).
  - split; reflexivity.
  - reflexivity.
  - vm_compute. reflexivity.
  - reflexivity.
Defined.


(* --------------------------------------------------------------------- *)
(** *** POST /api/config and GET /api/config/status, on concrete states *)
(* --------------------------------------------------------------------- *)

Lemma post_config_outcomes_witness :
  exists r w',
    post_config Sample.clock Sample.auth_accepts (str "key") undefined Sample.with_alice
    = (Ok r, w')
    /\ http_status r = 400
    /\ w' = Sample.with_alice.
Proof.
  destruct (post_config_outcomes Sample.clock Sample.auth_accepts Sample.with_alice
              (str "key") undefined)
    as (r & w' & Hrun & _ & Hmissing).
  exists r, w'. split; [exact Hrun |]. apply Hmissing. reflexivity.
Defined.


Lemma config_status_report_witness :
  exists r,
    fst (get_config_status Sample.clock Sample.configured) = Ok r
    /\ get (json r) "tokenStatus" = str "valid".
Proof.
  pose proof (config_status_report Sample.clock Sample.configured) as Hreport.
  cbv zeta in Hreport.
  destruct Hreport as (_ & r & Hrun & _ & _ & _ & Hvalid & _).
  exists r. split; [exact Hrun |].
  apply Hvalid; [reflexivity | vm_compute; reflexivity].
Defined.

Lemma refreshed_token_is_reused_unless_empty_witness :
  let first :=
    getValidAccessToken Sample.clock Sample.auth_accepts Sample.stale_with_alice in
  let second := getValidAccessToken Sample.clock Sample.auth_accepts (snd first) in
  fst second = Ok (Some "token-1")
  /\ trace (snd second) = trace (snd first).
Proof.
  assert (Hconf : credentials_configured (dwollaConfig Sample.stale_with_alice))
    by (split; reflexivity).
  assert (Hold : no_token_or_old (Sample.clock (ticks Sample.stale_with_alice))
                   (dwollaConfig Sample.stale_with_alice)).
  { right. vm_compute. discriminate. }
  pose proof (refreshed_token_is_reused_unless_empty
                Sample.clock Sample.auth_accepts Sample.stale_with_alice
                {| client_key := str "key"; client_secret := str "secret" |}
                {| access_token := "token-1"; expires_in := 3600 |}
                Hconf Hold eq_refl eq_refl) as Hreused.
  cbv zeta in Hreused. destruct Hreused as (_ & _ & Hreused & _).
  apply Hreused; [discriminate | vm_compute; reflexivity].
Defined.

(* --------------------------------------------------------------------- *)
(** *** Webhooks, on concrete events *)
(* --------------------------------------------------------------------- *)

Lemma webhook_topic_sets_status_witness :
  exists c',
    customersStore
      (snd (post_webhooks Sample.clock Sample.toISOString
              (Sample.customer_event "customer_suspended") Sample.with_alice))
    = [] ++ c' :: []
    /\ Customer.status c' = str "suspended"
    /\ same_customer_but_status Sample.alice c'
    /\ transfersStore
         (snd (post_webhooks Sample.clock Sample.toISOString
                 (Sample.customer_event "customer_suspended") Sample.with_alice))
       = transfersStore Sample.with_alice.
Proof.
  assert (Hu : Customer.url Sample.alice <> "") by discriminate.
  pose proof (webhook_topic_sets_status Sample.clock Sample.toISOString
                (Sample.customer_event "customer_suspended")
                "customer_suspended" "suspended" (Customer.url Sample.alice)
                Sample.with_alice eq_refl Hu) as Htable.
  cbv zeta in Htable. destruct Htable as [Hcustomer _].
  apply Hcustomer.
  - right. left. reflexivity.
  - reflexivity.
  - reflexivity.
  - reflexivity.
  - intros x [].
Defined.

Lemma webhook_other_topics_change_no_record_witness :
  customersStore
    (snd (post_webhooks Sample.clock Sample.toISOString
            (Sample.customer_event "customer_created") Sample.with_alice))
  = customersStore Sample.with_alice
  /\ transfersStore
       (snd (post_webhooks Sample.clock Sample.toISOString
               (Sample.customer_event "customer_created") Sample.with_alice))
     = transfersStore Sample.with_alice.
Proof.
  apply (webhook_other_topics_change_no_record Sample.clock Sample.toISOString
           (Sample.customer_event "customer_created") Sample.with_alice).
  intros topic Htopic Hin. inversion Htopic; subst topic. simpl in Hin.
  repeat (destruct Hin as [Hin | Hin]; [discriminate |]). exact Hin.
Defined.

Lemma received_event_is_listed_first_witness :
  exists r,
    webhooksStore
      (snd (post_webhooks Sample.clock Sample.toISOString
              (Sample.customer_event "customer_created") Sample.full_webhooks))
    = r :: firstn 99 (webhooksStore Sample.full_webhooks)
    /\ Webhook.id r = str "evt-2"
    /\ Webhook.timestamp r = str "2023-11-14T22:13:20.000Z".
Proof.
  pose proof (received_event_is_listed_first Sample.clock Sample.toISOString
                (Sample.customer_event "customer_created") Sample.full_webhooks eq_refl)
    as Hfirst.
  cbv zeta in Hfirst. destruct Hfirst as (r & Hstore & _ & _ & _ & Hid & Htime & _).
  exists r. split; [exact Hstore |]. split; [exact Hid | exact Htime].
Defined.

(* --------------------------------------------------------------------- *)
(** *** The customers, on concrete requests *)
(* --------------------------------------------------------------------- *)

(** A new customer accepted by the provider is appended to the registry,
    under the id of the location the provider named. *)
Example post_customers_example :
  exists r w',
    post_customers Sample.clock Sample.auth_accepts Sample.provider_onboarding
      Sample.ToString Sample.toLowerCase
      (str "Bob") (str "Baker") (str "bob@example.com") None None None Sample.with_alice
    = (Ok r, w')
    /\ http_status r = 201
    /\ map Customer.id (customersStore w') = ["c1"; "c2"].
Proof.
  eexists. eexists. split; [vm_compute; reflexivity |]. split; reflexivity.
Qed.

Lemma post_funding_source_outcomes_witness :
  exists r w',
    post_funding_source Sample.clock Sample.auth_accepts Sample.provider_empty
      "c1" None None None None Sample.with_alice
    = (Ok r, w')
    /\ w' = Sample.with_alice.
Proof.
  destruct (post_funding_source_outcomes Sample.clock Sample.auth_accepts
              Sample.provider_empty Sample.with_alice "c1" None None None None)
    as (r & w' & Hrun & _ & [(_ & Hfind & _) | [(_ & _ & Hname) | (_ & Hname & _)]]).
  - discriminate Hfind.
  - exists r, w'. split; [exact Hrun |]. apply Hname. reflexivity.
  - discriminate Hname.
Defined.


(** With a record without an email in the registry, a new customer whom
    the provider would accept is refused, and the provider is not asked. *)
Lemma record_without_email_blocks_creation_witness :
  exists r,
    post_customers Sample.clock Sample.auth_accepts Sample.provider_onboarding
      Sample.ToString Sample.toLowerCase
      (str "Bob") (str "Baker") (str "bob@example.com") None None None
      Sample.with_imported
    = (Ok r, Sample.with_imported)
    /\ http_status r = 400.
Proof.
  apply (record_without_email_blocks_creation
           Sample.clock Sample.auth_accepts Sample.provider_onboarding Sample.ToString
           Sample.toLowerCase
           Sample.with_imported Sample.imported).
  - right. left. reflexivity.
  - reflexivity.
Defined.
